(** * The 110% Protocol System: a shallow embedding and its properties

    The development follows the TypeScript sources file by file:
    [types.ts], [core.ts], [protocol.ts], [self-healing.ts],
    [self-learning.ts], [api.ts] and [integrations.ts].

    Conventions of the embedding.
    - A JavaScript [number] that the code only ever uses as a counter, a
      millisecond reading or an integer constant is a [Z]; a [number] that
      is the result of a division is an IEEE 754 binary64 value
      ([spec_float] with precision 53 and maximal exponent 1024), computed
      with the operations of [SpecFloat], which round exactly like the
      JavaScript operators [*], [/] and [+].
    - Classes are records of their fields; a method is a computation in a
      state-and-exception monad over the record, so that mutation and
      [throw]/[try]/[catch] read like the source.
    - [Date.now()], [new Date()], [randomUUID()] and [Math.random()] read
      an oracle carried by the runtime; nothing is assumed about the
      values it delivers.
    - An [async] method is a computation that yields the value (or the
      exception) its promise settles with; where calls of a method can
      overlap and the overlap shows, as for [execute], the method is
      also given by the stretches between its [await]s, which the event
      loop runs one at a time.
    - Closures handed in by the caller are given by what the object sees
      of them: the promise of an operation by how it settles, a healing
      action by what it leaves of the runtime and how it settles. *)

From Stdlib Require Import ZArith List Bool String Ascii Lia Sorted Permutation.
From Stdlib Require Import SpecFloat.
From stdpp Require Import base tactics option list strings gmap pretty.

Local Open Scope string_scope.
Local Open Scope list_scope.
Local Open Scope Z_scope.

(* ===================================================================== *)
(** * JavaScript values, errors and numbers *)
(* ===================================================================== *)

(** The values passed through the generic parameter [T] of [execute] and
    stored in [metadata] fields. *)
#[local] Unset Elimination Schemes.
Inductive JsValue : Type :=
| JUndefined
| JNull
| JBool (b : bool)
| JNum (n : Z)
| JStr (s : string)
| JObj (fields : list (string * JsValue)).
#[local] Set Elimination Schemes.

(** [result !== null && result !== undefined] *)
Definition notNullish (v : JsValue) : bool :=
  match v with
  | JNull | JUndefined => false
  | _ => true
  end.

(** An [Error] object: the two properties the code reads.  [heal] is
    given [Error] objects, as its signature asks. *)
Record JsError : Type := mkError {
  err_name : string;
  err_message : string
}.

(** [new Error(msg)] *)
Definition Error (msg : string) : JsError :=
  {| err_name := "Error"; err_message := msg |}.

(** [String(error)], that is [Error.prototype.toString]. *)
Definition String_of_error (e : JsError) : string :=
  if String.eqb (err_name e) "" then err_message e
  else if String.eqb (err_message e) "" then err_name e
  else (err_name e ++ ": " ++ err_message e)%string.

(** A thrown value, which need not be an [Error] object ([catch (error)]
    binds an [unknown]).  The code converts a caught value with
    [String(error)], logs it and throws it again.  So a thrown value is
    an [Error] object, which converts as [Error.prototype.toString]
    says, or any other value, given by what the conversion makes of it:
    a string, or nothing for a value that cannot be converted (an object
    without [toString], such as [Object.create(null)], or one whose
    [toString] throws). *)
Inductive Thrown : Type :=
| ThrownError (e : JsError)
| ThrownOther (converted : option string).
Coercion ThrownError : JsError >-> Thrown.

(** How a call ends: with a value, or with a thrown value. *)
Inductive Completion (A : Type) : Type :=
| Normal (a : A)
| Abrupt (e : Thrown).
Arguments Normal {A} a.
Arguments Abrupt {A} e.

(** [String(error)] on a caught value.  Converting a value that has no
    conversion throws in its turn. *)
Definition String_of (thrown : Thrown) : Completion string :=
  match thrown with
  | ThrownError e => Normal (String_of_error e)
  | ThrownOther (Some converted) => Normal converted
  | ThrownOther None =>
      Abrupt (mkError "TypeError" "Cannot convert object to primitive value")
  end.

(** ** binary64 arithmetic *)
Module Number.
Definition prec : Z := 53.
Definition emax : Z := 1024.

(** The double nearest to an integer (exact below [2^53]). *)
Definition ofZ (z : Z) : spec_float := binary_normalize prec emax z 0 false.

Definition add : spec_float -> spec_float -> spec_float := SFadd prec emax.
Definition mul : spec_float -> spec_float -> spec_float := SFmul prec emax.
Definition div : spec_float -> spec_float -> spec_float := SFdiv prec emax.

(** [x >= y] and [x < y] on doubles *)
Definition geb (x y : spec_float) : bool := SFleb y x.
Definition ltb (x y : spec_float) : bool := SFltb x y.

(** [n || d] on an integer-valued number: [0] is falsy. *)
Definition orDefault (n d : Z) : Z := if n =? 0 then d else n.
End Number.

#[global] Instance spec_float_eq_dec : EqDecision spec_float.
Proof. solve_decision. Defined.

(* ===================================================================== *)
(** * Strings and arrays *)
(* ===================================================================== *)

Definition lowerAscii (c : ascii) : ascii :=
  let n := nat_of_ascii c in
  if (Nat.leb 65 n && Nat.leb n 90)%bool then ascii_of_nat (n + 32) else c.

Fixpoint toLowerCase (s : string) : string :=
  match s with
  | EmptyString => EmptyString
  | String c s' => String (lowerAscii c) (toLowerCase s')
  end.

(** [hay.includes(needle)] *)
Fixpoint includes (needle hay : string) : bool :=
  if String.prefix needle hay then true
  else match hay with
       | EmptyString => false
       | String _ hay' => includes needle hay'
       end.

(** [/a|b|c/i.test(s)] for literal alternatives [a], [b], [c]: some
    alternative occurs in [s] up to the case of ASCII letters.  Without
    the [u] flag a pattern letter never matches a character outside
    ASCII, so folding the ASCII letters of both sides is exact. *)
Definition testIgnoreCase (alternatives : list string) (s : string) : bool :=
  existsb (fun a => includes (toLowerCase a) (toLowerCase s)) alternatives.

Module Array.
Section Array.
Context {A : Type}.

(** [arr.slice(0, end)]: a negative [end] counts from the back. *)
Definition slice0 (end_ : Z) (arr : list A) : list A :=
  let len := Z.of_nat (length arr) in
  let final := if end_ <? 0 then Z.max (len + end_) 0 else Z.min end_ len in
  take (Z.to_nat final) arr.

(** [arr.sort(compareFn)].  ECMAScript requires the sort to be stable,
    and for a consistent comparator the stable sorted arrangement is
    unique; insertion from the right computes it. *)
Fixpoint insert_sorted (compareFn : A -> A -> Z) (x : A) (arr : list A) : list A :=
  match arr with
  | [] => [x]
  | y :: arr' =>
      if compareFn x y <=? 0 then x :: y :: arr'
      else y :: insert_sorted compareFn x arr'
  end.

Definition sort (compareFn : A -> A -> Z) (arr : list A) : list A :=
  foldr (insert_sorted compareFn) [] arr.

(** [arr.find(p)] *)
Fixpoint find (p : A -> bool) (arr : list A) : option A :=
  match arr with
  | [] => None
  | x :: arr' => if p x then Some x else find p arr'
  end.

(** [arr.push(x)] *)
Definition push (x : A) (arr : list A) : list A := arr ++ [x].

(** [arr.shift()] (the removed element is not used by the code) *)
Definition shift (arr : list A) : list A := drop 1 arr.
End Array.
End Array.

(* ===================================================================== *)
(** * The runtime: clock and entropy oracles, state and exceptions *)
(* ===================================================================== *)

(** Every reading of the clock or of a random source consumes one step of
    the oracle. *)
Record Runtime : Type := mkRuntime {
  rt_now : nat -> Z;          (* Date.now() / new Date(), in ms *)
  rt_uuid : nat -> string;    (* randomUUID() *)
  rt_random : nat -> string;  (* Math.random().toString(36).substr(2, 9) *)
  rt_step : nat
}.

Definition rt_tick (rt : Runtime) : Runtime :=
  {| rt_now := rt_now rt; rt_uuid := rt_uuid rt; rt_random := rt_random rt;
     rt_step := S (rt_step rt) |}.

(** A method of an object whose fields are [St]: it runs on the runtime
    and the fields, and ends normally or abruptly, leaving both updated. *)
Definition M (St A : Type) : Type := Runtime * St -> Completion A * (Runtime * St).

Module JS.
Section Monad.
Context {St : Type}.

Definition ret {A} (a : A) : M St A := fun w => (Normal a, w).

Definition bind {A B} (m : M St A) (k : A -> M St B) : M St B :=
  fun w => match m w with
           | (Normal a, w') => k a w'
           | (Abrupt e, w') => (Abrupt e, w')
           end.

Definition throw {A} (e : Thrown) : M St A := fun w => (Abrupt e, w).

(** [try { body } catch (e) { handler(e) }] *)
Definition try_catch {A} (body : M St A) (handler : Thrown -> M St A) : M St A :=
  fun w => match body w with
           | (Normal a, w') => (Normal a, w')
           | (Abrupt e, w') => handler e w'
           end.

(** Settle a promise (or plain value) produced outside the object. *)
Definition await {A} (c : Completion A) : M St A := fun w => (c, w).

(** Call a closure supplied by the caller and await the promise it
    returns: the closure runs on the runtime, which it leaves as it
    pleases, and does not reach the fields of the object. *)
Definition await_call {A} (closure : Runtime -> Completion A * Runtime) : M St A :=
  fun w => match closure (fst w) with
           | (c, rt') => (c, (rt', snd w))
           end.

Definition get : M St St := fun w => (Normal (snd w), w).
Definition gets {A} (f : St -> A) : M St A := fun w => (Normal (f (snd w)), w).
Definition modify (f : St -> St) : M St unit := fun w => (Normal tt, (fst w, f (snd w))).

Definition Date_now : M St Z :=
  fun w => (Normal (rt_now (fst w) (rt_step (fst w))), (rt_tick (fst w), snd w)).
Definition randomUUID : M St string :=
  fun w => (Normal (rt_uuid (fst w) (rt_step (fst w))), (rt_tick (fst w), snd w)).
Definition Math_random36 : M St string :=
  fun w => (Normal (rt_random (fst w) (rt_step (fst w))), (rt_tick (fst w), snd w)).
End Monad.

(** Call a method of a member object: [this.field.method(...)]. *)
Definition zoom {St T A} (proj : St -> T) (inj : T -> St -> St) (m : M T A) : M St A :=
  fun w => match m (fst w, proj (snd w)) with
           | (r, (rt', t')) => (r, (rt', inj t' (snd w)))
           end.
End JS.

Declare Scope js_scope.
Delimit Scope js_scope with js.
Notation "x <- m ;; k" := (JS.bind m (fun x => k))
  (at level 100, m at next level, right associativity) : js_scope.
Notation "m ;; k" := (JS.bind m (fun _ => k))
  (at level 100, right associativity) : js_scope.
Local Open Scope js_scope.

(** The outcome and the final fields of running a method. *)
Definition outcome {St A} (r : Completion A * (Runtime * St)) : Completion A := fst r.
Definition fields_after {St A} (r : Completion A * (Runtime * St)) : St := snd (snd r).
Definition runtime_after {St A} (r : Completion A * (Runtime * St)) : Runtime := fst (snd r).

(* ===================================================================== *)
(** * types.ts *)
(* ===================================================================== *)

Inductive EnhancementLevel : Type := BASELINE | ENHANCED | EXCEPTIONAL | TRANSFORMATIVE.

(** The numeric value of the enum member. *)
Definition level_value (l : EnhancementLevel) : Z :=
  match l with
  | BASELINE => 100
  | ENHANCED => 110
  | EXCEPTIONAL => 120
  | TRANSFORMATIVE => 150
  end.

Inductive OperationStatus : Type :=
| PENDING | IN_PROGRESS | SUCCESS | FAILED | STATUS_ENHANCED.

Inductive Priority : Type := LOW | MEDIUM | HIGH | CRITICAL.

#[global] Instance EnhancementLevel_eq_dec : EqDecision EnhancementLevel.
Proof. solve_decision. Defined.
#[global] Instance Priority_eq_dec : EqDecision Priority.
Proof. solve_decision. Defined.
#[global] Instance OperationStatus_eq_dec : EqDecision OperationStatus.
Proof. solve_decision. Defined.

Record Enhancement : Type := mkEnhancement {
  enh_id : string;
  enh_description : string;
  enh_impact : EnhancementLevel;
  enh_priority : Priority;
  enh_timestamp : Z;
  enh_metadata : option (list (string * JsValue))
}.

Record Recommendation : Type := mkRecommendation {
  rec_id : string;
  rec_title : string;
  rec_description : string;
  rec_priority : Priority;
  estimatedImpact : Z;
  rec_category : string;
  actionable : bool;
  rec_timestamp : Z
}.

Record ResultMetadata : Type := mkResultMetadata {
  executionTime : Z;
  res_timestamp : Z;
  version : string
}.

Record OperationResult : Type := mkOperationResult {
  success : bool;
  status : OperationStatus;
  data : JsValue;
  enhancements : list Enhancement;
  recommendations : list Recommendation;
  metadata : ResultMetadata
}.

Record ProtocolConfig : Type := mkProtocolConfig {
  minEnhancementLevel : EnhancementLevel;
  enableSelfHealing : bool;
  enableSelfLearning : bool;
  enableContinuousImprovement : bool;
  monitoringInterval : Z;
  maxRecommendations : Z
}.

(** [Partial<ProtocolConfig>]: every property may be absent. *)
Record PartialProtocolConfig : Type := mkPartialConfig {
  p_minEnhancementLevel : option EnhancementLevel;
  p_enableSelfHealing : option bool;
  p_enableSelfLearning : option bool;
  p_enableContinuousImprovement : option bool;
  p_monitoringInterval : option Z;
  p_maxRecommendations : option Z
}.

Definition emptyConfig : PartialProtocolConfig :=
  mkPartialConfig None None None None None None.

Record HealthMetrics : Type := mkHealthMetrics {
  hm_uptime : Z;
  enhancementRate : spec_float;
  successRate : spec_float;
  averageExecutionTime : Z
}.

Record HealthCheck : Type := mkHealthCheck {
  healthy : bool;
  hc_status : string;
  hc_timestamp : Z;
  hc_metrics : HealthMetrics;
  issues : option (list string)
}.

Record SystemMetrics : Type := mkSystemMetrics {
  totalOperations : Z;
  successfulOperations : Z;
  failedOperations : Z;
  enhancedOperations : Z;
  averageEnhancementLevel : spec_float;
  totalRecommendations : Z;
  implementedRecommendations : Z;
  uptime : Z;
  lastUpdate : Z
}.

(* ===================================================================== *)
(** * logger.ts *)
(* ===================================================================== *)

Inductive LogLevel : Type := INFO | ERROR.

(** Modelled from the spec: the [Logger] class is not part of the sources
    at hand.  The specification asks of it only that it accepts
    [info(message, context?)] and [error(message, context?)] and that
    logging never affects the outcome of the pipeline; it is modelled as
    a list of the messages received. *)
Module Logger.
Record t : Type := mk { entries : list (LogLevel * string) }.

Definition new : t := mk [].

Definition info (message : string) : M t unit :=
  JS.modify (fun l => mk (Array.push (INFO, message) (entries l))).

Definition error (message : string) : M t unit :=
  JS.modify (fun l => mk (Array.push (ERROR, message) (entries l))).
End Logger.

(* ===================================================================== *)
(** * core.ts *)
(* ===================================================================== *)

Module EnhancementTracker.
Record t : Type := mk { enhancements : list Enhancement }.

Definition new : t := mk [].

Definition createEnhancement (description : string) (impact : EnhancementLevel)
    (priority : Priority) (metadata : option (list (string * JsValue)))
    : M t Enhancement :=
  id <- JS.randomUUID ;;
  timestamp <- JS.Date_now ;;
  let enhancement :=
    {| enh_id := id; enh_description := description; enh_impact := impact;
       enh_priority := priority; enh_timestamp := timestamp;
       enh_metadata := metadata |} in
  JS.modify (fun this => mk (Array.push enhancement (enhancements this))) ;;
  JS.ret enhancement.

Definition getEnhancements : M t (list Enhancement) := JS.gets enhancements.

Definition getEnhancementsByPriority (priority : Priority) : M t (list Enhancement) :=
  JS.gets (fun this =>
    List.filter (fun e => bool_decide (enh_priority e = priority)) (enhancements this)).

Definition getEnhancementsByImpact (minImpact : EnhancementLevel) : M t (list Enhancement) :=
  JS.gets (fun this =>
    List.filter (fun e => level_value minImpact <=? level_value (enh_impact e))
      (enhancements this)).

Definition getAverageEnhancementLevel : M t spec_float :=
  JS.gets (fun this =>
    if Z.of_nat (length (enhancements this)) =? 0
    then Number.ofZ (level_value BASELINE)
    else
      let sum := fold_left (fun acc e => acc + level_value (enh_impact e))
                           (enhancements this) 0 in
      Number.div (Number.ofZ sum) (Number.ofZ (Z.of_nat (length (enhancements this))))).

Definition clear : M t unit := JS.modify (fun _ => mk []).
End EnhancementTracker.

Module RecommendationEngine.
Record t : Type := mk { recommendations : list Recommendation }.

Definition new : t := mk [].

Definition createRecommendation (title description : string) (priority : Priority)
    (impact : Z) (category : string) (actionable_ : option bool)
    : M t Recommendation :=
  id <- JS.randomUUID ;;
  timestamp <- JS.Date_now ;;
  let recommendation :=
    {| rec_id := id; rec_title := title; rec_description := description;
       rec_priority := priority; estimatedImpact := impact;
       rec_category := category; actionable := default true actionable_;
       rec_timestamp := timestamp |} in
  JS.modify (fun this => mk (Array.push recommendation (recommendations this))) ;;
  JS.ret recommendation.

Definition getRecommendations : M t (list Recommendation) := JS.gets recommendations.

Definition getRecommendationsByPriority (priority : Priority) : M t (list Recommendation) :=
  JS.gets (fun this =>
    List.filter (fun r => bool_decide (rec_priority r = priority)) (recommendations this)).

Definition getActionableRecommendations : M t (list Recommendation) :=
  JS.gets (fun this => List.filter actionable (recommendations this)).

(** [(a, b) => b.estimatedImpact - a.estimatedImpact] *)
Definition byImpactDescending (a b : Recommendation) : Z :=
  estimatedImpact b - estimatedImpact a.

(** The sort and the slice work on a copy ([[...this.recommendations]]);
    the stored array is only read. *)
Definition getTopRecommendations (limit : option Z) : M t (list Recommendation) :=
  JS.gets (fun this =>
    Array.slice0 (default 10 limit)
      (Array.sort byImpactDescending (recommendations this))).

Definition clear : M t unit := JS.modify (fun _ => mk []).
End RecommendationEngine.

Definition createSuccessResult {St} (data_ : JsValue) (enhancements_ : list Enhancement)
    (recommendations_ : list Recommendation) : M St OperationResult :=
  timestamp <- JS.Date_now ;;
  JS.ret {| success := true;
            status := if 0 <? Z.of_nat (length enhancements_)
                      then STATUS_ENHANCED else SUCCESS;
            data := data_;
            enhancements := enhancements_;
            recommendations := recommendations_;
            metadata := {| executionTime := 0; res_timestamp := timestamp;
                           version := "1.0.0" |} |}.

Definition createFailureResult {St} (error : string)
    (recommendations_ : list Recommendation) : M St OperationResult :=
  timestamp <- JS.Date_now ;;
  JS.ret {| success := false;
            status := FAILED;
            data := JObj [("error", JStr error)];
            enhancements := [];
            recommendations := recommendations_;
            metadata := {| executionTime := 0; res_timestamp := timestamp;
                           version := "1.0.0" |} |}.

(* ===================================================================== *)
(** * protocol.ts *)
(* ===================================================================== *)

Module Protocol110System.
Record t : Type := mk {
  config : ProtocolConfig;
  enhancementTracker : EnhancementTracker.t;
  recommendationEngine : RecommendationEngine.t;
  logger : Logger.t;
  startTime : Z;
  metrics : SystemMetrics
}.

Definition set_enhancementTracker (x : EnhancementTracker.t) (this : t) : t :=
  mk (config this) x (recommendationEngine this) (logger this)
     (startTime this) (metrics this).
Definition set_recommendationEngine (x : RecommendationEngine.t) (this : t) : t :=
  mk (config this) (enhancementTracker this) x (logger this)
     (startTime this) (metrics this).
Definition set_logger (x : Logger.t) (this : t) : t :=
  mk (config this) (enhancementTracker this) (recommendationEngine this) x
     (startTime this) (metrics this).
Definition set_metrics (x : SystemMetrics) (this : t) : t :=
  mk (config this) (enhancementTracker this) (recommendationEngine this)
     (logger this) (startTime this) x.

(** Calls on the member objects. *)
Definition on_enhancementTracker {A} (m : M EnhancementTracker.t A) : M t A :=
  JS.zoom enhancementTracker set_enhancementTracker m.
Definition on_recommendationEngine {A} (m : M RecommendationEngine.t A) : M t A :=
  JS.zoom recommendationEngine set_recommendationEngine m.
Definition on_logger {A} (m : M Logger.t A) : M t A :=
  JS.zoom logger set_logger m.
Definition update_metrics (f : SystemMetrics -> SystemMetrics) : M t unit :=
  JS.modify (fun this => set_metrics (f (metrics this)) this).

(** The single-field updates of [this.metrics] that the methods perform. *)
Definition inc_totalOperations (m : SystemMetrics) : SystemMetrics :=
  mkSystemMetrics (totalOperations m + 1) (successfulOperations m)
    (failedOperations m) (enhancedOperations m) (averageEnhancementLevel m)
    (totalRecommendations m) (implementedRecommendations m) (uptime m) (lastUpdate m).
Definition inc_successfulOperations (m : SystemMetrics) : SystemMetrics :=
  mkSystemMetrics (totalOperations m) (successfulOperations m + 1)
    (failedOperations m) (enhancedOperations m) (averageEnhancementLevel m)
    (totalRecommendations m) (implementedRecommendations m) (uptime m) (lastUpdate m).
Definition inc_failedOperations (m : SystemMetrics) : SystemMetrics :=
  mkSystemMetrics (totalOperations m) (successfulOperations m)
    (failedOperations m + 1) (enhancedOperations m) (averageEnhancementLevel m)
    (totalRecommendations m) (implementedRecommendations m) (uptime m) (lastUpdate m).
Definition inc_enhancedOperations (m : SystemMetrics) : SystemMetrics :=
  mkSystemMetrics (totalOperations m) (successfulOperations m)
    (failedOperations m) (enhancedOperations m + 1) (averageEnhancementLevel m)
    (totalRecommendations m) (implementedRecommendations m) (uptime m) (lastUpdate m).
Definition add_totalRecommendations (n : Z) (m : SystemMetrics) : SystemMetrics :=
  mkSystemMetrics (totalOperations m) (successfulOperations m)
    (failedOperations m) (enhancedOperations m) (averageEnhancementLevel m)
    (totalRecommendations m + n) (implementedRecommendations m) (uptime m) (lastUpdate m).
Definition set_uptime (x : Z) (m : SystemMetrics) : SystemMetrics :=
  mkSystemMetrics (totalOperations m) (successfulOperations m)
    (failedOperations m) (enhancedOperations m) (averageEnhancementLevel m)
    (totalRecommendations m) (implementedRecommendations m) x (lastUpdate m).
Definition set_lastUpdate (x : Z) (m : SystemMetrics) : SystemMetrics :=
  mkSystemMetrics (totalOperations m) (successfulOperations m)
    (failedOperations m) (enhancedOperations m) (averageEnhancementLevel m)
    (totalRecommendations m) (implementedRecommendations m) (uptime m) x.
Definition set_averageEnhancementLevel (x : spec_float) (m : SystemMetrics) : SystemMetrics :=
  mkSystemMetrics (totalOperations m) (successfulOperations m)
    (failedOperations m) (enhancedOperations m) x
    (totalRecommendations m) (implementedRecommendations m) (uptime m) (lastUpdate m).

Definition initializeMetrics (lastUpdate_ : Z) : SystemMetrics :=
  {| totalOperations := 0;
     successfulOperations := 0;
     failedOperations := 0;
     enhancedOperations := 0;
     averageEnhancementLevel := Number.ofZ (level_value BASELINE);
     totalRecommendations := 0;
     implementedRecommendations := 0;
     uptime := 0;
     lastUpdate := lastUpdate_ |}.

(** The defaults applied by the constructor: [||] for the enum and the
    numbers (so [0] is replaced too), [??] for the flags. *)
Definition resolveConfig (c : PartialProtocolConfig) : ProtocolConfig :=
  {| minEnhancementLevel := default ENHANCED (p_minEnhancementLevel c);
     enableSelfHealing := default true (p_enableSelfHealing c);
     enableSelfLearning := default true (p_enableSelfLearning c);
     enableContinuousImprovement := default true (p_enableContinuousImprovement c);
     monitoringInterval := Number.orDefault (default 0 (p_monitoringInterval c)) 60000;
     maxRecommendations := Number.orDefault (default 0 (p_maxRecommendations c)) 50 |}.

(** [new Protocol110System(config)] *)
Definition new (c : PartialProtocolConfig) (rt : Runtime) : Runtime * t :=
  let startTime_ := rt_now rt (rt_step rt) in
  let rt1 := rt_tick rt in
  let lastUpdate_ := rt_now rt1 (rt_step rt1) in
  let rt2 := rt_tick rt1 in
  let this :=
    {| config := resolveConfig c;
       enhancementTracker := EnhancementTracker.new;
       recommendationEngine := RecommendationEngine.new;
       logger := Logger.new;
       startTime := startTime_;
       metrics := initializeMetrics lastUpdate_ |} in
  snd (on_logger (Logger.info "110% Protocol System initialized") (rt2, this)).

Definition updateMetrics : M t unit :=
  now <- JS.Date_now ;;
  this <- JS.get ;;
  update_metrics (set_uptime (now - startTime this)) ;;
  date <- JS.Date_now ;;
  update_metrics (set_lastUpdate date) ;;
  average <- on_enhancementTracker EnhancementTracker.getAverageEnhancementLevel ;;
  update_metrics (set_averageEnhancementLevel average).

Definition applyEnhancements (operationName : string) (result : JsValue)
    : M t (list Enhancement) :=
  this <- JS.get ;;
  if negb (enableContinuousImprovement (config this)) then JS.ret []
  else
    let enhancements := [] in
    enhancement <- on_enhancementTracker
      (EnhancementTracker.createEnhancement
         ("Enhanced " ++ operationName ++ " with 110% protocol")%string
         ENHANCED MEDIUM
         (Some [("operationName", JStr operationName); ("result", result)])) ;;
    let enhancements := Array.push enhancement enhancements in
    if notNullish result then
      additionalEnhancement <- on_enhancementTracker
        (EnhancementTracker.createEnhancement
           "Result validation and optimization applied"
           EXCEPTIONAL LOW
           (Some [("validated", JBool true)])) ;;
      JS.ret (Array.push additionalEnhancement enhancements)
    else JS.ret enhancements.

Definition generateRecommendations (operationName : string) (_result : JsValue)
    : M t (list Recommendation) :=
  this <- JS.get ;;
  if negb (enableContinuousImprovement (config this)) then JS.ret []
  else
    let recommendations := [] in
    perfRecommendation <- on_recommendationEngine
      (RecommendationEngine.createRecommendation
         "Optimize Performance"
         ("Consider caching results for " ++ operationName
            ++ " to improve performance")%string
         MEDIUM 75 "performance" None) ;;
    let recommendations := Array.push perfRecommendation recommendations in
    monitoringRecommendation <- on_recommendationEngine
      (RecommendationEngine.createRecommendation
         "Enhanced Monitoring"
         ("Add detailed metrics tracking for " ++ operationName)%string
         LOW 50 "monitoring" None) ;;
    let recommendations := Array.push monitoringRecommendation recommendations in
    update_metrics (add_totalRecommendations (Z.of_nat (length recommendations))) ;;
    JS.ret (Array.slice0 (maxRecommendations (config this)) recommendations).

Definition attemptSelfHealing (error : Thrown) (operationName : string)
    : M t OperationResult :=
  on_logger (Logger.info ("Attempting self-healing for: " ++ operationName)%string) ;;
  JS.try_catch
    (recommendation <- on_recommendationEngine
       (RecommendationEngine.createRecommendation
          "Self-Healing Action"
          ("Implemented recovery procedure for " ++ operationName)%string
          HIGH 90 "self-healing" None) ;;
     on_logger (Logger.info "Self-healing completed successfully") ;;
     originalError <- JS.await (String_of error) ;;
     createSuccessResult
       (JObj [("healed", JBool true); ("originalError", JStr originalError)])
       []
       [recommendation])
    (fun healingError =>
       on_logger (Logger.error "Self-healing failed") ;;
       JS.throw error).

Definition set_executionTime (x : Z) (r : OperationResult) : OperationResult :=
  mkOperationResult (success r) (status r) (data r) (enhancements r)
    (recommendations r)
    (mkResultMetadata x (res_timestamp (metadata r)) (version (metadata r))).

(** [execute(operation, operationName)].  The operation is a closure
    supplied by the caller; the system observes only how its promise
    settles. *)
Definition execute (operation : unit -> Completion JsValue) (operationName : string)
    : M t OperationResult :=
  startTime_ <- JS.Date_now ;;
  update_metrics inc_totalOperations ;;
  JS.try_catch
    (on_logger (Logger.info ("Executing operation: " ++ operationName)%string) ;;
     result <- JS.await (operation tt) ;;
     enhancements_ <- applyEnhancements operationName result ;;
     recommendations_ <- generateRecommendations operationName result ;;
     update_metrics inc_successfulOperations ;;
     (if 0 <? Z.of_nat (length enhancements_)
      then update_metrics inc_enhancedOperations
      else JS.ret tt) ;;
     updateMetrics ;;
     now <- JS.Date_now ;;
     let executionTime_ := now - startTime_ in
     operationResult <- createSuccessResult result enhancements_ recommendations_ ;;
     let operationResult := set_executionTime executionTime_ operationResult in
     on_logger (Logger.info ("Operation completed: " ++ operationName)%string) ;;
     JS.ret operationResult)
    (fun error =>
       update_metrics inc_failedOperations ;;
       updateMetrics ;;
       now <- JS.Date_now ;;
       on_logger (Logger.error ("Operation failed: " ++ operationName)%string) ;;
       this <- JS.get ;;
       if enableSelfHealing (config this) then
         healingResult <- attemptSelfHealing error operationName ;;
         if success healingResult then JS.ret healingResult
         else JS.throw error
       else JS.throw error).

(** [execute] as the event loop runs it, in two stretches.  The first
    runs up to [await Promise.resolve(operation())]: the call is counted
    and logged and the operation is started.  The call is then in
    flight: other code, other calls of [execute] among it, runs before
    the second stretch, which resumes with what the awaited promise has
    settled with.  Neither stretch has a further gap: the [await] in the
    [catch] block comes after [attemptSelfHealing], which has no [await],
    has run, and nothing is changed after it.  An operation that throws
    before it returns a promise leaves no gap at all: the [catch] block
    runs within the first stretch. *)
Definition execute_untilAwait (operationName : string) : M t Z :=
  startTime_ <- JS.Date_now ;;
  update_metrics inc_totalOperations ;;
  on_logger (Logger.info ("Executing operation: " ++ operationName)%string) ;;
  JS.ret startTime_.

Definition execute_fromAwait (startTime_ : Z) (settled : Completion JsValue)
    (operationName : string) : M t OperationResult :=
  JS.try_catch
    (result <- JS.await settled ;;
     enhancements_ <- applyEnhancements operationName result ;;
     recommendations_ <- generateRecommendations operationName result ;;
     update_metrics inc_successfulOperations ;;
     (if 0 <? Z.of_nat (length enhancements_)
      then update_metrics inc_enhancedOperations
      else JS.ret tt) ;;
     updateMetrics ;;
     now <- JS.Date_now ;;
     let executionTime_ := now - startTime_ in
     operationResult <- createSuccessResult result enhancements_ recommendations_ ;;
     let operationResult := set_executionTime executionTime_ operationResult in
     on_logger (Logger.info ("Operation completed: " ++ operationName)%string) ;;
     JS.ret operationResult)
    (fun error =>
       update_metrics inc_failedOperations ;;
       updateMetrics ;;
       now <- JS.Date_now ;;
       on_logger (Logger.error ("Operation failed: " ++ operationName)%string) ;;
       this <- JS.get ;;
       if enableSelfHealing (config this) then
         healingResult <- attemptSelfHealing error operationName ;;
         if success healingResult then JS.ret healingResult
         else JS.throw error
       else JS.throw error).

Definition getHealthCheck : M t HealthCheck :=
  updateMetrics ;;
  this <- JS.get ;;
  let totalOps := Number.orDefault (totalOperations (metrics this)) 1 in
  let successRate_ :=
    Number.mul (Number.div (Number.ofZ (successfulOperations (metrics this)))
                           (Number.ofZ totalOps))
               (Number.ofZ 100) in
  let enhancementRate_ :=
    Number.mul (Number.div (Number.ofZ (enhancedOperations (metrics this)))
                           (Number.ofZ totalOps))
               (Number.ofZ 100) in
  let healthy_ :=
    (Number.geb successRate_ (Number.ofZ 80) && (0 <? uptime (metrics this)))%bool in
  timestamp <- JS.Date_now ;;
  JS.ret {| healthy := healthy_;
            hc_status := if healthy_ then "healthy" else "degraded";
            hc_timestamp := timestamp;
            hc_metrics := {| hm_uptime := uptime (metrics this);
                             enhancementRate := enhancementRate_;
                             successRate := successRate_;
                             averageExecutionTime := 0 |};
            issues := if healthy_ then None
                      else Some ["Success rate below threshold"] |}.

Definition getMetrics : M t SystemMetrics :=
  updateMetrics ;;
  JS.gets metrics.

Definition getEnhancements : M t (list Enhancement) :=
  on_enhancementTracker EnhancementTracker.getEnhancements.

Definition getRecommendations : M t (list Recommendation) :=
  on_recommendationEngine RecommendationEngine.getRecommendations.

Definition getTopRecommendations (limit : option Z) : M t (list Recommendation) :=
  on_recommendationEngine
    (RecommendationEngine.getTopRecommendations (Some (default 10 limit))).

Definition getConfig : M t ProtocolConfig := JS.gets config.
End Protocol110System.

(* ===================================================================== *)
(** * self-healing.ts *)
(* ===================================================================== *)

Record HealingStrategy : Type := mkHealingStrategy {
  hs_id : string;
  hs_name : string;
  hs_description : string;
  hs_priority : Priority;
  (** [errorPattern.test]: the patterns carry no [g] or [y] flag, so the
      test does not depend on earlier tests. *)
  errorPattern : string -> bool;
  (** The action is code of the caller: it runs on the runtime, where
      whatever it does leaves its mark (the clock and the random source
      it has read, the time it has waited), and the promise it returns
      settles with a boolean or rejects. *)
  healingAction : Runtime -> Completion bool * Runtime
}.

Record HealingAttempt : Type := mkHealingAttempt {
  ha_id : string;
  ha_timestamp : Z;
  errorType : string;
  strategyUsed : string;
  ha_success : bool;
  recoveryTime : Z
}.

Module SelfHealingSystem.
Record t : Type := mk {
  strategies : list HealingStrategy;
  healingHistory : list HealingAttempt
}.

(** [const priorityOrder = { critical: 0, high: 1, medium: 2, low: 3 }] *)
Definition priorityOrder (p : Priority) : Z :=
  match p with
  | CRITICAL => 0
  | HIGH => 1
  | MEDIUM => 2
  | LOW => 3
  end.

Definition byPriority (a b : HealingStrategy) : Z :=
  priorityOrder (hs_priority a) - priorityOrder (hs_priority b).

Definition registerStrategy (strategy : HealingStrategy) : M t unit :=
  JS.modify (fun this => mk (Array.push strategy (strategies this)) (healingHistory this)) ;;
  JS.modify (fun this => mk (Array.sort byPriority (strategies this)) (healingHistory this)).

(** The built-in strategies.  Their actions wait on a timer and then
    resolve to [true]; the elapsed time shows in the clock readings. *)
Definition networkRetry : HealingStrategy :=
  {| hs_id := "network-retry";
     hs_name := "Network Retry";
     hs_description := "Retry operations that failed due to network issues";
     hs_priority := HIGH;
     errorPattern := testIgnoreCase ["network"; "timeout"; "ECONNREFUSED"; "ETIMEDOUT"];
     healingAction := fun rt => (Normal true, rt) |}.

Definition resourceCleanup : HealingStrategy :=
  {| hs_id := "resource-cleanup";
     hs_name := "Resource Cleanup";
     hs_description := "Clean up resources and retry";
     hs_priority := HIGH;
     errorPattern := testIgnoreCase ["memory"; "ENOMEM"; "EMFILE"; "too many"];
     healingAction := fun rt => (Normal true, rt) |}.

Definition rateLimitBackoff : HealingStrategy :=
  {| hs_id := "rate-limit-backoff";
     hs_name := "Rate Limit Backoff";
     hs_description := "Wait and retry when rate limited";
     hs_priority := MEDIUM;
     errorPattern := testIgnoreCase ["rate limit"; "429"; "too many requests"];
     healingAction := fun rt => (Normal true, rt) |}.

Definition initializeDefaultStrategies : M t unit :=
  registerStrategy networkRetry ;;
  registerStrategy resourceCleanup ;;
  registerStrategy rateLimitBackoff.

(** [new SelfHealingSystem()] *)
Definition new (rt : Runtime) : Runtime * t :=
  snd (initializeDefaultStrategies (rt, mk [] [])).

Definition recordAttempt (errorType_ strategyUsed_ : string) (success_ : bool)
    (recoveryTime_ : Z) : M t unit :=
  now <- JS.Date_now ;;
  random <- JS.Math_random36 ;;
  timestamp <- JS.Date_now ;;
  JS.modify (fun this =>
    mk (strategies this)
       (Array.push
          {| ha_id := ("healing-" ++ pretty now ++ "-" ++ random)%string;
             ha_timestamp := timestamp;
             errorType := errorType_;
             strategyUsed := strategyUsed_;
             ha_success := success_;
             recoveryTime := recoveryTime_ |}
          (healingHistory this))) ;;
  this <- JS.get ;;
  if 100 <? Z.of_nat (length (healingHistory this))
  then JS.modify (fun this => mk (strategies this) (Array.shift (healingHistory this)))
  else JS.ret tt.

(** [error.message || String(error)] *)
Definition errorMessageOf (error : JsError) : string :=
  if String.eqb (err_message error) "" then String_of_error error
  else err_message error.

Definition heal (error : JsError) : M t bool :=
  startTime <- JS.Date_now ;;
  let errorMessage := errorMessageOf error in
  this <- JS.get ;;
  match Array.find (fun s => errorPattern s errorMessage) (strategies this) with
  | None =>
      now <- JS.Date_now ;;
      recordAttempt errorMessage "none" false (now - startTime) ;;
      JS.ret false
  | Some strategy =>
      JS.try_catch
        (success_ <- JS.await_call (healingAction strategy) ;;
         now <- JS.Date_now ;;
         let recoveryTime_ := now - startTime in
         recordAttempt errorMessage (hs_name strategy) success_ recoveryTime_ ;;
         JS.ret success_)
        (fun _ =>
           now <- JS.Date_now ;;
           recordAttempt errorMessage (hs_name strategy) false (now - startTime) ;;
           JS.ret false)
  end.

Definition getHistory : M t (list HealingAttempt) := JS.gets healingHistory.

Definition getSuccessRate : M t spec_float :=
  JS.gets (fun this =>
    if Z.of_nat (length (healingHistory this)) =? 0 then Number.ofZ 0
    else
      let successful := length (List.filter ha_success (healingHistory this)) in
      Number.mul
        (Number.div (Number.ofZ (Z.of_nat successful))
                    (Number.ofZ (Z.of_nat (length (healingHistory this)))))
        (Number.ofZ 100)).

Definition getStrategies : M t (list HealingStrategy) := JS.gets strategies.
End SelfHealingSystem.

(* ===================================================================== *)
(** * self-learning.ts *)
(* ===================================================================== *)

Record LearningPattern : Type := mkLearningPattern {
  lp_id : string;
  lp_pattern : string;
  frequency : Z;
  lp_successRate : spec_float;
  lastSeen : Z;
  lp_metadata : option (list (string * JsValue))
}.

(** [{ ...a, ...b }] on optional records: the keys of [a] keep their
    place, those of [b] overwrite or are appended.  The list serves to
    look properties up by name, which is all the code does with such an
    object; it is in order of creation, and does not give the order in
    which JavaScript enumerates the keys (integer-like keys first). *)
Fixpoint assignProperty (k : string) (v : JsValue) (o : list (string * JsValue))
    : list (string * JsValue) :=
  match o with
  | [] => [(k, v)]
  | (k', v') :: o' =>
      if String.eqb k k' then (k', v) :: o' else (k', v') :: assignProperty k v o'
  end.

Definition spread (a b : option (list (string * JsValue))) : list (string * JsValue) :=
  fold_left (fun o kv => assignProperty (fst kv) (snd kv) o)
            (default [] b) (fold_left (fun o kv => assignProperty (fst kv) (snd kv) o)
                                      (default [] a) []).

Module SelfLearningSystem.
(** The [Map] of patterns is read and written by key only in
    [recordPattern]; its iteration order plays no part there. *)
Record t : Type := mk {
  patterns : gmap string LearningPattern
}.

Definition new : t := mk ∅.

Definition recordPattern (pattern : string) (success_ : bool)
    (metadata_ : option (list (string * JsValue))) : M t LearningPattern :=
  this <- JS.get ;;
  match patterns this !! pattern with
  | Some existing =>
      let totalOccurrences := frequency existing + 1 in
      let successCount :=
        Number.add (Number.mul (lp_successRate existing) (Number.ofZ (frequency existing)))
                   (Number.ofZ (if success_ then 1 else 0)) in
      date <- JS.Date_now ;;
      let existing' :=
        {| lp_id := lp_id existing;
           lp_pattern := lp_pattern existing;
           frequency := totalOccurrences;
           lp_successRate := Number.div successCount (Number.ofZ totalOccurrences);
           lastSeen := date;
           lp_metadata := Some (spread (lp_metadata existing) metadata_) |} in
      JS.modify (fun this => mk (<[pattern := existing']> (patterns this))) ;;
      JS.ret existing'
  | None =>
      now <- JS.Date_now ;;
      random <- JS.Math_random36 ;;
      date <- JS.Date_now ;;
      let newPattern :=
        {| lp_id := ("pattern-" ++ pretty now ++ "-" ++ random)%string;
           lp_pattern := pattern;
           frequency := 1;
           lp_successRate := Number.ofZ (if success_ then 1 else 0);
           lastSeen := date;
           lp_metadata := metadata_ |} in
      JS.modify (fun this => mk (<[pattern := newPattern]> (patterns this))) ;;
      JS.ret newPattern
  end.

Definition clear : M t unit := JS.modify (fun _ => mk ∅).
End SelfLearningSystem.

(* ===================================================================== *)
(** * api.ts *)
(* ===================================================================== *)

Record ApiResponse (A : Type) : Type := mkApiResponse {
  api_success : bool;
  api_data : option A;
  api_error : option string;
  api_timestamp : Z
}.
Arguments mkApiResponse {A}.
Arguments api_success {A}.
Arguments api_data {A}.
Arguments api_error {A}.
Arguments api_timestamp {A}.

Module ProtocolApiController.
Record t : Type := mk { protocol : Protocol110System.t }.

Definition on_protocol {A} (m : M Protocol110System.t A) : M t A :=
  JS.zoom protocol (fun p _ => mk p) m.

(** The shape shared by the endpoints: the value in a success envelope,
    a thrown error as its text in a failure envelope. *)
Definition envelope {A} (body : M t A) : M t (ApiResponse A) :=
  JS.try_catch
    (value <- body ;;
     timestamp <- JS.Date_now ;;
     JS.ret (mkApiResponse true (Some value) None timestamp))
    (fun error =>
       text <- JS.await (String_of error) ;;
       timestamp <- JS.Date_now ;;
       JS.ret (mkApiResponse false None (Some text) timestamp)).

Definition healthCheck : M t (ApiResponse HealthCheck) :=
  envelope (on_protocol Protocol110System.getHealthCheck).

Definition getMetrics : M t (ApiResponse SystemMetrics) :=
  envelope (on_protocol Protocol110System.getMetrics).

Definition getEnhancements : M t (ApiResponse (list Enhancement)) :=
  envelope (on_protocol Protocol110System.getEnhancements).

(** A number is truthy unless it is [0]; an absent argument is
    [undefined]. *)
Definition truthy (limit : option Z) : bool :=
  match limit with
  | Some n => negb (n =? 0)
  | None => false
  end.

Definition getRecommendations (limit : option Z) : M t (ApiResponse (list Recommendation)) :=
  JS.try_catch
    (recommendations_ <-
       (if truthy limit
        then on_protocol (Protocol110System.getTopRecommendations limit)
        else on_protocol Protocol110System.getRecommendations) ;;
     timestamp <- JS.Date_now ;;
     JS.ret (mkApiResponse true (Some recommendations_) None timestamp))
    (fun error =>
       text <- JS.await (String_of error) ;;
       timestamp <- JS.Date_now ;;
       JS.ret (mkApiResponse false None (Some text) timestamp)).

Definition executeOperation (operation : string) (params : JsValue)
    : M t (ApiResponse OperationResult) :=
  envelope
    (on_protocol
       (Protocol110System.execute
          (fun _ => Normal (JObj [("operation", JStr operation); ("params", params)]))
          operation)).

Definition getConfig : M t (ApiResponse ProtocolConfig) :=
  envelope (on_protocol Protocol110System.getConfig).
End ProtocolApiController.

(* ===================================================================== *)
(** * Sequences of calls *)
(* ===================================================================== *)

(** A runtime to run examples on: the clock advances by one millisecond
    per reading. *)
Definition sampleRuntime : Runtime :=
  {| rt_now := fun n => 1700000000000 + Z.of_nat n;
     rt_uuid := fun n => ("uuid-" ++ pretty n)%string;
     rt_random := fun n => ("r" ++ pretty n)%string;
     rt_step := 0 |}.

(** [await protocol.execute(op1, name1); await protocol.execute(op2, name2); ...]
    whatever each call returns or throws. *)
Definition executeAll (calls : list ((unit -> Completion JsValue) * string))
    (w : Runtime * Protocol110System.t) : Runtime * Protocol110System.t :=
  fold_left (fun w call => snd (Protocol110System.execute (fst call) (snd call) w)) calls w.





(** Calls on a healing engine: [engine.registerStrategy(s)] and
    [await engine.heal(e)], in any order. *)
Inductive EngineCall : Type :=
| Register (strategy : HealingStrategy)
| Heal (error : JsError).

Definition runEngine (calls : list EngineCall)
    (w : Runtime * SelfHealingSystem.t) : Runtime * SelfHealingSystem.t :=
  fold_left
    (fun w call =>
       match call with
       | Register strategy => snd (SelfHealingSystem.registerStrategy strategy w)
       | Heal error => snd (SelfHealingSystem.heal error w)
       end)
    calls w.

(** The history once [recordAttempt] has pushed an attempt: the oldest
    entry goes when there are more than 100. *)
Definition keepLast100 (history : list HealingAttempt) : list HealingAttempt :=
  if 100 <? Z.of_nat (length history) then Array.shift history else history.

(** [await engine.heal(e1); await engine.heal(e2); ...] *)
Definition healAll (errors : list JsError)
    (w : Runtime * SelfHealingSystem.t) : Runtime * SelfHealingSystem.t :=
  fold_left (fun w e => snd (SelfHealingSystem.heal e w)) errors w.

(** The attempt each of these calls leaves at the end of the history, in
    the order of the calls. *)
Fixpoint healTrace (errors : list JsError) (w : Runtime * SelfHealingSystem.t)
    : list HealingAttempt :=
  match errors with
  | [] => []
  | e :: errors' =>
      let w' := snd (SelfHealingSystem.heal e w) in
      option_list (last (SelfHealingSystem.healingHistory (snd w')))
        ++ healTrace errors' w'
  end.

(** [learner.recordPattern(p1, s1, m1); learner.recordPattern(p2, s2, m2); ...] *)
Definition recordAll (calls : list (string * bool * option (list (string * JsValue))))
    (w : Runtime * SelfLearningSystem.t) : Runtime * SelfLearningSystem.t :=
  fold_left
    (fun w call =>
       snd (SelfLearningSystem.recordPattern (fst (fst call)) (snd (fst call)) (snd call) w))
    calls w.

(** The outcomes observed for one pattern name among such calls. *)
Definition observations (name : string)
    (calls : list (string * bool * option (list (string * JsValue)))) : list bool :=
  map (fun call => snd (fst call))
      (List.filter (fun call => String.eqb (fst (fst call)) name) calls).

Definition successes (obs : list bool) : Z :=
  Z.of_nat (length (List.filter (fun s => s) obs)).

(** The fraction of successful observations as JavaScript computes it
    from the two counts: the double nearest to the quotient. *)
Definition fractionOf (obs : list bool) : spec_float :=
  Number.div (Number.ofZ (successes obs)) (Number.ofZ (Z.of_nat (length obs))).

(** The running average in the words of the specification: [1] or [0] for
    the first observation, then
    [(oldSuccessRate * oldFrequency + (success ? 1 : 0)) / newFrequency]. *)
Definition averageStep (acc : spec_float * Z) (s : bool) : spec_float * Z :=
  (Number.div (Number.add (Number.mul (fst acc) (Number.ofZ (snd acc)))
                          (Number.ofZ (if s then 1 else 0)))
              (Number.ofZ (snd acc + 1)),
   snd acc + 1).

Definition runningAverage (first : bool) (rest : list bool) : spec_float * Z :=
  fold_left averageStep rest (Number.ofZ (if first then 1 else 0), 1).

(** Stability of a rearrangement with respect to a key: elements with
    equal keys keep their relative order. *)
Definition stableFor {A} (key : A -> Z) (sorted original : list A) : Prop :=
  forall v, List.filter (fun a => key a =? v) sorted
            = List.filter (fun a => key a =? v) original.

(** The order of the priorities of two strategies. *)
Definition byRank (a b : HealingStrategy) : Prop :=
  SelfHealingSystem.priorityOrder (hs_priority a)
  <= SelfHealingSystem.priorityOrder (hs_priority b).

(** The ranking of the priorities in the words of the specification:
    "CRITICAL, HIGH, MEDIUM, LOW (ranked in that order, CRITICAL
    highest)".  [outranks p q] says that [p] comes before [q] in it. *)
Definition outranks (p q : Priority) : bool :=
  match p, q with
  | CRITICAL, (HIGH | MEDIUM | LOW) => true
  | HIGH, (MEDIUM | LOW) => true
  | MEDIUM, LOW => true
  | _, _ => false
  end.

(** An array of strategies in priority order: no strategy outranks one
    that stands before it. *)
Definition inPriorityOrder (strategies : list HealingStrategy) : Prop :=
  StronglySorted (fun a b => outranks (hs_priority b) (hs_priority a) = false) strategies.

(** The runtime after [n] readings of the clock or of the random
    source. *)
Definition rt_ticks (n : nat) (rt : Runtime) : Runtime := Nat.iter n rt_tick rt.

(** Two strategies to run examples on.  Both accept every text; the
    action of the first reads the clock once and reports failure, the
    action of the second reads it three times and reports success. *)
Definition sampleEscalate : HealingStrategy :=
  {| hs_id := "escalate";
     hs_name := "Escalate";
     hs_description := "Hand the error to an operator";
     hs_priority := CRITICAL;
     errorPattern := fun _ => true;
     healingAction := fun rt => (Normal false, rt_tick rt) |}.

Definition sampleFallback : HealingStrategy :=
  {| hs_id := "fallback";
     hs_name := "Fallback";
     hs_description := "Wait and hope";
     hs_priority := LOW;
     errorPattern := fun _ => true;
     healingAction := fun rt => (Normal true, rt_ticks 3 rt) |}.

(** One step of the running average from the exact quotient of [k]
    successes in [n] observations gives the exact quotient again. *)
Definition averageStepExact (n k : nat) (s : bool) : bool :=
  bool_decide
    (fst (averageStep
            (Number.div (Number.ofZ (Z.of_nat k)) (Number.ofZ (Z.of_nat n)),
             Z.of_nat n) s)
     = Number.div (Number.ofZ (Z.of_nat k + (if s then 1 else 0)))
                  (Number.ofZ (Z.of_nat n + 1))).

(** [o[k]] on an object given by its own properties. *)
Fixpoint getProperty (k : string) (o : list (string * JsValue)) : option JsValue :=
  match o with
  | [] => None
  | (k', v) :: o' => if String.eqb k k' then Some v else getProperty k o'
  end.

(** The property names of an object, which are distinct. *)
Definition ownKeys (o : option (list (string * JsValue))) : list string :=
  map fst (default [] o).

(** [(k / n) * 100], the percentage [getSuccessRate] computes from [k]
    successful attempts among [n]. *)
Definition percentage (k n : Z) : spec_float :=
  Number.mul (Number.div (Number.ofZ k) (Number.ofZ n)) (Number.ofZ 100).

(** For [k] successes among [n] attempts the percentage lies between 0
    and 100, and it is 0 or 100 only when none or all succeeded. *)
Definition percentageInRange (n k : nat) : bool :=
  let p := percentage (Z.of_nat k) (Z.of_nat n) in
  Number.geb p (Number.ofZ 0) && Number.geb (Number.ofZ 100) p
  && bool_decide (p = Number.ofZ 0 <-> k = 0%nat)
  && bool_decide (p = Number.ofZ 100 <-> k = n).

(** The number of entries of a list satisfying a test. *)
Definition countIf {A} (p : A -> bool) (l : list A) : Z :=
  Z.of_nat (length (List.filter p l)).

(** Two states of the orchestrator that differ at most in the log and in
    the derived metrics ([uptime], [lastUpdate],
    [averageEnhancementLevel]). *)
Definition sameRecords (a b : Protocol110System.t) : Prop :=
  Protocol110System.config a = Protocol110System.config b
  /\ Protocol110System.enhancementTracker a = Protocol110System.enhancementTracker b
  /\ Protocol110System.recommendationEngine a = Protocol110System.recommendationEngine b
  /\ Protocol110System.startTime a = Protocol110System.startTime b
  /\ totalOperations (Protocol110System.metrics a)
     = totalOperations (Protocol110System.metrics b)
  /\ successfulOperations (Protocol110System.metrics a)
     = successfulOperations (Protocol110System.metrics b)
  /\ failedOperations (Protocol110System.metrics a)
     = failedOperations (Protocol110System.metrics b)
  /\ enhancedOperations (Protocol110System.metrics a)
     = enhancedOperations (Protocol110System.metrics b)
  /\ totalRecommendations (Protocol110System.metrics a)
     = totalRecommendations (Protocol110System.metrics b)
  /\ implementedRecommendations (Protocol110System.metrics a)
     = implementedRecommendations (Protocol110System.metrics b).

(** A clock that never runs backwards. *)
Definition monotoneClock (rt : Runtime) : Prop :=
  forall i j : nat, (i <= j)%nat -> rt_now rt i <= rt_now rt j.

(** The two kinds of enhancement [applyEnhancements] creates. *)
Definition enhancementOfExecute (e : Enhancement) : Prop :=
  (enh_impact e = ENHANCED /\ enh_priority e = MEDIUM)
  \/ (enh_impact e = EXCEPTIONAL /\ enh_priority e = LOW).

(** The three kinds of recommendation [generateRecommendations] and
    [attemptSelfHealing] create. *)
Definition recommendationOfExecute (r : Recommendation) : Prop :=
  actionable r = true
  /\ ((rec_title r = "Optimize Performance" /\ rec_priority r = MEDIUM
       /\ estimatedImpact r = 75 /\ rec_category r = "performance")
      \/ (rec_title r = "Enhanced Monitoring" /\ rec_priority r = LOW
          /\ estimatedImpact r = 50 /\ rec_category r = "monitoring")
      \/ (rec_title r = "Self-Healing Action" /\ rec_priority r = HIGH
          /\ estimatedImpact r = 90 /\ rec_category r = "self-healing")).

(* ===================================================================== *)
(** * integrations.ts *)
(* ===================================================================== *)

(** The two adapter classes of the file; [IntegrationAdapter] objects of
    other classes are not modelled. *)
Inductive AdapterClass : Type :=
| HttpAdapterClass (endpoint : string)
| WebSocketAdapterClass (url : string).

(** An adapter object: [name], the class with its private field, and the
    protected field [connected] of [BaseIntegrationAdapter]. *)
Record AdapterObject : Type := mkAdapterObject {
  adapter_name : string;
  adapter_class : AdapterClass;
  connected : bool
}.

Definition set_connected (b : bool) (a : AdapterObject) : AdapterObject :=
  mkAdapterObject (adapter_name a) (adapter_class a) b.

(** Adapters are objects shared between the manager and its callers:
    they live in a store and are handled through references, which are
    positions in the store.  A reference is obtained from a constructor,
    so it is always within the store; on a position outside it the
    methods below find no object, change nothing and answer as for a
    disconnected adapter. *)
Abbreviation AdapterRef := nat (only parsing).

Module IntegrationManager.
(** The [Map] from names to adapters, in insertion order. *)
Record t : Type := mk { adapters : list (string * AdapterRef) }.
End IntegrationManager.

Record Integrations : Type := mkIntegrations {
  objects : list AdapterObject;
  manager : IntegrationManager.t
}.

Definition set_objects (o : list AdapterObject) (w : Integrations) : Integrations :=
  mkIntegrations o (manager w).
Definition set_manager (m : IntegrationManager.t) (w : Integrations) : Integrations :=
  mkIntegrations (objects w) m.

(** [new IntegrationManager()] with no adapter constructed yet. *)
Definition newIntegrations : Integrations :=
  mkIntegrations [] (IntegrationManager.mk []).

Module BaseIntegrationAdapter.
Definition construct (name : string) (class : AdapterClass) : M Integrations AdapterRef :=
  this <- JS.get ;;
  JS.modify (set_objects (Array.push (mkAdapterObject name class false) (objects this))) ;;
  JS.ret (length (objects this)).

Definition isConnected (a : AdapterRef) : M Integrations bool :=
  JS.gets (fun w => from_option connected false (objects w !! a)).

Definition name (a : AdapterRef) : M Integrations string :=
  JS.gets (fun w => from_option adapter_name "" (objects w !! a)).
End BaseIntegrationAdapter.

Module HttpIntegrationAdapter.
Definition new (name endpoint : string) : M Integrations AdapterRef :=
  BaseIntegrationAdapter.construct name (HttpAdapterClass endpoint).

Definition connect (a : AdapterRef) : M Integrations bool :=
  JS.modify (fun w => set_objects (alter (set_connected true) a (objects w)) w) ;;
  JS.ret true.

Definition disconnect (a : AdapterRef) : M Integrations bool :=
  JS.modify (fun w => set_objects (alter (set_connected false) a (objects w)) w) ;;
  JS.ret true.

Definition send (a : AdapterRef) (_data : JsValue) : M Integrations bool :=
  isConnected <- BaseIntegrationAdapter.isConnected a ;;
  if negb isConnected then JS.throw (Error "Not connected")
  else JS.ret true.

Definition receive (a : AdapterRef) : M Integrations JsValue :=
  isConnected <- BaseIntegrationAdapter.isConnected a ;;
  if negb isConnected then JS.throw (Error "Not connected")
  else JS.ret (JObj []).
End HttpIntegrationAdapter.

Module WebSocketIntegrationAdapter.
Definition new (name url : string) : M Integrations AdapterRef :=
  BaseIntegrationAdapter.construct name (WebSocketAdapterClass url).

Definition connect (a : AdapterRef) : M Integrations bool :=
  JS.modify (fun w => set_objects (alter (set_connected true) a (objects w)) w) ;;
  JS.ret true.

Definition disconnect (a : AdapterRef) : M Integrations bool :=
  JS.modify (fun w => set_objects (alter (set_connected false) a (objects w)) w) ;;
  JS.ret true.

Definition send (a : AdapterRef) (_data : JsValue) : M Integrations bool :=
  isConnected <- BaseIntegrationAdapter.isConnected a ;;
  if negb isConnected then JS.throw (Error "Not connected")
  else JS.ret true.

Definition receive (a : AdapterRef) : M Integrations JsValue :=
  isConnected <- BaseIntegrationAdapter.isConnected a ;;
  if negb isConnected then JS.throw (Error "Not connected")
  else JS.ret (JObj []).
End WebSocketIntegrationAdapter.

(** The method a call [adapter.m(...)] reaches, by the class of the
    object. *)
Module IntegrationAdapter.
Definition classOf (a : AdapterRef) (w : Integrations) : option AdapterClass :=
  adapter_class <$> objects w !! a.

Definition connect (a : AdapterRef) : M Integrations bool :=
  fun w => match classOf a (snd w) with
           | Some (WebSocketAdapterClass _) => WebSocketIntegrationAdapter.connect a w
           | _ => HttpIntegrationAdapter.connect a w
           end.

Definition disconnect (a : AdapterRef) : M Integrations bool :=
  fun w => match classOf a (snd w) with
           | Some (WebSocketAdapterClass _) => WebSocketIntegrationAdapter.disconnect a w
           | _ => HttpIntegrationAdapter.disconnect a w
           end.

Definition send (a : AdapterRef) (data_ : JsValue) : M Integrations bool :=
  fun w => match classOf a (snd w) with
           | Some (WebSocketAdapterClass _) => WebSocketIntegrationAdapter.send a data_ w
           | _ => HttpIntegrationAdapter.send a data_ w
           end.

Definition receive (a : AdapterRef) : M Integrations JsValue :=
  fun w => match classOf a (snd w) with
           | Some (WebSocketAdapterClass _) => WebSocketIntegrationAdapter.receive a w
           | _ => HttpIntegrationAdapter.receive a w
           end.
End IntegrationAdapter.

(** [map.set(k, v)]: an existing key keeps its place. *)
Fixpoint Map_set {V} (k : string) (v : V) (m : list (string * V)) : list (string * V) :=
  match m with
  | [] => [(k, v)]
  | (k', v') :: m' =>
      if String.eqb k k' then (k', v) :: m' else (k', v') :: Map_set k v m'
  end.

(** [map.get(k)] *)
Fixpoint Map_get {V} (k : string) (m : list (string * V)) : option V :=
  match m with
  | [] => None
  | (k', v) :: m' => if String.eqb k k' then Some v else Map_get k m'
  end.

(** [Array.from(map.values())] *)
Definition Map_values {V} (m : list (string * V)) : list V := map snd m.

(** [arr.map(call)] for calls that return promises: every call is made,
    in order, whether or not an earlier one has thrown. *)
Fixpoint callEach {St A} (calls : list (M St A)) : M St (list (Completion A)) :=
  match calls with
  | [] => JS.ret []
  | call :: calls' =>
      fun w => match call w with
               | (c, w') => match callEach calls' w' with
                            | (Normal cs, w'') => (Normal (c :: cs), w'')
                            | (Abrupt e, w'') => (Abrupt e, w'')
                            end
               end
  end.

(** [await Promise.all(promises)] on settled promises: all the values,
    or the first rejection. *)
Fixpoint Promise_all {A} (promises : list (Completion A)) : Completion (list A) :=
  match promises with
  | [] => Normal []
  | Normal a :: promises' =>
      match Promise_all promises' with
      | Normal rest => Normal (a :: rest)
      | Abrupt e => Abrupt e
      end
  | Abrupt e :: _ => Abrupt e
  end.

Module IntegrationManagerMethods.
Definition update (f : list (string * AdapterRef) -> list (string * AdapterRef))
    : M Integrations unit :=
  JS.modify (fun w =>
    set_manager (IntegrationManager.mk (f (IntegrationManager.adapters (manager w)))) w).

Definition registerAdapter (adapter : AdapterRef) : M Integrations unit :=
  name <- BaseIntegrationAdapter.name adapter ;;
  update (Map_set name adapter).

Definition getAdapter (name : string) : M Integrations (option AdapterRef) :=
  JS.gets (fun w => Map_get name (IntegrationManager.adapters (manager w))).

Definition connectAll : M Integrations bool :=
  this <- JS.get ;;
  promises <- callEach (map IntegrationAdapter.connect
                          (Map_values (IntegrationManager.adapters (manager this)))) ;;
  results <- JS.await (Promise_all promises) ;;
  JS.ret (forallb (fun r => r) results).

Definition disconnectAll : M Integrations bool :=
  this <- JS.get ;;
  promises <- callEach (map IntegrationAdapter.disconnect
                          (Map_values (IntegrationManager.adapters (manager this)))) ;;
  results <- JS.await (Promise_all promises) ;;
  JS.ret (forallb (fun r => r) results).

Definition getAdapters : M Integrations (list AdapterRef) :=
  JS.gets (fun w => Map_values (IntegrationManager.adapters (manager w))).

Definition getConnectedAdapters : M Integrations (list AdapterRef) :=
  JS.gets (fun w =>
    List.filter (fun a => from_option connected false (objects w !! a))
      (Map_values (IntegrationManager.adapters (manager w)))).
End IntegrationManagerMethods.

(** What a program does with adapters and the manager, one call after
    the other; a call that throws leaves the rest to run, as in a program
    that catches it. *)
Inductive IntegrationCall : Type :=
| NewHttp (name endpoint : string)
| NewWebSocket (name url : string)
| Connect (a : AdapterRef)
| Disconnect (a : AdapterRef)
| Send (a : AdapterRef) (payload : JsValue)
| Receive (a : AdapterRef)
| RegisterAdapter (a : AdapterRef)
| ConnectAll
| DisconnectAll.

Definition runIntegrationCall (call : IntegrationCall)
    (w : Runtime * Integrations) : Runtime * Integrations :=
  match call with
  | NewHttp name endpoint => snd (HttpIntegrationAdapter.new name endpoint w)
  | NewWebSocket name url => snd (WebSocketIntegrationAdapter.new name url w)
  | Connect a => snd (IntegrationAdapter.connect a w)
  | Disconnect a => snd (IntegrationAdapter.disconnect a w)
  | Send a payload => snd (IntegrationAdapter.send a payload w)
  | Receive a => snd (IntegrationAdapter.receive a w)
  | RegisterAdapter a => snd (IntegrationManagerMethods.registerAdapter a w)
  | ConnectAll => snd (IntegrationManagerMethods.connectAll w)
  | DisconnectAll => snd (IntegrationManagerMethods.disconnectAll w)
  end.

(** The references a call mentions exist. *)
Definition callInRange (call : IntegrationCall) (w : Runtime * Integrations) : bool :=
  match call with
  | Connect a | Disconnect a | Send a _ | Receive a | RegisterAdapter a =>
      Nat.ltb a (length (objects (snd w)))
  | _ => true
  end.

(** A program, in which a call on a reference that does not exist yet is
    not made. *)
Definition runIntegrations (calls : list IntegrationCall)
    (w : Runtime * Integrations) : Runtime * Integrations :=
  fold_left (fun w call => if callInRange call w then runIntegrationCall call w else w)
            calls w.

(** Whether the last of the [connect] and [disconnect] calls made on an
    adapter, directly or through the manager, was a [connect]. *)
Definition connectedAfter (a : AdapterRef) (call : IntegrationCall)
    (w : Runtime * Integrations) (before : bool) : bool :=
  let registered :=
    bool_decide (a ∈ Map_values (IntegrationManager.adapters (manager (snd w)))) in
  match call with
  | Connect b => if Nat.eqb a b then true else before
  | Disconnect b => if Nat.eqb a b then false else before
  | ConnectAll => if registered then true else before
  | DisconnectAll => if registered then false else before
  | _ => before
  end.

(** The manager holds every name once, and under each name an adapter
    that exists and bears that name. *)
Definition registryWellFormed (w : Integrations) : Prop :=
  NoDup (map fst (IntegrationManager.adapters (manager w))) /\
  forall n a, (n, a) ∈ IntegrationManager.adapters (manager w) ->
    exists o, objects w !! a = Some o /\ adapter_name o = n.

(* ===================================================================== *)
(** * Properties *)
(* ===================================================================== *)

(** ** Arrays: sorting by a key *)

Section SortByKey.
Context {A : Type} (key : A -> Z) (compareFn : A -> A -> Z).
Hypothesis compareFn_key : forall a b, compareFn a b = key a - key b.

Let ordered (a b : A) : Prop := key a <= key b.

Lemma insert_sorted_Permutation x arr :
  Permutation (Array.insert_sorted compareFn x arr) (x :: arr).
Proof.
  induction arr as [|y arr IH]; simpl; [reflexivity|].
  destruct (compareFn x y <=? 0); [reflexivity|].
  rewrite IH. apply perm_swap.
Qed.

Lemma sort_Permutation arr : Permutation (Array.sort compareFn arr) arr.
Proof.
  induction arr as [|x arr IH]; simpl; [reflexivity|].
  rewrite insert_sorted_Permutation. by constructor.
Qed.

Lemma insert_sorted_StronglySorted x arr :
  StronglySorted ordered arr ->
  StronglySorted ordered (Array.insert_sorted compareFn x arr).
Proof.
  induction 1 as [|y arr Hsorted IH Hy]; simpl.
  - repeat constructor.
  - destruct (Z.leb_spec (compareFn x y) 0) as [Hle|Hgt];
      rewrite compareFn_key in *.
    + constructor; [by constructor|].
      constructor; [unfold ordered; lia|].
      eapply Forall_impl; [exact Hy|]. unfold ordered. intros; simpl in *; lia.
    + constructor; [exact IH|].
      rewrite insert_sorted_Permutation.
      constructor; [unfold ordered; lia | exact Hy].
Qed.

Lemma sort_StronglySorted arr : StronglySorted ordered (Array.sort compareFn arr).
Proof.
  induction arr as [|x arr IH]; simpl; [constructor|].
  by apply insert_sorted_StronglySorted.
Qed.

Lemma insert_sorted_filter v x arr :
  List.filter (fun a => key a =? v) (Array.insert_sorted compareFn x arr)
  = List.filter (fun a => key a =? v) (x :: arr).
Proof.
  induction arr as [|y arr IH]; [reflexivity|].
  cbn [Array.insert_sorted].
  destruct (Z.leb_spec (compareFn x y) 0) as [Hle|Hgt]; [reflexivity|].
  rewrite compareFn_key in Hgt.
  cbn [List.filter] in *. rewrite IH.
  destruct (Z.eqb_spec (key x) v), (Z.eqb_spec (key y) v); try reflexivity; lia.
Qed.

Lemma sort_stable arr : stableFor key (Array.sort compareFn arr) arr.
Proof.
  intros v. induction arr as [|x arr IH]; [reflexivity|].
  cbn [Array.sort foldr]. rewrite insert_sorted_filter.
  cbn [List.filter]. fold (Array.sort compareFn arr). by rewrite IH.
Qed.
End SortByKey.

(** ** Numbers: the order on doubles *)

Lemma SFcompare_antisym x y :
  SFcompare y x = option_map CompOpp (SFcompare x y).
Proof.
  destruct x as [[]|[]| |[] mx ex], y as [[]|[]| |[] my ey]; try reflexivity;
    cbn [SFcompare option_map]; f_equal;
    rewrite (Z.compare_antisym ex ey);
    destruct (ex ?= ey); cbn [CompOpp]; try reflexivity.
  all: rewrite (Pos.compare_cont_antisym mx my Eq); cbn [CompOpp]; try reflexivity.
  all: by rewrite CompOpp_involutive.
Qed.

Lemma Number_ltb_not_geb x y : Number.ltb x y = true -> Number.geb x y = false.
Proof.
  unfold Number.ltb, Number.geb, SFltb, SFleb.
  rewrite (SFcompare_antisym x y).
  by destruct (SFcompare x y) as [[]|].
Qed.

(** ** The orchestrator *)

Ltac js_unfold :=
  cbv [outcome fields_after runtime_after
       JS.bind JS.ret JS.throw JS.try_catch JS.await JS.get JS.gets JS.modify
       JS.Date_now JS.randomUUID JS.Math_random36 JS.zoom fst snd negb
       Logger.info Logger.error Logger.entries
       EnhancementTracker.createEnhancement EnhancementTracker.enhancements
       EnhancementTracker.getAverageEnhancementLevel
       RecommendationEngine.createRecommendation
       RecommendationEngine.recommendations
       RecommendationEngine.getRecommendations
       RecommendationEngine.getTopRecommendations
       createSuccessResult
       Protocol110System.execute Protocol110System.execute_untilAwait
       Protocol110System.execute_fromAwait Protocol110System.applyEnhancements
       Protocol110System.generateRecommendations
       Protocol110System.attemptSelfHealing
       Protocol110System.updateMetrics Protocol110System.update_metrics
       Protocol110System.getHealthCheck
       Protocol110System.getRecommendations
       Protocol110System.getTopRecommendations
       Protocol110System.on_enhancementTracker
       Protocol110System.on_recommendationEngine Protocol110System.on_logger
       Protocol110System.set_enhancementTracker
       Protocol110System.set_recommendationEngine
       Protocol110System.set_logger Protocol110System.set_metrics
       Protocol110System.config Protocol110System.enhancementTracker
       Protocol110System.recommendationEngine Protocol110System.logger
       Protocol110System.startTime Protocol110System.metrics
       Protocol110System.set_executionTime
       ProtocolApiController.getRecommendations ProtocolApiController.on_protocol
       ProtocolApiController.protocol].

(** What one call of [execute] does to the three counters, from any
    state. *)
Lemma execute_counters (this : Protocol110System.t) rt operation operationName :
  let m := Protocol110System.metrics this in
  let m' := Protocol110System.metrics
              (fields_after (Protocol110System.execute operation operationName (rt, this))) in
  totalOperations m' = totalOperations m + 1 /\
  match operation tt with
  | Normal _ =>
      successfulOperations m' = successfulOperations m + 1 /\
      failedOperations m' = failedOperations m
  | Abrupt _ =>
      successfulOperations m' = successfulOperations m /\
      failedOperations m' = failedOperations m + 1
  end.
Proof.
  destruct this as [[mel sh sl ci mi mr] tr en lg st m].
  js_unfold.
  destruct (operation tt) as [result|error].
  - destruct ci; [destruct (notNullish result)|]; cbn -[Z.add]; auto.
  - destruct error as [e|[text|]]; destruct sh; cbn -[Z.add]; auto.
Qed.

Lemma execute_config (this : Protocol110System.t) rt operation operationName :
  Protocol110System.config
    (fields_after (Protocol110System.execute operation operationName (rt, this)))
  = Protocol110System.config this.
Proof.
  destruct this as [[mel sh sl ci mi mr] tr en lg st m].
  js_unfold.
  destruct (operation tt) as [result|error].
  - destruct ci; [destruct (notNullish result)|]; reflexivity.
  - destruct error as [e|[text|]]; destruct sh; reflexivity.
Qed.

Lemma executeAll_snoc calls call w :
  executeAll (calls ++ [call]) w
  = snd (Protocol110System.execute (fst call) (snd call) (executeAll calls w)).
Proof. unfold executeAll. by rewrite fold_left_app. Qed.

Lemma executeAll_counters calls c rt :
  let m := Protocol110System.metrics (snd (executeAll calls (Protocol110System.new c rt))) in
  totalOperations m = Z.of_nat (length calls) /\
  totalOperations m = successfulOperations m + failedOperations m.
Proof.
  induction calls as [|call calls IH] using rev_ind.
  - split; reflexivity.
  - rewrite executeAll_snoc, length_app. cbn [length].
    destruct (executeAll calls (Protocol110System.new c rt)) as [rt' this].
    pose proof (execute_counters this rt' (fst call) (snd call)) as [Htotal Hrest].
    cbn [snd] in IH. destruct IH as [IH1 IH2].
    unfold fields_after in *.
    cbv zeta. destruct (fst call tt); lia.
Qed.

Lemma executeAll_config calls c rt :
  Protocol110System.config (snd (executeAll calls (Protocol110System.new c rt)))
  = Protocol110System.resolveConfig c.
Proof.
  induction calls as [|call calls IH] using rev_ind; [reflexivity|].
  rewrite executeAll_snoc.
  destruct (executeAll calls (Protocol110System.new c rt)) as [rt' this].
  pose proof (execute_config this rt' (fst call) (snd call)) as H.
  unfold fields_after in H. by rewrite H.
Qed.

Lemma slice0_nonneg {A} (end_ : Z) (arr : list A) :
  0 <= end_ -> Array.slice0 end_ arr = take (Z.to_nat end_) arr.
Proof.
  intros Hend. unfold Array.slice0.
  destruct (Z.ltb_spec end_ 0) as [|_]; [lia|].
  destruct (Z.le_gt_cases end_ (Z.of_nat (length arr))) as [Hle|Hgt].
  - by rewrite Z.min_l.
  - rewrite Z.min_r, Nat2Z.id by lia.
    rewrite !take_ge; [done | lia | lia].
Qed.

(** Closes a goal made of field equations on the records a method
    returns and stores: the equations on whole records and lists
    determine the witnesses, the others are then read off. *)
Ltac js_fields :=
  repeat match goal with
         | |- _ /\ _ => split
         | |- exists _, _ => eexists
         end;
  unfold Array.push; rewrite <- ?app_assoc;
  try reflexivity; try reflexivity; try reflexivity; reflexivity.

(** The failure path of [execute], from any state: what the caller
    gets. *)
Lemma execute_failure_outcome (this : Protocol110System.t) rt operation operationName error :
  operation tt = Abrupt error ->
  match outcome (Protocol110System.execute operation operationName (rt, this)) with
  | Normal res =>
      enableSelfHealing (Protocol110System.config this) = true /\ success res = true
      /\ exists text, String_of error = Normal text
  | Abrupt thrown =>
      thrown = error
      /\ (enableSelfHealing (Protocol110System.config this) = false
          \/ exists conversionError, String_of error = Abrupt conversionError)
  end.
Proof.
  intros Hthrows.
  destruct this as [[mel sh sl ci mi mr] tr en lg st m].
  js_unfold. rewrite Hthrows.
  destruct error as [e|[text|]]; destruct sh; cbn; eauto 6.
Qed.

(** The success path of [execute], from any state. *)
Lemma execute_success (this : Protocol110System.t) rt operation operationName result :
  operation tt = Normal result ->
  let r := Protocol110System.execute operation operationName (rt, this) in
  let tracker := EnhancementTracker.enhancements
                   (Protocol110System.enhancementTracker this) in
  let tracker' := EnhancementTracker.enhancements
                    (Protocol110System.enhancementTracker (fields_after r)) in
  let ledger := RecommendationEngine.recommendations
                  (Protocol110System.recommendationEngine this) in
  let ledger' := RecommendationEngine.recommendations
                   (Protocol110System.recommendationEngine (fields_after r)) in
  exists res,
    outcome r = Normal res /\ success res = true /\ data res = result /\
    if enableContinuousImprovement (Protocol110System.config this)
    then exists baseline perf monitoring,
        enh_impact baseline = ENHANCED /\ enh_priority baseline = MEDIUM
        /\ enh_description baseline
           = ("Enhanced " ++ operationName ++ " with 110% protocol")%string
        /\ (if notNullish result
            then exists additional,
                enh_impact additional = EXCEPTIONAL /\ enh_priority additional = LOW
                /\ enhancements res = [baseline; additional]
                /\ tracker' = tracker ++ [baseline; additional]
            else enhancements res = [baseline] /\ tracker' = tracker ++ [baseline])
        /\ rec_title perf = "Optimize Performance" /\ rec_priority perf = MEDIUM
        /\ estimatedImpact perf = 75 /\ rec_category perf = "performance"
        /\ rec_title monitoring = "Enhanced Monitoring" /\ rec_priority monitoring = LOW
        /\ estimatedImpact monitoring = 50 /\ rec_category monitoring = "monitoring"
        /\ recommendations res
           = Array.slice0 (maxRecommendations (Protocol110System.config this))
               [perf; monitoring]
        /\ ledger' = ledger ++ [perf; monitoring]
    else enhancements res = [] /\ recommendations res = []
         /\ tracker' = tracker /\ ledger' = ledger.
Proof.
  intros Hreturns.
  destruct this as [[mel sh sl ci mi mr] [tr] [en] lg st m].
  js_unfold. rewrite Hreturns.
  destruct ci; [destruct (notNullish result)|]; cbn; js_fields.
Qed.

(** C1 (as amended).  When the operation throws and [enableSelfHealing] is
    set, [execute] does not consult any healing strategy: it records one
    HIGH-priority "Self-Healing Action" recommendation with
    [estimatedImpact] 90 and attempts to build the synthetic healed
    success result carrying it.  It returns that result unless the
    attempt fails, which it does exactly when the conversion
    [String(error)] of the thrown value throws; when the attempt fails,
    or when [enableSelfHealing] is not set, it rethrows the original
    error (in the latter case it records nothing). *)
Theorem execute_failure_self_healing
    (this : Protocol110System.t) (rt : Runtime)
    (operation : unit -> Completion JsValue) (operationName : string)
    (error : Thrown) (Hthrows : operation tt = Abrupt error) :
  let r := Protocol110System.execute operation operationName (rt, this) in
  let ledger := RecommendationEngine.recommendations
                  (Protocol110System.recommendationEngine this) in
  let ledger' := RecommendationEngine.recommendations
                   (Protocol110System.recommendationEngine (fields_after r)) in
  if enableSelfHealing (Protocol110System.config this)
  then exists recommendation,
      rec_title recommendation = "Self-Healing Action"
      /\ rec_priority recommendation = HIGH
      /\ estimatedImpact recommendation = 90
      /\ rec_category recommendation = "self-healing"
      /\ ledger' = ledger ++ [recommendation]
      /\ match String_of error with
         | Normal originalError =>
             exists timestamp,
               outcome r = Normal
                 {| success := true;
                    status := SUCCESS;
                    data := JObj [("healed", JBool true);
                                  ("originalError", JStr originalError)];
                    enhancements := [];
                    recommendations := [recommendation];
                    metadata := {| executionTime := 0; res_timestamp := timestamp;
                                   version := "1.0.0" |} |}
         | Abrupt _ => outcome r = Abrupt error
         end
  else outcome r = Abrupt error /\ ledger' = ledger.
Proof.
  destruct this as [[mel sh sl ci mi mr] tr [ledger] lg st m].
  js_unfold. rewrite Hthrows.
  destruct sh.
  - (* enabled: the recommendation is stored before the conversion *)
    destruct error as [e|[text|]]; cbn; js_fields.
  - (* disabled: the error is thrown again *)
    destruct error as [e|[text|]]; cbn; split; reflexivity.
Qed.

Lemma execute_failure_self_healing_witness :
  outcome (Protocol110System.execute (fun _ => Abrupt (ThrownOther None))
             "failing-operation"
             (Protocol110System.new emptyConfig sampleRuntime))
  = Abrupt (ThrownOther None)
  /\ outcome (Protocol110System.execute (fun _ => Abrupt (Error "Test error"))
                "failing-operation"
                (Protocol110System.new
                   (mkPartialConfig None (Some false) None None None None)
                   sampleRuntime))
     = Abrupt (Error "Test error").
Proof.
  split.
  - pose proof (execute_failure_self_healing
                  (snd (Protocol110System.new emptyConfig sampleRuntime))
                  (fst (Protocol110System.new emptyConfig sampleRuntime))
                  (fun _ => Abrupt (ThrownOther None)) "failing-operation"
                  (ThrownOther None) eq_refl) as Hhealing.
    cbv zeta in Hhealing.
    change (enableSelfHealing _) with true in Hhealing. cbv iota in Hhealing.
    destruct Hhealing as (recommendation & _ & _ & _ & _ & _ & Houtcome).
    exact Houtcome.
  - exact (proj1 (execute_failure_self_healing
                    (snd (Protocol110System.new
                            (mkPartialConfig None (Some false) None None None None)
                            sampleRuntime))
                    _ (fun _ => Abrupt (Error "Test error")) "failing-operation"
                    (Error "Test error") eq_refl)).
Defined.

(** C1 (as stated) fails.  A freshly built healing engine reports failure
    for the error "Test error", which none of its strategies matches, yet
    [execute] with self-healing enabled returns a success result for an
    operation throwing that error instead of rethrowing it. *)
Lemma execute_heals_without_healing_engine :
  let error := Error "Test error" in
  let healed :=
    outcome (SelfHealingSystem.heal error (SelfHealingSystem.new sampleRuntime)) in
  let executed :=
    outcome (Protocol110System.execute (fun _ => Abrupt error) "failing-operation"
               (Protocol110System.new emptyConfig sampleRuntime)) in
  ~ ((exists res, executed = Normal res /\ success res = true) <-> healed = Normal true).
Proof.
  intros error healed executed [Hhealed _].
  assert (healed = Normal false) as Hfalse by (vm_compute; reflexivity).
  rewrite Hfalse in Hhealed.
  enough (Normal false = Normal true :> Completion bool) by discriminate.
  apply Hhealed.
  eexists. split; [vm_compute; reflexivity | reflexivity].
Qed.

(** C2.  When the operation returns, [execute] returns a success result
    carrying the returned value.  With continuous improvement enabled it
    creates exactly one ENHANCED, MEDIUM-priority enhancement named after
    the operation, and a second EXCEPTIONAL, LOW-priority one exactly when
    the returned value is neither [null] nor [undefined]; with continuous
    improvement disabled the result has no enhancement and no
    recommendation, and nothing is stored. *)
Theorem execute_success_enhancements
    (this : Protocol110System.t) (rt : Runtime)
    (operation : unit -> Completion JsValue) (operationName : string)
    (result : JsValue) (Hreturns : operation tt = Normal result) :
  let r := Protocol110System.execute operation operationName (rt, this) in
  let tracker := EnhancementTracker.enhancements
                   (Protocol110System.enhancementTracker this) in
  let tracker' := EnhancementTracker.enhancements
                    (Protocol110System.enhancementTracker (fields_after r)) in
  let ledger := RecommendationEngine.recommendations
                  (Protocol110System.recommendationEngine this) in
  let ledger' := RecommendationEngine.recommendations
                   (Protocol110System.recommendationEngine (fields_after r)) in
  exists res,
    outcome r = Normal res /\ success res = true /\ data res = result /\
    if enableContinuousImprovement (Protocol110System.config this)
    then exists baseline,
        enh_impact baseline = ENHANCED /\ enh_priority baseline = MEDIUM
        /\ enh_description baseline
           = ("Enhanced " ++ operationName ++ " with 110% protocol")%string
        /\ if notNullish result
           then exists additional,
               enh_impact additional = EXCEPTIONAL /\ enh_priority additional = LOW
               /\ enhancements res = [baseline; additional]
               /\ tracker' = tracker ++ [baseline; additional]
           else enhancements res = [baseline] /\ tracker' = tracker ++ [baseline]
    else enhancements res = [] /\ recommendations res = []
         /\ tracker' = tracker /\ ledger' = ledger.
Proof.
  cbv zeta.
  destruct (execute_success this rt operation operationName result Hreturns)
    as (res & Hres & Hsuccess & Hdata & Hrest).
  exists res. repeat (split; [assumption|]).
  destruct (enableContinuousImprovement (Protocol110System.config this));
    [|exact Hrest].
  destruct Hrest as (baseline & perf & monitoring & Hi & Hp & Hd & Hmore & _).
  exists baseline. auto.
Qed.

Lemma execute_success_enhancements_witness :
  exists res,
    outcome (Protocol110System.execute (fun _ => Normal JNull) "op"
               (Protocol110System.new emptyConfig sampleRuntime)) = Normal res
    /\ length (enhancements res) = 1%nat.
Proof.
  destruct (execute_success_enhancements
              (snd (Protocol110System.new emptyConfig sampleRuntime))
              (fst (Protocol110System.new emptyConfig sampleRuntime))
              (fun _ => Normal JNull) "op" JNull eq_refl)
    as (res & Hres & _ & _ & baseline & _ & _ & _ & Henh & _).
  exists res. split; [exact Hres | by rewrite Henh].
Defined.

(** C3.  When the operation returns and continuous improvement is
    enabled, [execute] creates exactly two recommendations: a
    MEDIUM-priority "Optimize Performance" one with [estimatedImpact] 75
    in category "performance" and a LOW-priority "Enhanced Monitoring" one
    with [estimatedImpact] 50 in category "monitoring".  Both are appended
    to the stored ledger whatever [maxRecommendations] is (a count, so not
    negative), while the list in the returned result is the first
    [maxRecommendations] of them. *)
Theorem execute_success_recommendations
    (this : Protocol110System.t) (rt : Runtime)
    (operation : unit -> Completion JsValue) (operationName : string)
    (result : JsValue) (Hreturns : operation tt = Normal result)
    (Henabled : enableContinuousImprovement (Protocol110System.config this) = true)
    (Hmax : 0 <= maxRecommendations (Protocol110System.config this)) :
  let r := Protocol110System.execute operation operationName (rt, this) in
  let ledger := RecommendationEngine.recommendations
                  (Protocol110System.recommendationEngine this) in
  let ledger' := RecommendationEngine.recommendations
                   (Protocol110System.recommendationEngine (fields_after r)) in
  exists res perf monitoring,
    outcome r = Normal res
    /\ rec_title perf = "Optimize Performance" /\ rec_priority perf = MEDIUM
    /\ estimatedImpact perf = 75 /\ rec_category perf = "performance"
    /\ rec_title monitoring = "Enhanced Monitoring" /\ rec_priority monitoring = LOW
    /\ estimatedImpact monitoring = 50 /\ rec_category monitoring = "monitoring"
    /\ ledger' = ledger ++ [perf; monitoring]
    /\ recommendations res
       = take (Z.to_nat (maxRecommendations (Protocol110System.config this)))
              [perf; monitoring]
    /\ Z.of_nat (length (recommendations res))
       <= maxRecommendations (Protocol110System.config this).
Proof.
  cbv zeta.
  destruct (execute_success this rt operation operationName result Hreturns)
    as (res & Hres & _ & _ & Hrest).
  rewrite Henabled in Hrest.
  destruct Hrest as (baseline & perf & monitoring & _ & _ & _ & _ & Hperf).
  destruct Hperf as (? & ? & ? & ? & ? & ? & ? & ? & Hreturned & Hledger).
  rewrite slice0_nonneg in Hreturned by assumption.
  exists res, perf, monitoring.
  repeat (split; [assumption|]).
  rewrite Hreturned, length_take. lia.
Qed.

Lemma execute_success_recommendations_witness :
  exists res,
    outcome (Protocol110System.execute (fun _ => Normal (JStr "test")) "test-op"
               (Protocol110System.new
                  (mkPartialConfig None None None None None (Some 1))
                  sampleRuntime)) = Normal res
    /\ length (recommendations res) = 1%nat.
Proof.
  destruct (execute_success_recommendations
              (snd (Protocol110System.new
                      (mkPartialConfig None None None None None (Some 1))
                      sampleRuntime))
              (fst (Protocol110System.new
                      (mkPartialConfig None None None None None (Some 1))
                      sampleRuntime))
              (fun _ => Normal (JStr "test")) "test-op" (JStr "test")
              eq_refl eq_refl ltac:(vm_compute; discriminate))
    as (res & perf & monitoring & Hres & Hfields).
  exists res. split; [exact Hres|].
  by rewrite (proj1 (proj2 (proj2 (proj2 (proj2 (proj2 (proj2 (proj2 (proj2 (proj2 Hfields)))))))))).
Defined.

(** A call that nothing interrupts: the two stretches of [execute] one
    after the other. *)
Lemma execute_two_stretches (operation : unit -> Completion JsValue)
    (operationName : string) (w : Runtime * Protocol110System.t) :
  Protocol110System.execute operation operationName w
  = (startTime_ <- Protocol110System.execute_untilAwait operationName ;;
     Protocol110System.execute_fromAwait startTime_ (operation tt) operationName)%js w.
Proof.
  destruct w as [rt [[mel sh sl ci mi mr] tr en lg st m]].
  js_unfold. reflexivity.
Qed.








Lemma orDefault_max (n : Z) : 0 <= n -> Number.orDefault n 1 = Z.max n 1.
Proof. unfold Number.orDefault. destruct (Z.eqb_spec n 0); lia. Qed.

(** C7.  [getHealthCheck] reports
    [successRate = successfulOperations / max(totalOperations, 1) * 100]
    (in double arithmetic) and the uptime it has just recomputed; it
    reports [healthy] exactly when [successRate >= 80] and [uptime > 0];
    otherwise the status is "degraded" and the issues are
    ["Success rate below threshold"].  In particular a success rate below
    80 makes the system unhealthy whatever the uptime. *)
Theorem getHealthCheck_threshold
    (this : Protocol110System.t) (rt : Runtime)
    (Hcount : 0 <= totalOperations (Protocol110System.metrics this)) :
  let m := Protocol110System.metrics this in
  exists hc,
    outcome (Protocol110System.getHealthCheck (rt, this)) = Normal hc
    /\ successRate (hc_metrics hc)
       = Number.mul (Number.div (Number.ofZ (successfulOperations m))
                                (Number.ofZ (Z.max (totalOperations m) 1)))
                    (Number.ofZ 100)
    /\ hm_uptime (hc_metrics hc)
       = rt_now rt (rt_step rt) - Protocol110System.startTime this
    /\ (healthy hc = true <->
        Number.geb (successRate (hc_metrics hc)) (Number.ofZ 80) = true
        /\ 0 < hm_uptime (hc_metrics hc))
    /\ (if healthy hc
        then hc_status hc = "healthy" /\ issues hc = None
        else hc_status hc = "degraded"
             /\ issues hc = Some ["Success rate below threshold"])
    /\ (Number.ltb (successRate (hc_metrics hc)) (Number.ofZ 80) = true ->
        healthy hc = false).
Proof.
  destruct this as [c tr en lg st m]. cbn [Protocol110System.metrics] in *.
  js_unfold. cbn -[Number.ofZ Number.mul Number.div Number.geb Number.ltb Z.sub].
  rewrite (orDefault_max _ Hcount).
  set (rate := Number.mul _ _).
  set (up := _ - st).
  eexists. split; [reflexivity|]. cbn [successRate hc_metrics hm_uptime healthy hc_status issues].
  split; [reflexivity|]. split; [reflexivity|].
  split; [|split].
  - rewrite andb_true_iff, Z.ltb_lt. reflexivity.
  - destruct (Number.geb rate (Number.ofZ 80) && (0 <? up))%bool; split; reflexivity.
  - intros Hlow. apply Number_ltb_not_geb in Hlow. by rewrite Hlow.
Qed.

Lemma getHealthCheck_threshold_witness :
  exists hc,
    outcome (Protocol110System.getHealthCheck
               (Protocol110System.new emptyConfig sampleRuntime)) = Normal hc
    /\ healthy hc = false.
Proof.
  destruct (getHealthCheck_threshold
              (snd (Protocol110System.new emptyConfig sampleRuntime))
              (fst (Protocol110System.new emptyConfig sampleRuntime))
              ltac:(vm_compute; discriminate))
    as (hc & Hhc & Hrate & _ & _ & _ & Hlow).
  exists hc. split; [exact Hhc|].
  apply Hlow. rewrite Hrate. vm_compute. reflexivity.
Defined.

(** C10.  [getRecommendations(0)] on the API controller answers exactly
    as [getRecommendations()] does: a success envelope holding all stored
    recommendations in the order of their creation, whereas the top-0
    selection it bypasses would be empty. *)
Theorem getRecommendations_limit_zero (this : ProtocolApiController.t) (rt : Runtime) :
  ProtocolApiController.getRecommendations (Some 0) (rt, this)
  = ProtocolApiController.getRecommendations None (rt, this)
  /\ outcome (ProtocolApiController.getRecommendations (Some 0) (rt, this))
     = Normal {| api_success := true;
                 api_data := Some (RecommendationEngine.recommendations
                                     (Protocol110System.recommendationEngine
                                        (ProtocolApiController.protocol this)));
                 api_error := None;
                 api_timestamp := rt_now rt (rt_step rt) |}
  /\ outcome (Protocol110System.getTopRecommendations (Some 0)
                (rt, ProtocolApiController.protocol this))
     = Normal [].
Proof.
  destruct this as [[c tr en lg st m]].
  split; [reflexivity|]. split; [reflexivity|].
  js_unfold. cbn [default]. by rewrite slice0_nonneg.
Qed.

(** ** The recommendation ledger *)

Lemma StronglySorted_weaken {A} (R R' : A -> A -> Prop) (l : list A) :
  (forall a b, R a b -> R' a b) -> StronglySorted R l -> StronglySorted R' l.
Proof.
  intros HR. induction 1 as [|a l Hsorted IH Ha]; constructor; [assumption|].
  eapply Forall_impl; [exact Ha | auto].
Qed.

(** In a list sorted for [R], every element of a prefix is related to
    every element of the rest. *)
Lemma StronglySorted_take_drop {A} (R : A -> A -> Prop) (n : nat) (l : list A) :
  StronglySorted R l ->
  Forall (fun a => Forall (R a) (drop n l)) (take n l).
Proof.
  intros Hsorted. revert n.
  induction Hsorted as [|a l Hsorted IH Ha]; intros [|n]; cbn; try constructor.
  - rewrite Forall_forall in *. intros b Hb.
    apply Ha. by apply (subseteq_drop n l).
  - apply IH.
Qed.

Lemma byImpactDescending_key a b :
  RecommendationEngine.byImpactDescending a b
  = (fun r => - estimatedImpact r) a - (fun r => - estimatedImpact r) b.
Proof. unfold RecommendationEngine.byImpactDescending. lia. Qed.

(** C8.  [getTopRecommendations(limit)], for a count [limit], returns the
    first [limit] entries of the stored recommendations rearranged by
    descending [estimatedImpact], where recommendations of equal impact
    keep the order in which they were stored; so it returns the [limit]
    recommendations of greatest impact, none of those left out having a
    greater impact than one returned.  The stored list is left as it
    was.  Over stored impacts 30, 95, 60 the top two are the one of
    impact 95 and then the one of impact 60. *)
Theorem getTopRecommendations_greatest_first
    (this : RecommendationEngine.t) (rt : Runtime) (limit : Z)
    (Hlimit : 0 <= limit) :
  let stored := RecommendationEngine.recommendations this in
  let r := RecommendationEngine.getTopRecommendations (Some limit) (rt, this) in
  fields_after r = this
  /\ (exists sorted top rest,
        outcome r = Normal top
        /\ top = take (Z.to_nat limit) sorted
        /\ rest = drop (Z.to_nat limit) sorted
        /\ Permutation (top ++ rest) stored
        /\ length top = Nat.min (Z.to_nat limit) (length stored)
        /\ StronglySorted (fun a b => estimatedImpact b <= estimatedImpact a) sorted
        /\ stableFor estimatedImpact sorted stored
        /\ Forall (fun a => Forall (fun b => estimatedImpact b <= estimatedImpact a) rest)
                  top)
  /\ (forall low high medium,
        estimatedImpact low = 30 -> estimatedImpact high = 95 ->
        estimatedImpact medium = 60 ->
        outcome (RecommendationEngine.getTopRecommendations (Some 2)
                   (rt, RecommendationEngine.mk [low; high; medium]))
        = Normal [high; medium]).
Proof.
  destruct this as [stored]. cbn zeta.
  split; [reflexivity|]. split.
  - set (sorted := Array.sort RecommendationEngine.byImpactDescending stored).
    pose proof (sort_Permutation RecommendationEngine.byImpactDescending stored)
      as Hperm.
    pose proof (sort_StronglySorted _ _ byImpactDescending_key stored) as Hsorted.
    pose proof (sort_stable _ _ byImpactDescending_key stored) as Hstable.
    fold sorted in Hperm, Hsorted, Hstable.
    apply (StronglySorted_weaken _
             (fun a b => estimatedImpact b <= estimatedImpact a)) in Hsorted;
      [|intros a b; cbn; lia].
    exists sorted, (take (Z.to_nat limit) sorted), (drop (Z.to_nat limit) sorted).
    split.
    { cbn. unfold outcome. cbn. by rewrite slice0_nonneg. }
    split; [reflexivity|]. split; [reflexivity|].
    split; [by rewrite take_drop|].
    split; [by rewrite length_take, (Permutation_length Hperm)|].
    split; [exact Hsorted|].
    split.
    { intros v. specialize (Hstable (- v)). cbn in Hstable.
      erewrite (List.filter_ext _ (fun a => - estimatedImpact a =? - v)), Hstable.
      - apply List.filter_ext. intros a.
        destruct (Z.eqb_spec (estimatedImpact a) v), (Z.eqb_spec (- estimatedImpact a) (- v));
          (reflexivity || lia).
      - intros a.
        destruct (Z.eqb_spec (estimatedImpact a) v), (Z.eqb_spec (- estimatedImpact a) (- v));
          (reflexivity || lia). }
    by apply StronglySorted_take_drop.
  - intros low high medium Hlow Hhigh Hmedium.
    destruct low, high, medium. cbn in Hlow, Hhigh, Hmedium. subst.
    reflexivity.
Qed.

Lemma getTopRecommendations_greatest_first_witness :
  let low := mkRecommendation "id-1" "Low Impact" "Test" LOW 30 "test" true 1 in
  let high := mkRecommendation "id-2" "High Impact" "Test" HIGH 95 "test" true 2 in
  let medium := mkRecommendation "id-3" "Medium Impact" "Test" MEDIUM 60 "test" true 3 in
  outcome (RecommendationEngine.getTopRecommendations (Some 2)
             (sampleRuntime, RecommendationEngine.mk [low; high; medium]))
  = Normal [high; medium].
Proof.
  intros low high medium.
  exact (proj2 (proj2 (getTopRecommendations_greatest_first
                         RecommendationEngine.new sampleRuntime 2 ltac:(lia)))
               low high medium eq_refl eq_refl eq_refl).
Defined.

(** ** The healing engine *)

Ltac heal_unfold :=
  cbv [outcome fields_after runtime_after
       JS.bind JS.ret JS.throw JS.try_catch JS.await JS.await_call
       JS.get JS.gets JS.modify
       JS.Date_now JS.randomUUID JS.Math_random36 fst snd
       SelfHealingSystem.heal SelfHealingSystem.recordAttempt
       SelfHealingSystem.registerStrategy
       SelfHealingSystem.strategies SelfHealingSystem.healingHistory].

(** What one call of [heal] does, from any state: the strategy it picks,
    the value it resolves to, the attempt it records, and the runtime it
    leaves, which is the one the action of that strategy has left but for
    the readings of [heal] itself. *)
Lemma heal_effect (this : SelfHealingSystem.t) rt error :
  let r := SelfHealingSystem.heal error (rt, this) in
  let message := SelfHealingSystem.errorMessageOf error in
  exists attempt,
    SelfHealingSystem.healingHistory (fields_after r)
    = keepLast100 (SelfHealingSystem.healingHistory this ++ [attempt])
    /\ SelfHealingSystem.strategies (fields_after r) = SelfHealingSystem.strategies this
    /\ errorType attempt = message
    /\ match Array.find (fun s => errorPattern s message)
               (SelfHealingSystem.strategies this) with
       | None =>
           outcome r = Normal false
           /\ strategyUsed attempt = "none" /\ ha_success attempt = false
           /\ runtime_after r = rt_ticks 5 rt
       | Some strategy =>
           strategyUsed attempt = hs_name strategy
           /\ match fst (healingAction strategy (rt_tick rt)) with
              | Normal result =>
                  outcome r = Normal result /\ ha_success attempt = result
              | Abrupt _ =>
                  outcome r = Normal false /\ ha_success attempt = false
              end
           /\ runtime_after r = rt_ticks 4 (snd (healingAction strategy (rt_tick rt)))
       end.
Proof.
  destruct this as [strategies history].
  heal_unfold.
  destruct (Array.find _ strategies) as [strategy|];
    [destruct (healingAction strategy (rt_tick rt)) as [[result|thrown] rt']|];
    match goal with
    | |- context [Array.push ?attempt history] => exists attempt
    end;
    unfold keepLast100, Array.push;
    match goal with
    | |- context [100 <? ?n] => destruct (100 <? n)
    end;
    repeat split; reflexivity.
Qed.

Lemma runEngine_snoc calls call w :
  runEngine (calls ++ [call]) w
  = match call with
    | Register strategy =>
        snd (SelfHealingSystem.registerStrategy strategy (runEngine calls w))
    | Heal error => snd (SelfHealingSystem.heal error (runEngine calls w))
    end.
Proof. unfold runEngine. by rewrite fold_left_app. Qed.

Lemma registerStrategy_sorted strategy rt this :
  StronglySorted byRank
    (SelfHealingSystem.strategies
       (fields_after (SelfHealingSystem.registerStrategy strategy (rt, this)))).
Proof.
  destruct this as [strategies history]. heal_unfold.
  apply (sort_StronglySorted
           (fun s => SelfHealingSystem.priorityOrder (hs_priority s))).
  reflexivity.
Qed.

Lemma new_SelfHealingSystem rt :
  snd (SelfHealingSystem.new rt)
  = SelfHealingSystem.mk
      [SelfHealingSystem.networkRetry; SelfHealingSystem.resourceCleanup;
       SelfHealingSystem.rateLimitBackoff] [].
Proof. reflexivity. Qed.

Lemma runEngine_sorted calls rt :
  StronglySorted byRank
    (SelfHealingSystem.strategies (snd (runEngine calls (SelfHealingSystem.new rt)))).
Proof.
  induction calls as [|call calls IH] using rev_ind.
  - cbn [runEngine fold_left]. rewrite new_SelfHealingSystem.
    repeat constructor; unfold byRank; cbn; lia.
  - rewrite runEngine_snoc.
    destruct (runEngine calls (SelfHealingSystem.new rt)) as [rt' this].
    destruct call as [strategy|error].
    + apply registerStrategy_sorted.
    + destruct (heal_effect this rt' error) as (attempt & _ & Hsame & _).
      unfold fields_after in Hsame. by rewrite Hsame.
Qed.

(** In an array sorted for a reflexive [R], [find] returns an element
    related to every element that satisfies the predicate. *)
Lemma find_sorted_least {A} (R : A -> A -> Prop) (p : A -> bool) (arr : list A) :
  (forall a, R a a) ->
  StronglySorted R arr ->
  match Array.find p arr with
  | Some x => p x = true /\ x ∈ arr /\ forall y, y ∈ arr -> p y = true -> R x y
  | None => forall y, y ∈ arr -> p y = false
  end.
Proof.
  intros Hrefl. induction 1 as [|a arr Hsorted IH Ha]; cbn.
  - intros y Hy. by apply elem_of_nil in Hy.
  - destruct (p a) eqn:Hpa.
    + split; [exact Hpa|]. split; [left|].
      intros y Hy _. apply elem_of_cons in Hy as [->|Hy]; [apply Hrefl|].
      rewrite Forall_forall in Ha. by apply Ha.
    + destruct (Array.find p arr) as [x|].
      * destruct IH as (Hpx & Hx & Hleast).
        split; [exact Hpx|]. split; [by right|].
        intros y Hy Hpy. apply elem_of_cons in Hy as [->|Hy]; [congruence|].
        by apply Hleast.
      * intros y Hy. apply elem_of_cons in Hy as [->|Hy]; [exact Hpa | by apply IH].
Qed.

Lemma outranks_priorityOrder (p q : Priority) :
  outranks p q
  = (SelfHealingSystem.priorityOrder p <? SelfHealingSystem.priorityOrder q).
Proof. destruct p, q; reflexivity. Qed.

Lemma byRank_inPriorityOrder (strategies : list HealingStrategy) :
  StronglySorted byRank strategies -> inPriorityOrder strategies.
Proof.
  apply StronglySorted_weaken. intros a b Hab. unfold byRank in Hab.
  rewrite outranks_priorityOrder. apply Z.ltb_ge. exact Hab.
Qed.

(** What [find] returns stands behind elements that all fail the
    test. *)
Lemma find_first {A} (p : A -> bool) (arr : list A) (x : A) :
  Array.find p arr = Some x ->
  p x = true
  /\ exists before after, arr = before ++ x :: after /\ forall y, y ∈ before -> p y = false.
Proof.
  induction arr as [|a arr IH]; cbn [Array.find]; [discriminate|].
  destruct (p a) eqn:Hpa.
  - intros [= ->]. split; [exact Hpa|]. exists [], arr. split; [reflexivity|].
    intros y Hy. by apply elem_of_nil in Hy.
  - intros Hfind. destruct (IH Hfind) as (Hpx & before & after & -> & Hbefore).
    split; [exact Hpx|]. exists (a :: before), after. split; [reflexivity|].
    intros y Hy. apply elem_of_cons in Hy as [->|Hy]; [exact Hpa | by apply Hbefore].
Qed.

(** C5.  [heal] tests the text of the error against the stored
    strategies, which every registration keeps in priority order
    (CRITICAL, HIGH, MEDIUM, LOW), and takes the first one that matches:
    the strategies stored before it do not match, and no strategy that
    matches outranks it.  It executes the action of that strategy and of
    no other: the runtime [heal] leaves is the one this action has left,
    but for the clock and random readings of [heal] itself.  If no
    strategy matches, no action is executed, an attempt with
    [strategyUsed] "none" and [success] false is recorded and [heal]
    resolves to [false]; if the action rejects, the rejection is caught,
    the attempt is recorded as failed and [heal] resolves to [false];
    otherwise it records and resolves to the boolean of the action.  It
    never throws.  On a new engine "Network timeout error" heals and
    "Some unknown error type" does not, the latter recorded with
    [strategyUsed] "none". *)
Theorem heal_first_matching_strategy :
  (forall (calls : list EngineCall) (rt0 : Runtime) (error : JsError),
      let w := runEngine calls (SelfHealingSystem.new rt0) in
      let this := snd w in
      let r := SelfHealingSystem.heal error w in
      let message := SelfHealingSystem.errorMessageOf error in
      let matches := fun s => errorPattern s message in
      inPriorityOrder (SelfHealingSystem.strategies this)
      /\ exists attempt,
        SelfHealingSystem.healingHistory (fields_after r)
        = keepLast100 (SelfHealingSystem.healingHistory this ++ [attempt])
        /\ errorType attempt = message
        /\ match Array.find matches (SelfHealingSystem.strategies this) with
           | None =>
               (forall s, s ∈ SelfHealingSystem.strategies this -> matches s = false)
               /\ outcome r = Normal false
               /\ strategyUsed attempt = "none" /\ ha_success attempt = false
               /\ runtime_after r = rt_ticks 5 (fst w)
           | Some strategy =>
               matches strategy = true
               /\ (exists before after,
                     SelfHealingSystem.strategies this = before ++ strategy :: after
                     /\ forall s, s ∈ before -> matches s = false)
               /\ (forall s, s ∈ SelfHealingSystem.strategies this ->
                             matches s = true ->
                             outranks (hs_priority s) (hs_priority strategy) = false)
               /\ strategyUsed attempt = hs_name strategy
               /\ (let ran := healingAction strategy (rt_tick (fst w)) in
                   runtime_after r = rt_ticks 4 (snd ran)
                   /\ match fst ran with
                      | Normal result =>
                          outcome r = Normal result /\ ha_success attempt = result
                      | Abrupt _ =>
                          outcome r = Normal false /\ ha_success attempt = false
                      end)
           end)
  /\ (forall rt : Runtime,
        outcome (SelfHealingSystem.heal (Error "Network timeout error")
                   (SelfHealingSystem.new rt))
        = Normal true)
  /\ (forall rt : Runtime,
        let r := SelfHealingSystem.heal (Error "Some unknown error type")
                   (SelfHealingSystem.new rt) in
        outcome r = Normal false
        /\ map strategyUsed (SelfHealingSystem.healingHistory (fields_after r))
           = ["none"]).
Proof.
  split; [|split].
  - intros calls rt0 error. cbv zeta.
    pose proof (runEngine_sorted calls rt0) as Hsorted.
    destruct (runEngine calls (SelfHealingSystem.new rt0)) as [rt this].
    cbn [fst snd] in *.
    split; [apply byRank_inPriorityOrder; exact Hsorted|].
    destruct (heal_effect this rt error) as (attempt & Hhistory & _ & Htype & Hcase).
    exists attempt. split; [exact Hhistory|]. split; [exact Htype|].
    pose proof (find_sorted_least byRank
                  (fun s => errorPattern s (SelfHealingSystem.errorMessageOf error))
                  (SelfHealingSystem.strategies this)
                  ltac:(intros a; unfold byRank; lia) Hsorted) as Hfind.
    pose proof (find_first
                  (fun s => errorPattern s (SelfHealingSystem.errorMessageOf error))
                  (SelfHealingSystem.strategies this)) as Hfirst.
    destruct (Array.find _ (SelfHealingSystem.strategies this)) as [strategy|].
    + destruct Hfind as (Hmatch & Hin & Hleast).
      destruct (Hfirst strategy eq_refl) as (_ & Hposition).
      destruct Hcase as (Hused & Haction & Hruntime).
      split; [exact Hmatch|]. split; [exact Hposition|]. split.
      { intros s Hs Hmatches. rewrite outranks_priorityOrder. apply Z.ltb_ge.
        exact (Hleast s Hs Hmatches). }
      split; [exact Hused|]. split; [exact Hruntime | exact Haction].
    + destruct Hcase as (? & ? & ? & ?). auto.
  - intros rt.
    destruct (heal_effect (snd (SelfHealingSystem.new rt))
                (fst (SelfHealingSystem.new rt)) (Error "Network timeout error"))
      as (attempt & _ & _ & _ & Hcase).
    rewrite new_SelfHealingSystem in Hcase.
    change (Array.find _ _) with (Some SelfHealingSystem.networkRetry) in Hcase.
    destruct Hcase as [_ [[Hout _] _]].
    by rewrite <- surjective_pairing in Hout.
  - intros rt. cbv zeta.
    destruct (heal_effect (snd (SelfHealingSystem.new rt))
                (fst (SelfHealingSystem.new rt)) (Error "Some unknown error type"))
      as (attempt & Hhistory & _ & _ & Hcase).
    rewrite new_SelfHealingSystem in Hcase, Hhistory.
    change (Array.find _ _) with (@None HealingStrategy) in Hcase.
    destruct Hcase as (Hout & Hused & _).
    rewrite <- surjective_pairing in Hout, Hhistory.
    split; [exact Hout|].
    rewrite Hhistory. cbn [SelfHealingSystem.healingHistory].
    change (keepLast100 ([] ++ [attempt])) with [attempt].
    cbn [map]. by rewrite Hused.
Qed.

Lemma heal_first_matching_strategy_witness :
  let w := runEngine [Register sampleFallback; Register sampleEscalate]
             (SelfHealingSystem.new sampleRuntime) in
  let r := SelfHealingSystem.heal (Error "Network timeout error") w in
  map hs_name (SelfHealingSystem.strategies (snd w))
  = ["Escalate"; "Network Retry"; "Resource Cleanup"; "Rate Limit Backoff"; "Fallback"]
  /\ outcome r = Normal false
  /\ map strategyUsed (SelfHealingSystem.healingHistory (fields_after r)) = ["Escalate"]
  /\ rt_step (runtime_after r) = 6%nat.
Proof.
  intros w r. split; [reflexivity|].
  destruct (proj1 heal_first_matching_strategy
              [Register sampleFallback; Register sampleEscalate] sampleRuntime
              (Error "Network timeout error"))
    as (_ & attempt & Hhistory & _ & Hcase).
  change (Array.find _ _) with (Some sampleEscalate) in Hcase.
  destruct Hcase as (_ & _ & _ & Hused & Hruntime & Hout & _).
  fold w in Hhistory, Hruntime, Hout. fold r in Hhistory, Hruntime, Hout.
  split; [exact Hout|]. split.
  - rewrite Hhistory. change (keepLast100 _) with [attempt]. cbn [map]. by rewrite Hused.
  - rewrite Hruntime. reflexivity.
Defined.

Lemma keepLast100_drop (history : list HealingAttempt) :
  keepLast100 history
  = drop (if 100 <? Z.of_nat (length history) then 1 else 0) history.
Proof. unfold keepLast100, Array.shift. by destruct (100 <? _). Qed.

(** Dropping the oldest entry at once or at the end comes to the same. *)
Lemma keepLast100_app (history later : list HealingAttempt) attempt :
  (length history <= 100)%nat ->
  let kept := keepLast100 (history ++ [attempt]) in
  let all := history ++ [attempt] ++ later in
  drop (length (kept ++ later) - 100) (kept ++ later)
  = drop (length all - 100) all.
Proof.
  intros Hbound. cbv zeta. rewrite keepLast100_drop.
  destruct (Z.ltb_spec 100 (Z.of_nat (length (history ++ [attempt]))))
    as [Hover|Hunder]; rewrite length_app in *; cbn [length] in *.
  - destruct history as [|first history]; [cbn in Hover; lia|].
    cbn [app drop length] in *. rewrite drop_0, <- app_assoc.
    rewrite !length_app. cbn [length app].
    replace (S (length history + S (length later)) - 100)%nat
      with (S (length history + S (length later) - 100)) by lia.
    cbn [drop]. f_equal. lia.
  - rewrite drop_0, <- app_assoc. f_equal. rewrite !length_app. cbn [length]. lia.
Qed.

Lemma healAll_cons error errors w :
  healAll (error :: errors) w = healAll errors (snd (SelfHealingSystem.heal error w)).
Proof. reflexivity. Qed.

(** The history after a run of [heal] calls, from any state whose history
    is within the bound: the last 100 of the old entries followed by the
    attempts of the calls. *)
Lemma healAll_history (errors : list JsError) (w : Runtime * SelfHealingSystem.t) :
  (length (SelfHealingSystem.healingHistory (snd w)) <= 100)%nat ->
  let all := SelfHealingSystem.healingHistory (snd w) ++ healTrace errors w in
  SelfHealingSystem.healingHistory (snd (healAll errors w))
  = drop (length all - 100) all
  /\ length (healTrace errors w) = length errors
  /\ map errorType (healTrace errors w)
     = map SelfHealingSystem.errorMessageOf errors.
Proof.
  revert w. induction errors as [|error errors IH]; intros [rt this] Hbound; cbn zeta.
  - cbn [healTrace healAll fold_left snd map length] in *. rewrite app_nil_r.
    split; [|done].
    replace (length _ - 100)%nat with 0%nat by lia. done.
  - rewrite healAll_cons. cbn [healTrace snd].
    destruct (heal_effect this rt error) as (attempt & Hhistory & _ & Htype & _).
    unfold fields_after in Hhistory.
    destruct (SelfHealingSystem.heal error (rt, this)) as [b w'].
    cbn [snd] in *.
    set (history := SelfHealingSystem.healingHistory this) in *.
    assert (last (SelfHealingSystem.healingHistory (snd w')) = Some attempt) as Hlast.
    { rewrite Hhistory, keepLast100_drop.
      destruct (Z.ltb_spec 100 (Z.of_nat (length (history ++ [attempt]))))
        as [Hover|_]; [|by rewrite drop_0, last_snoc].
      destruct history as [|first history]; [cbn in Hover; lia|].
      cbn [app drop]. by rewrite drop_0, last_snoc. }
    assert (length (SelfHealingSystem.healingHistory (snd w')) <= 100)%nat as Hbound'.
    { rewrite Hhistory, keepLast100_drop, length_drop, length_app. cbn [length].
      destruct (Z.ltb_spec 100 (Z.of_nat (length history + 1))); lia. }
    destruct (IH w' Hbound') as (IHhistory & IHlength & IHtypes).
    rewrite Hlast. change (option_list (Some attempt)) with [attempt].
    split; [|split].
    + rewrite IHhistory, Hhistory. by apply keepLast100_app.
    + rewrite length_app. cbn [length]. by rewrite IHlength.
    + rewrite map_app. cbn [map app]. by rewrite Htype, IHtypes.
Qed.

(** C6.  The history of healing attempts never holds more than 100
    entries.  Each call of [heal] appends exactly one attempt and, when
    that makes 101, drops the oldest; so after any number of calls on a
    new engine the history consists of the attempts of the last 100
    calls in order, and after 102 calls it holds exactly 100 attempts,
    those of the first two calls being gone. *)
Theorem healingHistory_bounded :
  (forall (this : SelfHealingSystem.t) (rt : Runtime) (error : JsError),
      (length (SelfHealingSystem.healingHistory this) <= 100)%nat ->
      let history' := SelfHealingSystem.healingHistory
                        (fields_after (SelfHealingSystem.heal error (rt, this))) in
      (length history' <= 100)%nat
      /\ exists attempt,
          history' = keepLast100 (SelfHealingSystem.healingHistory this ++ [attempt]))
  /\ (forall (rt : Runtime) (errors : list JsError),
        let history' := SelfHealingSystem.healingHistory
                          (snd (healAll errors (SelfHealingSystem.new rt))) in
        let attempts := healTrace errors (SelfHealingSystem.new rt) in
        length attempts = length errors
        /\ map errorType attempts = map SelfHealingSystem.errorMessageOf errors
        /\ history' = drop (length errors - 100) attempts
        /\ length history' = Nat.min (length errors) 100)
  /\ (forall (rt : Runtime) (errors : list JsError),
        length errors = 102%nat ->
        let history' := SelfHealingSystem.healingHistory
                          (snd (healAll errors (SelfHealingSystem.new rt))) in
        length history' = 100%nat
        /\ history' = drop 2 (healTrace errors (SelfHealingSystem.new rt))).
Proof.
  assert (forall rt errors,
             SelfHealingSystem.healingHistory
               (snd (healAll errors (SelfHealingSystem.new rt)))
             = drop (length errors - 100) (healTrace errors (SelfHealingSystem.new rt))
             /\ length (healTrace errors (SelfHealingSystem.new rt)) = length errors
             /\ map errorType (healTrace errors (SelfHealingSystem.new rt))
                = map SelfHealingSystem.errorMessageOf errors) as Hrun.
  { intros rt errors.
    destruct (healAll_history errors (SelfHealingSystem.new rt)) as (Hh & Hl & Ht).
    - rewrite new_SelfHealingSystem. cbn. lia.
    - rewrite new_SelfHealingSystem in Hh. cbn [SelfHealingSystem.healingHistory app] in Hh.
      rewrite Hl in Hh. auto. }
  split; [|split].
  - intros this rt error Hbound. cbv zeta.
    destruct (heal_effect this rt error) as (attempt & Hhistory & _).
    split; [|by exists attempt].
    rewrite Hhistory, keepLast100_drop, length_drop, length_app. cbn [length].
    destruct (Z.ltb_spec 100 (Z.of_nat (length (SelfHealingSystem.healingHistory this) + 1)));
      lia.
  - intros rt errors. cbv zeta.
    destruct (Hrun rt errors) as (Hh & Hl & Ht).
    repeat split; try assumption.
    rewrite Hh, length_drop, Hl. lia.
  - intros rt errors Hlen. cbv zeta.
    destruct (Hrun rt errors) as (Hh & Hl & Ht).
    rewrite Hh, length_drop, Hl, Hlen. split; reflexivity.
Qed.

Lemma healingHistory_bounded_witness :
  (length (SelfHealingSystem.healingHistory
             (fields_after (SelfHealingSystem.heal (Error "Network timeout error")
                              (sampleRuntime, SelfHealingSystem.mk [] []))))
   <= 100)%nat
  /\ length (SelfHealingSystem.healingHistory
               (snd (healAll (repeat (Error "Network timeout error") 102)
                       (SelfHealingSystem.new sampleRuntime))))
     = 100%nat.
Proof.
  split.
  - exact (proj1 (proj1 healingHistory_bounded (SelfHealingSystem.mk [] [])
                    sampleRuntime (Error "Network timeout error")
                    ltac:(cbn; lia))).
  - exact (proj1 (proj2 (proj2 healingHistory_bounded) sampleRuntime
                    (repeat (Error "Network timeout error") 102) eq_refl)).
Defined.

(** ** The pattern learner *)

Ltac learn_unfold :=
  cbv [outcome fields_after runtime_after
       JS.bind JS.ret JS.get JS.gets JS.modify JS.Date_now JS.Math_random36 fst snd
       SelfLearningSystem.recordPattern SelfLearningSystem.patterns].

(** What one call of [recordPattern] does, from any state. *)
Lemma recordPattern_effect (this : SelfLearningSystem.t) rt name s md :
  let r := SelfLearningSystem.recordPattern name s md (rt, this) in
  exists p,
    outcome r = Normal p
    /\ SelfLearningSystem.patterns (fields_after r)
       = <[name := p]> (SelfLearningSystem.patterns this)
    /\ match SelfLearningSystem.patterns this !! name with
       | None =>
           frequency p = 1
           /\ lp_successRate p = Number.ofZ (if s then 1 else 0)
       | Some old =>
           frequency p = frequency old + 1
           /\ lp_successRate p
              = Number.div
                  (Number.add (Number.mul (lp_successRate old)
                                          (Number.ofZ (frequency old)))
                              (Number.ofZ (if s then 1 else 0)))
                  (Number.ofZ (frequency old + 1))
       end.
Proof.
  destruct this as [patterns]. learn_unfold.
  destruct (patterns !! name) as [old|]; eexists; repeat split; reflexivity.
Qed.

Lemma recordAll_snoc calls call w :
  recordAll (calls ++ [call]) w
  = snd (SelfLearningSystem.recordPattern (fst (fst call)) (snd (fst call)) (snd call)
           (recordAll calls w)).
Proof. unfold recordAll. by rewrite fold_left_app. Qed.

Lemma observations_snoc name calls call :
  observations name (calls ++ [call])
  = observations name calls
      ++ (if String.eqb (fst (fst call)) name then [snd (fst call)] else []).
Proof.
  unfold observations. rewrite List.filter_app, map_app. cbn [List.filter].
  by destruct (String.eqb (fst (fst call)) name).
Qed.

(** The learner stores, for each name, the running average of the
    outcomes recorded under that name and their number. *)
Lemma recordAll_runningAverage name calls rt :
  let final := snd (recordAll calls (rt, SelfLearningSystem.new)) in
  match observations name calls with
  | [] => SelfLearningSystem.patterns final !! name = None
  | first :: rest =>
      exists p, SelfLearningSystem.patterns final !! name = Some p
                /\ (lp_successRate p, frequency p) = runningAverage first rest
  end.
Proof.
  induction calls as [|[[name' s] md] calls IH] using rev_ind; [reflexivity|].
  cbv zeta in *. rewrite recordAll_snoc, observations_snoc. cbn [fst snd].
  destruct (recordAll calls (rt, SelfLearningSystem.new)) as [rt' this].
  destruct (recordPattern_effect this rt' name' s md) as (p & _ & Hpatterns & Hp).
  unfold fields_after in Hpatterns. cbn [snd] in *. rewrite Hpatterns.
  destruct (String.eqb_spec name' name) as [->|Hother].
  - rewrite lookup_insert_eq.
    destruct (observations name calls) as [|first rest].
    + rewrite IH in Hp. destruct Hp as [Hf Hr].
      exists p. split; [reflexivity|]. cbn. by rewrite Hf, Hr.
    + destruct IH as (old & Hold & Haverage). rewrite Hold in Hp.
      destruct Hp as [Hf Hr].
      exists p. split; [reflexivity|]. cbn [app].
      unfold runningAverage in *. rewrite fold_left_app. cbn [fold_left].
      rewrite <- Haverage. unfold averageStep. cbn [fst snd]. by rewrite Hf, Hr.
  - rewrite lookup_insert_ne by done. by rewrite app_nil_r.
Qed.

Lemma averageStepExact_upto_21 :
  forallb (fun n =>
    forallb (fun k => averageStepExact n k true && averageStepExact n k false)
            (seq 0 (S n)))
    (seq 1 21) = true.
Proof. vm_compute. reflexivity. Qed.

Lemma averageStep_exact (n k : nat) (s : bool) :
  (1 <= n <= 21)%nat -> (k <= n)%nat ->
  fst (averageStep
         (Number.div (Number.ofZ (Z.of_nat k)) (Number.ofZ (Z.of_nat n)),
          Z.of_nat n) s)
  = Number.div (Number.ofZ (Z.of_nat k + (if s then 1 else 0)))
               (Number.ofZ (Z.of_nat n + 1)).
Proof.
  intros Hn Hk.
  pose proof averageStepExact_upto_21 as Htable.
  rewrite forallb_forall in Htable.
  specialize (Htable n ltac:(apply in_seq; lia)).
  rewrite forallb_forall in Htable.
  specialize (Htable k ltac:(apply in_seq; lia)).
  apply andb_true_iff in Htable as [Htrue Hfalse].
  destruct s; [apply bool_decide_eq_true in Htrue | apply bool_decide_eq_true in Hfalse];
    assumption.
Qed.

Lemma successes_snoc obs s :
  successes (obs ++ [s]) = successes obs + (if s then 1 else 0).
Proof.
  unfold successes. rewrite List.filter_app, length_app.
  destruct s; cbn [List.filter length]; lia.
Qed.

Lemma successes_bound obs : 0 <= successes obs <= Z.of_nat (length obs).
Proof.
  unfold successes. pose proof (List.filter_length_le (fun s : bool => s) obs). lia.
Qed.

(** Up to 22 observations the running average is the quotient of the
    two counts. *)
Lemma runningAverage_exact first rest :
  (length (first :: rest) <= 22)%nat ->
  runningAverage first rest
  = (fractionOf (first :: rest), Z.of_nat (length (first :: rest))).
Proof.
  induction rest as [|s rest IH] using rev_ind; intros Hlen.
  - destruct first; vm_compute; reflexivity.
  - rewrite app_comm_cons, length_app in Hlen. cbn [length] in Hlen.
    unfold runningAverage in *. rewrite fold_left_app. cbn [fold_left].
    rewrite IH by (cbn [length]; lia).
    pose proof (successes_bound (first :: rest)) as Hbound.
    assert (1 <= length (first :: rest) <= 21)%nat as Hn by (cbn [length] in *; lia).
    assert (Z.to_nat (successes (first :: rest)) <= length (first :: rest))%nat as Hk.
    { lia. }
    pose proof (averageStep_exact (length (first :: rest))
                  (Z.to_nat (successes (first :: rest))) s Hn Hk) as Hstep.
    rewrite Z2Nat.id in Hstep by lia.
    unfold fractionOf at 1.
    rewrite (surjective_pairing (averageStep _ s)), Hstep.
    unfold fractionOf. rewrite app_comm_cons, successes_snoc, length_app.
    cbn [averageStep snd length].
    by replace (Z.of_nat (S (length rest) + 1)) with (Z.of_nat (S (length rest)) + 1)
      by lia.
Qed.

Lemma runningAverage_frequency first rest :
  snd (runningAverage first rest) = Z.of_nat (length (first :: rest)).
Proof.
  induction rest as [|s rest IH] using rev_ind; [reflexivity|].
  unfold runningAverage in *. rewrite fold_left_app. cbn [fold_left averageStep snd].
  rewrite IH, app_comm_cons, length_app. cbn [length]. lia.
Qed.

(** C9 (as amended).  The first [recordPattern] call for a name creates
    its pattern with [frequency] 1 and [successRate] 1 or 0; every later
    call for that name sets [frequency] to the old frequency plus 1 and
    [successRate] to
    [(oldSuccessRate * oldFrequency + (success ? 1 : 0)) / newFrequency],
    computed in double arithmetic, and leaves the patterns of other names
    alone.  After any sequence of calls, [frequency] is the number of
    observations of the name, and for up to 22 observations
    [successRate] is the quotient of the number of successes by the
    number of observations; recording true, true, true, false yields
    [frequency] 4 and [successRate] 0.75 exactly. *)
Theorem recordPattern_running_average :
  (forall (this : SelfLearningSystem.t) (rt : Runtime) (name : string) (s : bool)
          (md : option (list (string * JsValue))),
      let r := SelfLearningSystem.recordPattern name s md (rt, this) in
      exists p,
        outcome r = Normal p
        /\ SelfLearningSystem.patterns (fields_after r) !! name = Some p
        /\ (forall other, other <> name ->
              SelfLearningSystem.patterns (fields_after r) !! other
              = SelfLearningSystem.patterns this !! other)
        /\ match SelfLearningSystem.patterns this !! name with
           | None =>
               frequency p = 1
               /\ lp_successRate p = Number.ofZ (if s then 1 else 0)
           | Some old =>
               frequency p = frequency old + 1
               /\ lp_successRate p
                  = Number.div
                      (Number.add (Number.mul (lp_successRate old)
                                              (Number.ofZ (frequency old)))
                                  (Number.ofZ (if s then 1 else 0)))
                      (Number.ofZ (frequency old + 1))
           end)
  /\ (forall (name : string)
             (calls : list (string * bool * option (list (string * JsValue))))
             (rt : Runtime),
        let final := snd (recordAll calls (rt, SelfLearningSystem.new)) in
        let obs := observations name calls in
        match obs with
        | [] => SelfLearningSystem.patterns final !! name = None
        | first :: rest =>
            exists p,
              SelfLearningSystem.patterns final !! name = Some p
              /\ frequency p = Z.of_nat (length obs)
              /\ lp_successRate p = fst (runningAverage first rest)
              /\ ((length obs <= 22)%nat -> lp_successRate p = fractionOf obs)
        end)
  /\ (forall (name : string) (rt : Runtime)
             (m1 m2 m3 m4 : option (list (string * JsValue))),
        let final :=
          snd (recordAll [(name, true, m1); (name, true, m2); (name, true, m3);
                          (name, false, m4)]
                 (rt, SelfLearningSystem.new)) in
        exists p,
          SelfLearningSystem.patterns final !! name = Some p
          /\ frequency p = 4
          /\ lp_successRate p = Number.div (Number.ofZ 3) (Number.ofZ 4)
          /\ lp_successRate p = S754_finite false 6755399441055744 (-53)).
Proof.
  assert (forall name calls rt,
             match observations name calls with
             | [] => SelfLearningSystem.patterns
                       (snd (recordAll calls (rt, SelfLearningSystem.new))) !! name = None
             | first :: rest =>
                 exists p,
                   SelfLearningSystem.patterns
                     (snd (recordAll calls (rt, SelfLearningSystem.new))) !! name = Some p
                   /\ frequency p = Z.of_nat (length (first :: rest))
                   /\ lp_successRate p = fst (runningAverage first rest)
                   /\ ((length (first :: rest) <= 22)%nat ->
                       lp_successRate p = fractionOf (first :: rest))
             end) as Hsequence.
  { intros name calls rt.
    pose proof (recordAll_runningAverage name calls rt) as Hrun. cbv zeta in Hrun.
    destruct (observations name calls) as [|first rest]; [exact Hrun|].
    destruct Hrun as (p & Hp & Haverage).
    exists p. split; [exact Hp|].
    pose proof (runningAverage_frequency first rest) as Hfrequency.
    rewrite <- Haverage in *. cbn [fst snd] in *.
    split; [exact Hfrequency|]. split; [reflexivity|].
    intros Hlen. pose proof (runningAverage_exact first rest Hlen) as Hexact.
    rewrite <- Haverage in Hexact. congruence. }
  split; [|split].
  - intros this rt name s md. cbv zeta.
    destruct (recordPattern_effect this rt name s md) as (p & Hout & Hpatterns & Hp).
    exists p. split; [exact Hout|]. rewrite Hpatterns.
    split; [apply lookup_insert_eq|].
    split; [|exact Hp].
    intros other Hother. by apply lookup_insert_ne.
  - intros name calls rt. cbv zeta.
    specialize (Hsequence name calls rt).
    by destruct (observations name calls).
  - intros name rt m1 m2 m3 m4. cbv zeta.
    specialize (Hsequence name
                  [(name, true, m1); (name, true, m2); (name, true, m3); (name, false, m4)]
                  rt).
    unfold observations in Hsequence. cbn [List.filter fst snd] in Hsequence.
    rewrite String.eqb_refl in Hsequence. cbn [map fst snd] in Hsequence.
    destruct Hsequence as (p & Hp & Hfrequency & _ & Hexact).
    specialize (Hexact ltac:(cbn; lia)).
    exists p. split; [exact Hp|]. split; [exact Hfrequency|].
    split; rewrite Hexact; vm_compute; reflexivity.
Qed.

Lemma recordPattern_running_average_witness :
  (exists p,
      SelfLearningSystem.patterns
        (snd (recordAll [("deploy", true, None); ("deploy", false, None)]
                (sampleRuntime, SelfLearningSystem.new))) !! "deploy" = Some p
      /\ lp_successRate p = fractionOf [true; false])
  /\ SelfLearningSystem.patterns
       (fields_after (SelfLearningSystem.recordPattern "deploy" true None
                        (sampleRuntime, SelfLearningSystem.new))) !! "build"
     = None.
Proof.
  split.
  - destruct (proj1 (proj2 recordPattern_running_average) "deploy"
                [("deploy", true, None); ("deploy", false, None)] sampleRuntime)
      as (p & Hp & _ & _ & Hexact).
    exists p. split; [exact Hp|].
    apply Hexact. cbn. lia.
  - destruct (proj1 recordPattern_running_average SelfLearningSystem.new
                sampleRuntime "deploy" true None)
      as (p & _ & _ & Hothers & _).
    rewrite (Hothers "build"); [reflexivity | discriminate].
Defined.

(** C9 (as stated) fails: the running average does not always equal the
    fraction of successful observations.  After 15 successes and 8
    failures recorded under one name the stored [successRate] is
    0.6521739130434782, whereas 15/23 is 0.6521739130434783 as a
    double. *)
Lemma recordPattern_average_drifts :
  let calls := map (fun s => ("retry", s, None)) (repeat true 15 ++ repeat false 8) in
  let final := snd (recordAll calls (sampleRuntime, SelfLearningSystem.new)) in
  ~ (exists p,
        SelfLearningSystem.patterns final !! "retry" = Some p
        /\ lp_successRate p = fractionOf (observations "retry" calls)).
Proof.
  intros calls final (p & Hp & Hrate).
  pose proof (recordAll_runningAverage "retry" calls sampleRuntime) as Hrun.
  cbv zeta in Hrun.
  change (observations "retry" calls) with (repeat true 15 ++ repeat false 8)
    in Hrun, Hrate.
  cbn [repeat app] in Hrun.
  destruct Hrun as (p' & Hp' & Haverage).
  fold final in Hp'. rewrite Hp in Hp'. injection Hp' as <-.
  apply (f_equal fst) in Haverage. cbn [fst] in Haverage.
  rewrite Hrate in Haverage. vm_compute in Haverage. discriminate Haverage.
Qed.

(* ===================================================================== *)
(** * Further properties *)
(* ===================================================================== *)

(** ** The orchestrator between calls *)

(** Everything one call of [execute] changes besides the three
    operation counters, from any state. *)
Lemma execute_step (this : Protocol110System.t) rt operation operationName :
  let this' := fields_after (Protocol110System.execute operation operationName (rt, this)) in
  let cfg := Protocol110System.config this in
  let m := Protocol110System.metrics this in
  let m' := Protocol110System.metrics this' in
  let tracker := EnhancementTracker.enhancements (Protocol110System.enhancementTracker this) in
  let tracker' := EnhancementTracker.enhancements (Protocol110System.enhancementTracker this') in
  let ledger := RecommendationEngine.recommendations
                  (Protocol110System.recommendationEngine this) in
  let ledger' := RecommendationEngine.recommendations
                   (Protocol110System.recommendationEngine this') in
  implementedRecommendations m' = implementedRecommendations m
  /\ Protocol110System.startTime this' = Protocol110System.startTime this
  /\ exists created suggested,
      tracker' = tracker ++ created /\ ledger' = ledger ++ suggested
      /\ match operation tt with
         | Normal result =>
             if enableContinuousImprovement cfg
             then enhancedOperations m' = enhancedOperations m + 1
                  /\ totalRecommendations m' = totalRecommendations m + 2
                  /\ length created = (if notNullish result then 2 else 1)%nat
                  /\ length suggested = 2%nat
             else enhancedOperations m' = enhancedOperations m
                  /\ totalRecommendations m' = totalRecommendations m
                  /\ created = [] /\ suggested = []
         | Abrupt _ =>
             enhancedOperations m' = enhancedOperations m
             /\ totalRecommendations m' = totalRecommendations m
             /\ created = []
             /\ length suggested = (if enableSelfHealing cfg then 1 else 0)%nat
         end.
Proof.
  destruct this as [[mel sh sl ci mi mr] [tracker] [ledger] lg st m].
  js_unfold.
  destruct (operation tt) as [result|error].
  - destruct ci; [destruct (notNullish result)|]; cbn -[Z.add];
      (split; [reflexivity|]); (split; [reflexivity|]); unfold Array.push;
      rewrite <- ?app_assoc.
    + eexists _, _. split; [reflexivity|]. split; [reflexivity|]. by cbn.
    + eexists _, _. split; [reflexivity|]. split; [reflexivity|]. by cbn.
    + exists [], []. by rewrite !app_nil_r.
  - destruct sh; destruct error as [e|[text|]]; cbn -[Z.add];
      (split; [reflexivity|]); (split; [reflexivity|]); unfold Array.push;
      first [ eexists [], [_]; by rewrite app_nil_r
            | exists [], []; by rewrite !app_nil_r ].
Qed.

(** What holds of the counters and the two ledgers of a system between
    calls, whatever calls it has served since its construction. *)
Lemma executeAll_invariant calls c rt :
  let this := snd (executeAll calls (Protocol110System.new c rt)) in
  let cfg := Protocol110System.resolveConfig c in
  let m := Protocol110System.metrics this in
  let tracker := EnhancementTracker.enhancements (Protocol110System.enhancementTracker this) in
  let ledger := RecommendationEngine.recommendations
                  (Protocol110System.recommendationEngine this) in
  0 <= successfulOperations m /\ 0 <= failedOperations m
  /\ enhancedOperations m
     = (if enableContinuousImprovement cfg then successfulOperations m else 0)
  /\ totalRecommendations m
     = (if enableContinuousImprovement cfg then 2 * successfulOperations m else 0)
  /\ implementedRecommendations m = 0
  /\ Z.of_nat (length ledger)
     = totalRecommendations m
       + (if enableSelfHealing cfg then failedOperations m else 0)
  /\ (if enableContinuousImprovement cfg
      then successfulOperations m <= Z.of_nat (length tracker)
                                  <= 2 * successfulOperations m
      else tracker = []).
Proof.
  induction calls as [|call calls IH] using rev_ind.
  - destruct c as [level [[]|] learning [[]|] interval maxRecs];
      cbn; repeat split; lia.
  - cbv zeta in *. rewrite executeAll_snoc.
    pose proof (executeAll_config calls c rt) as Hconfig.
    destruct (executeAll calls (Protocol110System.new c rt)) as [rt' this].
    cbn [snd] in *.
    pose proof (execute_counters this rt' (fst call) (snd call)) as [_ Hcount].
    pose proof (execute_step this rt' (fst call) (snd call))
      as (Himpl & _ & created & suggested & Htracker & Hledger & Hstep).
    cbv zeta in Hcount, Himpl, Htracker, Hledger, Hstep.
    unfold fields_after in *. rewrite Hconfig in Hstep.
    destruct IH as (Hs & Hf & He & Ht & Hi & Hl & Hk).
    rewrite Htracker, Hledger, !length_app, Himpl.
    destruct (fst call tt) as [result|error];
      destruct Hcount as [-> ->];
      destruct (enableContinuousImprovement (Protocol110System.resolveConfig c));
      destruct (enableSelfHealing (Protocol110System.resolveConfig c));
      destruct Hstep as (-> & -> & Hc & Hsg);
      try (destruct (notNullish result));
      subst; rewrite ?Hsg, ?Hc, ?app_nil_r; cbn [length];
      repeat split; try lia; try assumption.
Qed.

(** X1.  Between calls, whatever calls a system has served since its
    construction: [enhancedOperations] equals [successfulOperations] when
    continuous improvement is enabled and stays 0 otherwise;
    [totalRecommendations] is twice [successfulOperations] when it is
    enabled and 0 otherwise; [implementedRecommendations] is always 0;
    and the counters are never negative. *)
Theorem metrics_follow_successes
    (calls : list ((unit -> Completion JsValue) * string))
    (c : PartialProtocolConfig) (rt : Runtime) :
  let m := Protocol110System.metrics
             (snd (executeAll calls (Protocol110System.new c rt))) in
  let enabled := enableContinuousImprovement (Protocol110System.resolveConfig c) in
  enhancedOperations m = (if enabled then successfulOperations m else 0)
  /\ totalRecommendations m = (if enabled then 2 * successfulOperations m else 0)
  /\ implementedRecommendations m = 0
  /\ 0 <= enhancedOperations m <= successfulOperations m
  /\ successfulOperations m <= totalOperations m
  /\ 0 <= failedOperations m <= totalOperations m.
Proof.
  cbv zeta.
  destruct (executeAll_invariant calls c rt) as (Hs & Hf & He & Ht & Hi & _).
  destruct (executeAll_counters calls c rt) as [_ Htotal].
  cbv zeta in *.
  split; [exact He|]. split; [exact Ht|]. split; [exact Hi|].
  destruct (enableContinuousImprovement (Protocol110System.resolveConfig c)); lia.
Qed.

(** X2.  Between calls the recommendation ledger holds exactly
    [totalRecommendations] entries plus, when self-healing is enabled,
    one per failed operation: the healing recommendations are stored but
    not counted in [totalRecommendations].  The enhancement ledger holds
    between one and two entries per successful operation when continuous
    improvement is enabled and none otherwise. *)
Theorem ledger_sizes_follow_counters
    (calls : list ((unit -> Completion JsValue) * string))
    (c : PartialProtocolConfig) (rt : Runtime) :
  let this := snd (executeAll calls (Protocol110System.new c rt)) in
  let cfg := Protocol110System.resolveConfig c in
  let m := Protocol110System.metrics this in
  let tracker := EnhancementTracker.enhancements (Protocol110System.enhancementTracker this) in
  let ledger := RecommendationEngine.recommendations
                  (Protocol110System.recommendationEngine this) in
  Z.of_nat (length ledger)
  = totalRecommendations m + (if enableSelfHealing cfg then failedOperations m else 0)
  /\ (if enableContinuousImprovement cfg
      then successfulOperations m <= Z.of_nat (length tracker)
                                  <= 2 * successfulOperations m
      else tracker = []).
Proof.
  cbv zeta.
  destruct (executeAll_invariant calls c rt) as (_ & _ & _ & _ & _ & Hl & Hk).
  split; assumption.
Qed.

(** X3.  Both ledgers are append-only under [execute]: after any further
    calls, the enhancements and the recommendations stored before are
    still there, unchanged and in the same positions. *)
Theorem ledgers_append_only
    (calls : list ((unit -> Completion JsValue) * string))
    (w : Runtime * Protocol110System.t) :
  let this := snd w in
  let this' := snd (executeAll calls w) in
  EnhancementTracker.enhancements (Protocol110System.enhancementTracker this)
    `prefix_of`
    EnhancementTracker.enhancements (Protocol110System.enhancementTracker this')
  /\ RecommendationEngine.recommendations (Protocol110System.recommendationEngine this)
       `prefix_of`
     RecommendationEngine.recommendations (Protocol110System.recommendationEngine this').
Proof.
  induction calls as [|call calls IH] using rev_ind; [by split|].
  cbv zeta in *. rewrite executeAll_snoc.
  destruct (executeAll calls w) as [rt' this'].
  destruct (execute_step this' rt' (fst call) (snd call))
    as (_ & _ & created & suggested & Htracker & Hledger & _).
  unfold fields_after in *. cbn [snd] in *.
  rewrite Htracker, Hledger. destruct IH as [IHt IHl].
  split; (etrans; [eassumption | by apply prefix_app_r]).
Qed.

(** X4.  The queries of the orchestrator never disturb what [execute]
    records: [getMetrics] and [getHealthCheck] only refresh the derived
    metrics, and [getEnhancements], [getRecommendations],
    [getTopRecommendations] and [getConfig] change nothing at all.
    [getMetrics] returns the counters as they are, with the uptime it has
    just measured; [getEnhancements] and [getRecommendations] return the
    ledgers in storage order. *)
Theorem queries_leave_records (this : Protocol110System.t) (rt : Runtime) :
  (exists m,
      outcome (Protocol110System.getMetrics (rt, this)) = Normal m
      /\ sameRecords (fields_after (Protocol110System.getMetrics (rt, this))) this
      /\ totalOperations m = totalOperations (Protocol110System.metrics this)
      /\ successfulOperations m = successfulOperations (Protocol110System.metrics this)
      /\ failedOperations m = failedOperations (Protocol110System.metrics this)
      /\ uptime m = rt_now rt (rt_step rt) - Protocol110System.startTime this)
  /\ sameRecords (fields_after (Protocol110System.getHealthCheck (rt, this))) this
  /\ Protocol110System.getEnhancements (rt, this)
     = (Normal (EnhancementTracker.enhancements
                  (Protocol110System.enhancementTracker this)), (rt, this))
  /\ Protocol110System.getRecommendations (rt, this)
     = (Normal (RecommendationEngine.recommendations
                  (Protocol110System.recommendationEngine this)), (rt, this))
  /\ (forall limit,
        snd (Protocol110System.getTopRecommendations limit (rt, this)) = (rt, this))
  /\ Protocol110System.getConfig (rt, this)
     = (Normal (Protocol110System.config this), (rt, this)).
Proof.
  destruct this as [c [tracker] [ledger] lg st m].
  split; [|split; [|split; [|split; [|split]]]].
  - eexists. unfold sameRecords.
    cbv [Protocol110System.getMetrics]. js_unfold. cbn.
    repeat split; reflexivity.
  - unfold sameRecords. js_unfold. cbn. repeat split; reflexivity.
  - reflexivity.
  - reflexivity.
  - intros limit. reflexivity.
  - reflexivity.
Qed.

(** X5.  The constructor fills in what the caller leaves out (ENHANCED,
    the three flags set, 60000, 50) and keeps what the caller gives, a
    flag given as [false] included; but a [monitoringInterval] or
    [maxRecommendations] given as 0 is replaced by its default, so
    neither is ever 0.  The configuration stays the same through any
    calls of [execute]. *)
Theorem constructor_defaults
    (calls : list ((unit -> Completion JsValue) * string))
    (c : PartialProtocolConfig) (rt : Runtime) :
  let cfg := Protocol110System.config
               (snd (executeAll calls (Protocol110System.new c rt))) in
  minEnhancementLevel cfg = default ENHANCED (p_minEnhancementLevel c)
  /\ enableSelfHealing cfg = default true (p_enableSelfHealing c)
  /\ enableSelfLearning cfg = default true (p_enableSelfLearning c)
  /\ enableContinuousImprovement cfg = default true (p_enableContinuousImprovement c)
  /\ monitoringInterval cfg
     = match p_monitoringInterval c with
       | Some 0 | None => 60000
       | Some given => given
       end
  /\ maxRecommendations cfg
     = match p_maxRecommendations c with
       | Some 0 | None => 50
       | Some given => given
       end
  /\ monitoringInterval cfg <> 0 /\ maxRecommendations cfg <> 0.
Proof.
  cbv zeta. rewrite executeAll_config.
  destruct c as [level healing learning improvement interval maxRecs].
  unfold Protocol110System.resolveConfig, Number.orDefault. cbn.
  repeat split; try reflexivity.
  - by destruct interval as [[]|].
  - by destruct maxRecs as [[]|].
  - by destruct interval as [[]|].
  - by destruct maxRecs as [[]|].
Qed.

(** X6.  A system that has not executed anything yet is reported as
    degraded, whatever its configuration and the clock: the success rate
    and the enhancement rate are 0 and the issue "Success rate below
    threshold" is raised. *)
Theorem new_system_is_degraded (c : PartialProtocolConfig) (rt : Runtime) :
  exists hc,
    outcome (Protocol110System.getHealthCheck (Protocol110System.new c rt)) = Normal hc
    /\ healthy hc = false
    /\ hc_status hc = "degraded"
    /\ issues hc = Some ["Success rate below threshold"]
    /\ successRate (hc_metrics hc) = Number.ofZ 0
    /\ enhancementRate (hc_metrics hc) = Number.ofZ 0.
Proof.
  eexists. split; [reflexivity|]. cbn. repeat split; reflexivity.
Qed.

(** X7.  The result of a call whose operation returns has status ENHANCED
    exactly when continuous improvement is enabled (SUCCESS otherwise),
    carries version "1.0.0", and its [executionTime] is the difference of
    two readings of the clock, the later one taken after the earlier; so
    it is not negative when the clock does not run backwards. *)
Theorem execute_result_metadata
    (this : Protocol110System.t) (rt : Runtime)
    (operation : unit -> Completion JsValue) (operationName : string)
    (result : JsValue) (Hreturns : operation tt = Normal result) :
  exists res later,
    outcome (Protocol110System.execute operation operationName (rt, this)) = Normal res
    /\ status res
       = (if enableContinuousImprovement (Protocol110System.config this)
          then STATUS_ENHANCED else SUCCESS)
    /\ version (metadata res) = "1.0.0"
    /\ (rt_step rt <= later)%nat
    /\ executionTime (metadata res) = rt_now rt later - rt_now rt (rt_step rt)
    /\ (monotoneClock rt -> 0 <= executionTime (metadata res)).
Proof.
  destruct this as [[mel sh sl ci mi mr] tr en lg st m].
  js_unfold. rewrite Hreturns.
  destruct ci; [destruct (notNullish result)|]; cbn -[Z.sub];
    eexists _, _; (split; [reflexivity|]); cbn -[Z.sub];
    (split; [reflexivity|]); (split; [reflexivity|]);
    (split; [|split; [reflexivity|]]);
    try (intros Hclock; specialize (Hclock (rt_step rt)); 
         match goal with
         | |- 0 <= rt_now rt ?later - _ => specialize (Hclock later ltac:(lia)); lia
         end);
    lia.
Qed.

Lemma execute_result_metadata_witness :
  exists res,
    outcome (Protocol110System.execute (fun _ => Normal (JStr "test")) "test-op"
               (Protocol110System.new emptyConfig sampleRuntime)) = Normal res
    /\ 0 <= executionTime (metadata res).
Proof.
  destruct (execute_result_metadata
              (snd (Protocol110System.new emptyConfig sampleRuntime))
              (fst (Protocol110System.new emptyConfig sampleRuntime))
              (fun _ => Normal (JStr "test")) "test-op" (JStr "test") eq_refl)
    as (res & later & Hres & _ & _ & _ & _ & Hpositive).
  exists res. split; [exact Hres|].
  apply Hpositive. intros i j Hij. cbn. lia.
Defined.

(** ** The healing engine between calls *)

Lemma filter_none {A} (p : A -> bool) (l : list A) :
  (forall a, a ∈ l -> p a = false) -> List.filter p l = [].
Proof.
  induction l as [|a l IH]; intros Hall; [reflexivity|].
  cbn. rewrite (Hall a) by left. apply IH. intros b Hb. apply Hall. by right.
Qed.

Lemma filter_all {A} (p : A -> bool) (l : list A) :
  (forall a, a ∈ l -> p a = true) -> List.filter p l = l.
Proof.
  induction l as [|a l IH]; intros Hall; [reflexivity|].
  cbn. rewrite (Hall a) by left. f_equal. apply IH. intros b Hb. apply Hall. by right.
Qed.

Section InsertAfterEquals.
Context {A : Type} (key : A -> Z) (compareFn : A -> A -> Z).
Hypothesis compareFn_key : forall a b, compareFn a b = key a - key b.

(** Sorting a sorted array with one more element at its end puts that
    element behind the elements whose key is not greater and before the
    others. *)
Lemma sort_snoc_sorted (x : A) (arr : list A) :
  StronglySorted (fun a b => key a <= key b) arr ->
  Array.sort compareFn (arr ++ [x])
  = List.filter (fun a => key a <=? key x) arr ++ [x]
      ++ List.filter (fun a => key x <? key a) arr.
Proof.
  unfold Array.sort. rewrite foldr_app. cbn [foldr Array.insert_sorted].
  induction 1 as [|y arr Hsorted IH Hy]; [reflexivity|].
  cbn [foldr List.filter]. rewrite IH. clear IH.
  rewrite Forall_forall in Hy.
  destruct (Z.leb_spec (key y) (key x)) as [Hle|Hgt].
  - destruct (Z.ltb_spec (key x) (key y)) as [|_]; [lia|].
    destruct (List.filter (fun a => key a <=? key x) arr) as [|z rest] eqn:Hfilter.
    + cbn [app Array.insert_sorted]. rewrite compareFn_key.
      by destruct (Z.leb_spec (key y - key x) 0); [|lia].
    + cbn [app Array.insert_sorted]. rewrite compareFn_key.
      assert (z ∈ arr) as Hz.
      { apply list_elem_of_In.
        eapply (proj1 (List.filter_In _ z arr)). rewrite Hfilter. by left. }
      specialize (Hy z Hz). cbn in Hy.
      by destruct (Z.leb_spec (key y - key z) 0); [|lia].
  - destruct (Z.ltb_spec (key x) (key y)) as [_|]; [|lia].
    assert (List.filter (fun a => key a <=? key x) arr = []) as ->.
    { apply filter_none. intros a Ha. specialize (Hy a Ha). cbn in Hy.
      apply Z.leb_gt. lia. }
    assert (List.filter (fun a => key x <? key a) arr = arr) as ->.
    { apply filter_all. intros a Ha. specialize (Hy a Ha). cbn in Hy.
      apply Z.ltb_lt. lia. }
    cbn [app Array.insert_sorted]. rewrite compareFn_key.
    destruct (Z.leb_spec (key y - key x) 0); [lia|].
    f_equal. destruct arr as [|z arr]; [reflexivity|].
    cbn [Array.insert_sorted]. rewrite compareFn_key.
    specialize (Hy z ltac:(left)). cbn in Hy.
    by destruct (Z.leb_spec (key y - key z) 0); [|lia].
Qed.
End InsertAfterEquals.

(** X8.  On an engine reached from the constructor by any calls,
    [registerStrategy] stores the new strategy behind all the strategies
    whose priority is at least as high and before all those of lower
    priority (those it outranks in the ranking CRITICAL, HIGH, MEDIUM,
    LOW), and leaves the other strategies in the order they had, so that
    the strategies stay in priority order; the history is not
    touched. *)
Theorem registerStrategy_position
    (calls : list EngineCall) (rt0 : Runtime) (strategy : HealingStrategy) :
  let w := runEngine calls (SelfHealingSystem.new rt0) in
  let lower := fun s => outranks (hs_priority strategy) (hs_priority s) in
  let old := SelfHealingSystem.strategies (snd w) in
  let r := SelfHealingSystem.registerStrategy strategy w in
  outcome r = Normal tt
  /\ SelfHealingSystem.healingHistory (fields_after r)
     = SelfHealingSystem.healingHistory (snd w)
  /\ SelfHealingSystem.strategies (fields_after r)
     = List.filter (fun s => negb (lower s)) old
         ++ [strategy]
         ++ List.filter lower old
  /\ inPriorityOrder (SelfHealingSystem.strategies (fields_after r)).
Proof.
  cbv zeta.
  pose proof (runEngine_sorted calls rt0) as Hsorted.
  destruct (runEngine calls (SelfHealingSystem.new rt0)) as [rt [old history]].
  cbn [snd SelfHealingSystem.strategies SelfHealingSystem.healingHistory] in *.
  split; [reflexivity|]. split; [reflexivity|]. split.
  - rewrite (List.filter_ext (fun s => negb (outranks (hs_priority strategy) (hs_priority s)))
               (fun s => SelfHealingSystem.priorityOrder (hs_priority s)
                         <=? SelfHealingSystem.priorityOrder (hs_priority strategy)))
      by (intros s; rewrite outranks_priorityOrder, Z.leb_antisym; reflexivity).
    rewrite (List.filter_ext (fun s => outranks (hs_priority strategy) (hs_priority s))
               (fun s => SelfHealingSystem.priorityOrder (hs_priority strategy)
                         <? SelfHealingSystem.priorityOrder (hs_priority s)))
      by (intros s; apply outranks_priorityOrder).
    heal_unfold. unfold Array.push.
    apply (sort_snoc_sorted
             (fun s => SelfHealingSystem.priorityOrder (hs_priority s)));
      [reflexivity | exact Hsorted].
  - apply byRank_inPriorityOrder.
    apply (registerStrategy_sorted strategy rt (SelfHealingSystem.mk old history)).
Qed.

Lemma heal_history_bound (this : SelfHealingSystem.t) rt error :
  (length (SelfHealingSystem.healingHistory this) <= 100)%nat ->
  (length (SelfHealingSystem.healingHistory
             (fields_after (SelfHealingSystem.heal error (rt, this)))) <= 100)%nat.
Proof.
  intros Hbound.
  destruct (heal_effect this rt error) as (attempt & -> & _).
  rewrite keepLast100_drop, length_drop, length_app. cbn [length].
  destruct (Z.ltb_spec 100 (Z.of_nat (length (SelfHealingSystem.healingHistory this) + 1)));
    lia.
Qed.

Lemma runEngine_history_bound calls rt :
  (length (SelfHealingSystem.healingHistory
             (snd (runEngine calls (SelfHealingSystem.new rt)))) <= 100)%nat.
Proof.
  induction calls as [|call calls IH] using rev_ind.
  - cbn [runEngine fold_left]. rewrite new_SelfHealingSystem. cbn. lia.
  - rewrite runEngine_snoc.
    destruct (runEngine calls (SelfHealingSystem.new rt)) as [rt' this].
    destruct call as [strategy|error].
    + destruct this. exact IH.
    + apply (heal_history_bound this rt' error IH).
Qed.

Lemma percentageInRange_upto_100 :
  forallb (fun n => forallb (percentageInRange n) (seq 0 (S n))) (seq 1 100) = true.
Proof. vm_compute. reflexivity. Qed.

Lemma percentage_range (n k : nat) :
  (1 <= n <= 100)%nat -> (k <= n)%nat ->
  let p := percentage (Z.of_nat k) (Z.of_nat n) in
  Number.geb p (Number.ofZ 0) = true
  /\ Number.geb (Number.ofZ 100) p = true
  /\ (p = Number.ofZ 0 <-> k = 0%nat)
  /\ (p = Number.ofZ 100 <-> k = n).
Proof.
  intros Hn Hk.
  pose proof percentageInRange_upto_100 as Htable.
  rewrite forallb_forall in Htable.
  specialize (Htable n ltac:(apply in_seq; lia)).
  rewrite forallb_forall in Htable.
  specialize (Htable k ltac:(apply in_seq; lia)).
  unfold percentageInRange in Htable.
  repeat (apply andb_true_iff in Htable as [Htable ?]).
  repeat match goal with
         | H : bool_decide _ = true |- _ => apply bool_decide_eq_true in H
         end.
  auto.
Qed.

(** X9.  On an engine reached from the constructor by any calls,
    [getSuccessRate] changes nothing and returns a percentage between 0
    and 100: 0 when the history is empty or holds no successful attempt
    (and only then), and 100 exactly when the history is not empty and
    all its attempts were successful. *)
Theorem getSuccessRate_range (calls : list EngineCall) (rt0 : Runtime) :
  let w := runEngine calls (SelfHealingSystem.new rt0) in
  let history := SelfHealingSystem.healingHistory (snd w) in
  exists rate,
    SelfHealingSystem.getSuccessRate w = (Normal rate, w)
    /\ Number.geb rate (Number.ofZ 0) = true
    /\ Number.geb (Number.ofZ 100) rate = true
    /\ (rate = Number.ofZ 0 <-> countIf ha_success history = 0)
    /\ (rate = Number.ofZ 100 <->
        history <> [] /\ countIf ha_success history = Z.of_nat (length history)).
Proof.
  cbv zeta.
  pose proof (runEngine_history_bound calls rt0) as Hbound.
  destruct (runEngine calls (SelfHealingSystem.new rt0)) as [rt [strategies history]].
  cbn [snd SelfHealingSystem.healingHistory] in *.
  unfold SelfHealingSystem.getSuccessRate, JS.gets.
  cbn [snd SelfHealingSystem.healingHistory]. unfold countIf.
  eexists. split; [reflexivity|].
  destruct history as [|first history].
  - cbn. repeat split; try reflexivity; try discriminate; try tauto.
  - set (all := first :: history) in *.
    assert ((Z.of_nat (length all) =? 0) = false) as -> by (apply Z.eqb_neq; cbn; lia).
    pose proof (List.filter_length_le ha_success all) as Hle.
    destruct (percentage_range (length all) (length (List.filter ha_success all))
                ltac:(cbn in *; lia) Hle) as (Hlow & Hhigh & Hzero & Hfull).
    unfold percentage in *.
    split; [exact Hlow|]. split; [exact Hhigh|].
    split; [rewrite Hzero; lia|].
    rewrite Hfull. split.
    + intros Heq. split; [discriminate|]. by rewrite Heq.
    + intros [_ Heq]. lia.
Qed.

Lemma healAll_snoc errors error w :
  healAll (errors ++ [error]) w = snd (SelfHealingSystem.heal error (healAll errors w)).
Proof. unfold healAll. by rewrite fold_left_app. Qed.

Lemma healAll_strategies errors w :
  SelfHealingSystem.strategies (snd (healAll errors w))
  = SelfHealingSystem.strategies (snd w).
Proof.
  induction errors as [|error errors IH] using rev_ind; [reflexivity|].
  rewrite healAll_snoc.
  destruct (healAll errors w) as [rt this].
  destruct (heal_effect this rt error) as (attempt & _ & Hsame & _).
  unfold fields_after in Hsame. cbn [snd] in *. by rewrite Hsame.
Qed.

(** X10.  On an engine with only the built-in strategies, whatever
    errors it has handled before, [heal] resolves to [true] exactly when
    the text of the error matches one of the three built-in patterns, and
    the attempt it records names the first of "Network Retry", "Resource
    Cleanup" and "Rate Limit Backoff" whose pattern matches, or "none". *)
Theorem heal_with_builtin_strategies
    (errors : list JsError) (rt0 : Runtime) (error : JsError) :
  let w := healAll errors (SelfHealingSystem.new rt0) in
  let r := SelfHealingSystem.heal error w in
  let message := SelfHealingSystem.errorMessageOf error in
  let network := testIgnoreCase ["network"; "timeout"; "ECONNREFUSED"; "ETIMEDOUT"] message in
  let resource := testIgnoreCase ["memory"; "ENOMEM"; "EMFILE"; "too many"] message in
  let rate := testIgnoreCase ["rate limit"; "429"; "too many requests"] message in
  outcome r = Normal (network || resource || rate)
  /\ exists attempt,
      SelfHealingSystem.healingHistory (fields_after r)
      = keepLast100 (SelfHealingSystem.healingHistory (snd w) ++ [attempt])
      /\ errorType attempt = message
      /\ ha_success attempt = (network || resource || rate)
      /\ strategyUsed attempt
         = (if network then "Network Retry"
            else if resource then "Resource Cleanup"
            else if rate then "Rate Limit Backoff"
            else "none").
Proof.
  cbv zeta.
  pose proof (healAll_strategies errors (SelfHealingSystem.new rt0)) as Hstrategies.
  rewrite new_SelfHealingSystem in Hstrategies.
  cbn [SelfHealingSystem.strategies] in Hstrategies.
  destruct (healAll errors (SelfHealingSystem.new rt0)) as [rt this].
  cbn [snd] in *.
  destruct (heal_effect this rt error) as (attempt & Hhistory & _ & Htype & Hcase).
  cbv zeta in Hcase. rewrite Hstrategies in Hcase.
  cbn [Array.find SelfHealingSystem.networkRetry SelfHealingSystem.resourceCleanup
         SelfHealingSystem.rateLimitBackoff errorPattern] in Hcase.
  destruct (testIgnoreCase ["network"; "timeout"; "ECONNREFUSED"; "ETIMEDOUT"] _);
    [|destruct (testIgnoreCase ["memory"; "ENOMEM"; "EMFILE"; "too many"] _);
      [|destruct (testIgnoreCase ["rate limit"; "429"; "too many requests"] _)]];
    cbn [orb hs_name healingAction fst] in *.
  - destruct Hcase as (Hused & [Hout Hsuccess] & _). split; [exact Hout|].
    exists attempt. auto.
  - destruct Hcase as (Hused & [Hout Hsuccess] & _). split; [exact Hout|].
    exists attempt. auto.
  - destruct Hcase as (Hused & [Hout Hsuccess] & _). split; [exact Hout|].
    exists attempt. auto.
  - destruct Hcase as (Hout & Hused & Hsuccess & _). split; [exact Hout|].
    exists attempt. auto.
Qed.

Lemma prefix_app_true (a b s : string) :
  String.prefix (a ++ b) s = true -> String.prefix a s = true.
Proof.
  revert s. induction a as [|c a IH]; intros s; [by destruct s|].
  change (String.append (String c a) b) with (String c (String.append a b)).
  destruct s as [|d s]; cbn [String.prefix]; [discriminate|].
  destruct (ascii_dec c d); [apply IH | discriminate].
Qed.

Lemma includes_app_true (a b s : string) :
  includes (a ++ b) s = true -> includes a s = true.
Proof.
  induction s as [|d s IH]; cbn [includes].
  - destruct (String.prefix (a ++ b) "") eqn:Hprefix; [|discriminate].
    by rewrite (prefix_app_true a b "" Hprefix).
  - destruct (String.prefix (a ++ b) (String d s)) eqn:Hprefix.
    + by rewrite (prefix_app_true a b _ Hprefix).
    + intros Hrest. rewrite (IH Hrest). by destruct (String.prefix a (String d s)).
Qed.

(** X11.  The alternative "too many requests" of the rate-limit pattern
    never decides on an engine with only the built-in strategies: a text
    that contains it also contains "too many", which the Resource Cleanup
    strategy of higher priority matches.  So an attempt attributed to
    "Rate Limit Backoff" is always for a text mentioning "rate limit" or
    "429", and an error mentioning "too many requests" is attributed to
    "Network Retry" or "Resource Cleanup". *)
Theorem too_many_requests_is_shadowed
    (errors : list JsError) (rt0 : Runtime) (error : JsError) :
  let w := healAll errors (SelfHealingSystem.new rt0) in
  let r := SelfHealingSystem.heal error w in
  let message := SelfHealingSystem.errorMessageOf error in
  (testIgnoreCase ["too many requests"] message = true ->
   testIgnoreCase ["memory"; "ENOMEM"; "EMFILE"; "too many"] message = true)
  /\ exists attempt,
      SelfHealingSystem.healingHistory (fields_after r)
      = keepLast100 (SelfHealingSystem.healingHistory (snd w) ++ [attempt])
      /\ (strategyUsed attempt = "Rate Limit Backoff" ->
          testIgnoreCase ["rate limit"; "429"] message = true)
      /\ (testIgnoreCase ["too many requests"] message = true ->
          strategyUsed attempt = "Network Retry"
          \/ strategyUsed attempt = "Resource Cleanup").
Proof.
  cbv zeta.
  assert (forall message,
             testIgnoreCase ["too many requests"] message = true ->
             testIgnoreCase ["memory"; "ENOMEM"; "EMFILE"; "too many"] message = true)
    as Hshadow.
  { intros message. unfold testIgnoreCase. cbn [existsb].
    rewrite !orb_false_r. intros Hlong.
    change (toLowerCase "too many requests")
      with (String.append (toLowerCase "too many") " requests") in Hlong.
    apply includes_app_true in Hlong. rewrite Hlong. by rewrite !orb_true_r. }
  split; [apply Hshadow|].
  pose proof (healAll_strategies errors (SelfHealingSystem.new rt0)) as Hstrategies.
  rewrite new_SelfHealingSystem in Hstrategies.
  cbn [SelfHealingSystem.strategies] in Hstrategies.
  destruct (healAll errors (SelfHealingSystem.new rt0)) as [rt this].
  cbn [snd] in *.
  destruct (heal_effect this rt error) as (attempt & Hhistory & _ & _ & Hcase).
  cbv zeta in Hcase. rewrite Hstrategies in Hcase.
  cbn [Array.find SelfHealingSystem.networkRetry SelfHealingSystem.resourceCleanup
         SelfHealingSystem.rateLimitBackoff errorPattern] in Hcase.
  exists attempt. split; [exact Hhistory|].
  specialize (Hshadow (SelfHealingSystem.errorMessageOf error)).
  destruct (testIgnoreCase ["network"; "timeout"; "ECONNREFUSED"; "ETIMEDOUT"] _);
    [|destruct (testIgnoreCase ["memory"; "ENOMEM"; "EMFILE"; "too many"] _)].
  - destruct Hcase as [-> _]. split; [discriminate | auto].
  - destruct Hcase as [-> _]. split; [discriminate | auto].
  - split.
    + intros Hrate.
      destruct (testIgnoreCase ["rate limit"; "429"; "too many requests"] _) eqn:Hmatch;
        [|destruct Hcase as (_ & Hnone & _); congruence].
      unfold testIgnoreCase in *. cbn [existsb] in *.
      rewrite !orb_false_r in *.
      destruct (includes (toLowerCase "too many requests") _);
        [by specialize (Hshadow eq_refl)|].
      by rewrite orb_false_r in Hmatch.
    + intros Hlong. by specialize (Hshadow Hlong).
Qed.

Lemma too_many_requests_is_shadowed_witness :
  testIgnoreCase ["memory"; "ENOMEM"; "EMFILE"; "too many"]
    "HTTP 429: Too Many Requests" = true.
Proof.
  exact (proj1 (too_many_requests_is_shadowed [] sampleRuntime
                  (Error "HTTP 429: Too Many Requests"))
               ltac:(vm_compute; reflexivity)).
Defined.

(** ** The pattern learner between calls *)

(** X12.  In a learner that has served any calls since it was created, a
    pattern is stored under a name exactly when that name has been
    recorded at least once, and the pattern stored under a name carries
    that name.  A further recording of the name keeps the identifier and
    the name of the pattern, and returns the pattern as it is then
    stored. *)
Theorem patterns_keep_identity :
  (forall (calls : list (string * bool * option (list (string * JsValue))))
          (rt : Runtime) (name : string),
      let final := snd (recordAll calls (rt, SelfLearningSystem.new)) in
      match SelfLearningSystem.patterns final !! name with
      | Some p => lp_pattern p = name /\ observations name calls <> []
      | None => observations name calls = []
      end)
  /\ (forall (this : SelfLearningSystem.t) (rt : Runtime) (name : string) (s : bool)
             (md : option (list (string * JsValue))),
        let r := SelfLearningSystem.recordPattern name s md (rt, this) in
        exists p,
          outcome r = Normal p
          /\ SelfLearningSystem.patterns (fields_after r) !! name = Some p
          /\ match SelfLearningSystem.patterns this !! name with
             | Some old => lp_id p = lp_id old /\ lp_pattern p = lp_pattern old
             | None => lp_pattern p = name
             end).
Proof.
  split.
  - intros calls rt name. cbv zeta.
    induction calls as [|[[name' s] md] calls IH] using rev_ind; [reflexivity|].
    rewrite recordAll_snoc, observations_snoc. cbn [fst snd].
    destruct (recordAll calls (rt, SelfLearningSystem.new)) as [rt' [patterns]].
    cbn [snd SelfLearningSystem.patterns] in *.
    learn_unfold.
    destruct (String.eqb_spec name' name) as [->|Hother].
    + destruct (patterns !! name) as [old|] eqn:Hold; cbn;
        rewrite lookup_insert_eq; (split; [|by destruct (observations name calls)]).
      * by destruct IH.
      * reflexivity.
    + rewrite app_nil_r.
      destruct (patterns !! name') as [old|]; cbn; by rewrite lookup_insert_ne.
  - intros [patterns] rt name s md. learn_unfold.
    destruct (patterns !! name) as [old|]; cbn; eexists;
      (split; [reflexivity|]); rewrite lookup_insert_eq; by repeat split.
Qed.

Lemma getProperty_assignProperty k k' v o :
  getProperty k (assignProperty k' v o)
  = if String.eqb k k' then Some v else getProperty k o.
Proof.
  induction o as [|[k0 v0] o IH]; cbn [assignProperty getProperty]; [reflexivity|].
  destruct (String.eqb_spec k' k0) as [->|Hk0]; cbn [getProperty].
  - by destruct (String.eqb k k0).
  - destruct (String.eqb_spec k k0) as [->|Hk].
    + destruct (String.eqb_spec k0 k'); [congruence | reflexivity].
    + exact IH.
Qed.

Lemma getProperty_None k o : k ∉ map fst o -> getProperty k o = None.
Proof.
  induction o as [|[k0 v0] o IH]; [reflexivity|]. cbn [map fst getProperty].
  intros Hnotin. apply not_elem_of_cons in Hnotin as [Hne Hnotin].
  destruct (String.eqb_spec k k0); [congruence | by apply IH].
Qed.

Lemma getProperty_assign_all k b o :
  NoDup (map fst b) ->
  getProperty k (fold_left (fun o kv => assignProperty (fst kv) (snd kv) o) b o)
  = match getProperty k b with
    | Some v => Some v
    | None => getProperty k o
    end.
Proof.
  revert o. induction b as [|[k' v] b IH]; intros o Hdistinct; [reflexivity|].
  cbn [fold_left fst snd map getProperty] in *.
  apply NoDup_cons in Hdistinct as [Hfresh Hdistinct].
  rewrite (IH _ Hdistinct), getProperty_assignProperty.
  destruct (String.eqb_spec k k') as [->|Hk]; [|reflexivity].
  by rewrite (getProperty_None _ _ Hfresh).
Qed.

(** X13.  When a name that is already stored is recorded again, the
    metadata of its pattern becomes an object (also when neither the
    stored pattern nor the call has any) in which each property has the
    value given in the call if the call gives one and the stored value
    otherwise. *)
Theorem recordPattern_merges_metadata
    (this : SelfLearningSystem.t) (rt : Runtime) (name : string) (s : bool)
    (md : option (list (string * JsValue))) (old : LearningPattern)
    (Hstored : SelfLearningSystem.patterns this !! name = Some old)
    (Hold : NoDup (ownKeys (lp_metadata old)))
    (Hnew : NoDup (ownKeys md)) :
  exists p merged,
    outcome (SelfLearningSystem.recordPattern name s md (rt, this)) = Normal p
    /\ lp_metadata p = Some merged
    /\ forall k,
        getProperty k merged
        = match getProperty k (default [] md) with
          | Some v => Some v
          | None => getProperty k (default [] (lp_metadata old))
          end.
Proof.
  destruct this as [patterns]. cbn [SelfLearningSystem.patterns] in Hstored.
  learn_unfold. rewrite Hstored. cbn.
  eexists _, _. split; [reflexivity|]. split; [reflexivity|].
  intros k. unfold spread.
  rewrite (getProperty_assign_all k _ _ Hnew).
  rewrite (getProperty_assign_all k _ _ Hold).
  destruct (getProperty k (default [] md)); [reflexivity|].
  by destruct (getProperty k (default [] (lp_metadata old))).
Qed.

Lemma recordPattern_merges_metadata_witness :
  exists p merged,
    outcome (SelfLearningSystem.recordPattern "deploy" true
               (Some [("region", JStr "eu"); ("retries", JNum 2)])
               (sampleRuntime,
                snd (recordAll [("deploy", true, Some [("region", JStr "us")])]
                       (sampleRuntime, SelfLearningSystem.new))))
    = Normal p
    /\ lp_metadata p = Some merged
    /\ getProperty "region" merged = Some (JStr "eu").
Proof.
  edestruct (recordPattern_merges_metadata
               (snd (recordAll [("deploy", true, Some [("region", JStr "us")])]
                       (sampleRuntime, SelfLearningSystem.new)))
               sampleRuntime "deploy" true
               (Some [("region", JStr "eu"); ("retries", JNum 2)]))
    as (p & merged & Hp & Hmerged & Hlookup).
  - apply lookup_insert_eq.
  - cbn. apply NoDup_singleton.
  - cbn. apply NoDup_cons. split; [|apply NoDup_singleton].
    intros Hin. apply list_elem_of_singleton in Hin. discriminate Hin.
  - exists p, merged. split; [exact Hp|]. split; [exact Hmerged|].
    exact (Hlookup "region").
Defined.

(** ** What the ledgers of the orchestrator hold *)

(** The records one call of [execute] appends, from any state. *)
Lemma execute_appends (this : Protocol110System.t) rt operation operationName :
  let this' := fields_after (Protocol110System.execute operation operationName (rt, this)) in
  let cfg := Protocol110System.config this in
  exists created suggested,
    EnhancementTracker.enhancements (Protocol110System.enhancementTracker this')
    = EnhancementTracker.enhancements (Protocol110System.enhancementTracker this)
        ++ created
    /\ RecommendationEngine.recommendations (Protocol110System.recommendationEngine this')
       = RecommendationEngine.recommendations (Protocol110System.recommendationEngine this)
           ++ suggested
    /\ Forall enhancementOfExecute created
    /\ Forall recommendationOfExecute suggested
    /\ map estimatedImpact suggested
       = match operation tt with
         | Normal _ => if enableContinuousImprovement cfg then [75; 50] else []
         | Abrupt _ => if enableSelfHealing cfg then [90] else []
         end.
Proof.
  destruct this as [[mel sh sl ci mi mr] [tracker] [ledger] lg st m].
  js_unfold. unfold enhancementOfExecute, recommendationOfExecute.
  destruct (operation tt) as [result|error].
  - destruct ci; [destruct (notNullish result)|]; cbn;
      unfold Array.push; rewrite <- ?app_assoc.
    + eexists [_; _], [_; _]. split; [reflexivity|]. split; [reflexivity|].
      repeat constructor; cbn; tauto.
    + eexists [_], [_; _]. split; [reflexivity|]. split; [reflexivity|].
      repeat constructor; cbn; tauto.
    + exists [], []. rewrite !app_nil_r. repeat constructor.
  - destruct sh; destruct error as [e|[text|]]; cbn; unfold Array.push;
      first [ eexists [], [_]; rewrite app_nil_r;
              split; [reflexivity|]; split; [reflexivity|];
              repeat constructor; cbn; tauto
            | exists [], []; rewrite !app_nil_r; repeat constructor ].
Qed.

Lemma executeAll_contents calls c rt :
  let this := snd (executeAll calls (Protocol110System.new c rt)) in
  let tracker := EnhancementTracker.enhancements (Protocol110System.enhancementTracker this) in
  let ledger := RecommendationEngine.recommendations
                  (Protocol110System.recommendationEngine this) in
  Forall enhancementOfExecute tracker
  /\ Forall recommendationOfExecute ledger
  /\ countIf (fun r => estimatedImpact r =? 90) ledger
     = (if enableSelfHealing (Protocol110System.resolveConfig c)
        then failedOperations (Protocol110System.metrics this) else 0).
Proof.
  induction calls as [|call calls IH] using rev_ind.
  - destruct c as [level [[]|] learning improvement interval maxRecs];
      cbn; repeat split; constructor.
  - cbv zeta in *. rewrite executeAll_snoc.
    pose proof (executeAll_config calls c rt) as Hconfig.
    destruct (executeAll calls (Protocol110System.new c rt)) as [rt' this].
    cbn [snd] in *.
    pose proof (execute_counters this rt' (fst call) (snd call)) as [_ Hcount].
    destruct (execute_appends this rt' (fst call) (snd call))
      as (created & suggested & Htracker & Hledger & Hcreated & Hsuggested & Himpacts).
    cbv zeta in Hcount. unfold fields_after in *. rewrite Hconfig in Himpacts.
    destruct IH as (IHt & IHl & IHn).
    rewrite Htracker, Hledger.
    split; [by apply Forall_app|]. split; [by apply Forall_app|].
    unfold countIf in *. rewrite List.filter_app, length_app, Nat2Z.inj_add, IHn.
    assert (length (List.filter (fun r => estimatedImpact r =? 90) suggested)
            = length (List.filter (fun i => i =? 90) (map estimatedImpact suggested)))
      as ->.
    { clear. induction suggested as [|r rest IH]; [reflexivity|].
      cbn. destruct (estimatedImpact r =? 90); cbn; by rewrite IH. }
    rewrite Himpacts.
    destruct (fst call tt); destruct Hcount as [_ ->];
      destruct (enableSelfHealing (Protocol110System.resolveConfig c));
      destruct (enableContinuousImprovement (Protocol110System.resolveConfig c));
      cbn; lia.
Qed.

(** X14.  Whatever calls a system has served since its construction,
    every stored enhancement is ENHANCED with MEDIUM priority or
    EXCEPTIONAL with LOW priority, and every stored recommendation is
    actionable and is one of "Optimize Performance" (75), "Enhanced
    Monitoring" (50) and "Self-Healing Action" (90).  So
    [getActionableRecommendations] returns the whole ledger, no
    enhancement reaches TRANSFORMATIVE, no recommendation is CRITICAL,
    and every [estimatedImpact] lies between 0 and 100. *)
Theorem ledgers_hold_only_what_execute_creates
    (calls : list ((unit -> Completion JsValue) * string))
    (c : PartialProtocolConfig) (rt : Runtime) :
  let w := executeAll calls (Protocol110System.new c rt) in
  let tracker := Protocol110System.enhancementTracker (snd w) in
  let engine := Protocol110System.recommendationEngine (snd w) in
  Forall enhancementOfExecute (EnhancementTracker.enhancements tracker)
  /\ Forall recommendationOfExecute (RecommendationEngine.recommendations engine)
  /\ outcome (RecommendationEngine.getActionableRecommendations (fst w, engine))
     = Normal (RecommendationEngine.recommendations engine)
  /\ outcome (EnhancementTracker.getEnhancementsByImpact TRANSFORMATIVE (fst w, tracker))
     = Normal []
  /\ outcome (RecommendationEngine.getRecommendationsByPriority CRITICAL (fst w, engine))
     = Normal []
  /\ Forall (fun r => 0 <= estimatedImpact r <= 100)
            (RecommendationEngine.recommendations engine).
Proof.
  cbv zeta.
  destruct (executeAll_contents calls c rt) as (Htracker & Hledger & _).
  cbv zeta in *.
  destruct (executeAll calls (Protocol110System.new c rt)) as [rt' [cfg [tracker] [ledger] lg st m]].
  cbn [fst snd Protocol110System.enhancementTracker Protocol110System.recommendationEngine
         EnhancementTracker.enhancements RecommendationEngine.recommendations] in *.
  split; [exact Htracker|]. split; [exact Hledger|].
  unfold outcome, RecommendationEngine.getActionableRecommendations,
    EnhancementTracker.getEnhancementsByImpact,
    RecommendationEngine.getRecommendationsByPriority, JS.gets.
  cbn [fst snd EnhancementTracker.enhancements RecommendationEngine.recommendations].
  rewrite Forall_forall in Htracker. rewrite Forall_forall in Hledger.
  split; [|split; [|split]].
  - f_equal. apply filter_all. intros r Hr. by destruct (Hledger r Hr) as [-> _].
  - f_equal. apply filter_none. intros e He.
    by destruct (Htracker e He) as [[-> _]|[-> _]].
  - f_equal. apply filter_none. intros r Hr.
    destruct (Hledger r Hr) as [_ [(_ & -> & _)|[(_ & -> & _)|(_ & -> & _)]]];
      by apply bool_decide_eq_false.
  - rewrite Forall_forall. intros r Hr.
    destruct (Hledger r Hr) as [_ [(_ & _ & -> & _)|[(_ & _ & -> & _)|(_ & _ & -> & _)]]];
      lia.
Qed.

(** X15.  Once an operation has failed on a system with self-healing
    enabled, the top recommendation is a "Self-Healing Action" of impact
    90, whatever else the system has recorded. *)
Theorem top_recommendation_after_healing
    (calls : list ((unit -> Completion JsValue) * string))
    (c : PartialProtocolConfig) (rt : Runtime)
    (Henabled : enableSelfHealing (Protocol110System.resolveConfig c) = true)
    (Hfailed : 0 < failedOperations
                     (Protocol110System.metrics
                        (snd (executeAll calls (Protocol110System.new c rt))))) :
  exists top,
    outcome (Protocol110System.getTopRecommendations (Some 1)
               (executeAll calls (Protocol110System.new c rt)))
    = Normal [top]
    /\ rec_title top = "Self-Healing Action"
    /\ estimatedImpact top = 90.
Proof.
  destruct (executeAll_contents calls c rt) as (_ & Hledger & Hhealed).
  cbv zeta in *. rewrite Henabled in Hhealed.
  destruct (executeAll calls (Protocol110System.new c rt)) as [rt' [cfg tr [ledger] lg st m]].
  cbn [fst snd Protocol110System.recommendationEngine Protocol110System.metrics
         RecommendationEngine.recommendations] in *.
  js_unfold. cbn [from_option id]. rewrite slice0_nonneg by lia.
  set (sorted := Array.sort RecommendationEngine.byImpactDescending ledger).
  pose proof (sort_Permutation RecommendationEngine.byImpactDescending ledger) as Hperm.
  pose proof (sort_StronglySorted _ _ byImpactDescending_key ledger) as Hsorted.
  fold sorted in Hperm, Hsorted.
  (* a healing recommendation is stored *)
  assert (exists healing, healing ∈ ledger /\ estimatedImpact healing = 90)
    as (healing & Hin & Hninety).
  { unfold countIf in Hhealed.
    destruct (List.filter (fun r => estimatedImpact r =? 90) ledger) as [|h rest] eqn:Hfilter;
      [cbn in Hhealed; lia|].
    exists h. 
    assert (In h (List.filter (fun r => estimatedImpact r =? 90) ledger)) as Hh
      by (rewrite Hfilter; by left).
    apply List.filter_In in Hh as [Hh Himpact].
    split; [by apply list_elem_of_In | by apply Z.eqb_eq]. }
  rewrite <- Hperm in Hin.
  destruct sorted as [|top rest]; [by apply elem_of_nil in Hin|].
  exists top. split; [reflexivity|].
  assert (90 <= estimatedImpact top) as Hmost.
  { apply elem_of_cons in Hin as [<-|Hin]; [lia|].
    apply StronglySorted_inv in Hsorted as [_ Hall].
    rewrite Forall_forall in Hall. specialize (Hall healing Hin). cbn in Hall. lia. }
  rewrite Forall_forall in Hledger.
  assert (top ∈ ledger) as Htop by (rewrite <- Hperm; left).
  destruct (Hledger top Htop)
    as [_ [(_ & _ & Hi & _)|[(_ & _ & Hi & _)|(Htitle & _ & Hi & _)]]];
    [lia | lia | by split].
Qed.

Lemma top_recommendation_after_healing_witness :
  exists top,
    outcome (Protocol110System.getTopRecommendations (Some 1)
               (executeAll [(fun _ => Normal (JStr "ok"), "fine");
                            (fun _ => Abrupt (Error "Test error"), "failing")]
                  (Protocol110System.new emptyConfig sampleRuntime)))
    = Normal [top]
    /\ rec_title top = "Self-Healing Action".
Proof.
  destruct (top_recommendation_after_healing
              [(fun _ => Normal (JStr "ok"), "fine");
               (fun _ => Abrupt (Error "Test error"), "failing")]
              emptyConfig sampleRuntime eq_refl ltac:(vm_compute; reflexivity))
    as (top & Htop & Htitle & _).
  exists top. split; assumption.
Defined.

(** ** Queries on the ledgers *)

Lemma filter_sublist {A} (p : A -> bool) (l : list A) : List.filter p l `sublist_of` l.
Proof.
  induction l as [|a l IH]; [constructor|].
  cbn. destruct (p a); by constructor.
Qed.

Lemma filter_by_priority_partition {A} (priority : A -> Priority) (l : list A) :
  (length (List.filter (fun a => bool_decide (priority a = LOW)) l)
   + length (List.filter (fun a => bool_decide (priority a = MEDIUM)) l)
   + length (List.filter (fun a => bool_decide (priority a = HIGH)) l)
   + length (List.filter (fun a => bool_decide (priority a = CRITICAL)) l))%nat
  = length l.
Proof.
  induction l as [|a l IH]; [reflexivity|].
  cbn [List.filter].
  repeat case_bool_decide; cbn [length]; try congruence; try lia.
  destruct (priority a); congruence.
Qed.

(** X16.  The priority queries split a ledger: each returns, in storage
    order, the entries of the priority asked for, and the four answers
    together have as many entries as the ledger.  The impact query with
    threshold BASELINE returns every enhancement, and raising the
    threshold can only remove entries.  None of these queries changes the
    ledger. *)
Theorem ledger_queries_partition
    (tracker : EnhancementTracker.t) (engine : RecommendationEngine.t) (rt : Runtime) :
  let byPriority := fun p =>
    EnhancementTracker.getEnhancementsByPriority p (rt, tracker) in
  let recsByPriority := fun p =>
    RecommendationEngine.getRecommendationsByPriority p (rt, engine) in
  let byImpact := fun level =>
    EnhancementTracker.getEnhancementsByImpact level (rt, tracker) in
  (forall p, exists found,
      byPriority p = (Normal found, (rt, tracker))
      /\ found `sublist_of` EnhancementTracker.enhancements tracker
      /\ (forall e, e ∈ found <->
                    e ∈ EnhancementTracker.enhancements tracker /\ enh_priority e = p))
  /\ (forall p, exists found,
        recsByPriority p = (Normal found, (rt, engine))
        /\ found `sublist_of` RecommendationEngine.recommendations engine
        /\ (forall r, r ∈ found <->
                      r ∈ RecommendationEngine.recommendations engine
                      /\ rec_priority r = p))
  /\ (exists low medium high critical,
        outcome (byPriority LOW) = Normal low
        /\ outcome (byPriority MEDIUM) = Normal medium
        /\ outcome (byPriority HIGH) = Normal high
        /\ outcome (byPriority CRITICAL) = Normal critical
        /\ (length low + length medium + length high + length critical)%nat
           = length (EnhancementTracker.enhancements tracker))
  /\ byImpact BASELINE
     = (Normal (EnhancementTracker.enhancements tracker), (rt, tracker))
  /\ (forall lower higher,
        level_value lower <= level_value higher ->
        exists more fewer,
          byImpact lower = (Normal more, (rt, tracker))
          /\ byImpact higher = (Normal fewer, (rt, tracker))
          /\ fewer `sublist_of` more).
Proof.
  destruct tracker as [stored], engine as [ledger]. cbv zeta.
  unfold EnhancementTracker.getEnhancementsByPriority,
    RecommendationEngine.getRecommendationsByPriority,
    EnhancementTracker.getEnhancementsByImpact, JS.gets, outcome.
  cbn [fst snd EnhancementTracker.enhancements RecommendationEngine.recommendations].
  split; [|split; [|split; [|split]]].
  - intros p. eexists. split; [reflexivity|]. split; [apply filter_sublist|].
    intros e. rewrite !list_elem_of_In, List.filter_In, bool_decide_eq_true.
    reflexivity.
  - intros p. eexists. split; [reflexivity|]. split; [apply filter_sublist|].
    intros r. rewrite !list_elem_of_In, List.filter_In, bool_decide_eq_true.
    reflexivity.
  - eexists _, _, _, _. repeat (split; [reflexivity|]).
    apply (filter_by_priority_partition enh_priority).
  - f_equal. f_equal. apply filter_all. intros e _.
    apply Z.leb_le. destruct (enh_impact e); cbn; lia.
  - intros lower higher Hle. eexists _, _.
    split; [reflexivity|]. split; [reflexivity|].
    induction stored as [|e stored IH]; [constructor|].
    cbn [List.filter].
    destruct (Z.leb_spec (level_value higher) (level_value (enh_impact e))).
    + destruct (Z.leb_spec (level_value lower) (level_value (enh_impact e))); [|lia].
      by constructor.
    + destruct (level_value lower <=? level_value (enh_impact e)); [by constructor | exact IH].
Qed.

Lemma ledger_queries_partition_witness :
  exists more fewer,
    EnhancementTracker.getEnhancementsByImpact ENHANCED
      (sampleRuntime, EnhancementTracker.new) = (Normal more, (sampleRuntime, EnhancementTracker.new))
    /\ EnhancementTracker.getEnhancementsByImpact TRANSFORMATIVE
         (sampleRuntime, EnhancementTracker.new)
       = (Normal fewer, (sampleRuntime, EnhancementTracker.new))
    /\ fewer `sublist_of` more.
Proof.
  exact (proj2 (proj2 (proj2 (proj2
           (ledger_queries_partition EnhancementTracker.new RecommendationEngine.new
              sampleRuntime))))
           ENHANCED TRANSFORMATIVE ltac:(vm_compute; discriminate)).
Defined.

(** ** The API controller *)

Ltac api_unfold :=
  cbv [ProtocolApiController.executeOperation ProtocolApiController.healthCheck
       ProtocolApiController.getMetrics ProtocolApiController.getEnhancements
       ProtocolApiController.getConfig ProtocolApiController.envelope
       ProtocolApiController.getRecommendations ProtocolApiController.on_protocol
       ProtocolApiController.protocol ProtocolApiController.truthy
       Protocol110System.getMetrics Protocol110System.getEnhancements
       Protocol110System.getConfig EnhancementTracker.getEnhancements];
  js_unfold.

(** X17.  [executeOperation] never rejects and never reports a failure:
    it answers with a success envelope around a successful result whose
    data echo the operation and its parameters, with two enhancements
    when continuous improvement is enabled and none otherwise; and it
    counts as one more successful operation of the orchestrator. *)
Theorem executeOperation_always_succeeds
    (this : ProtocolApiController.t) (rt : Runtime)
    (operation : string) (params : JsValue) :
  let r := ProtocolApiController.executeOperation operation params (rt, this) in
  let cfg := Protocol110System.config (ProtocolApiController.protocol this) in
  let m := Protocol110System.metrics (ProtocolApiController.protocol this) in
  let m' := Protocol110System.metrics (ProtocolApiController.protocol (fields_after r)) in
  exists res timestamp,
    outcome r = Normal {| api_success := true; api_data := Some res;
                          api_error := None; api_timestamp := timestamp |}
    /\ success res = true
    /\ data res = JObj [("operation", JStr operation); ("params", params)]
    /\ status res = (if enableContinuousImprovement cfg then STATUS_ENHANCED else SUCCESS)
    /\ length (enhancements res)
       = (if enableContinuousImprovement cfg then 2 else 0)%nat
    /\ totalOperations m' = totalOperations m + 1
    /\ successfulOperations m' = successfulOperations m + 1
    /\ failedOperations m' = failedOperations m.
Proof.
  destruct this as [[[mel sh sl ci mi mr] tr en lg st m]].
  api_unfold.
  destruct ci; cbn -[Z.add]; eexists _, _; (split; [reflexivity|]);
    cbn -[Z.add]; repeat split; reflexivity.
Qed.

(** X18.  With a negative limit the [getRecommendations] endpoint does
    not answer with an empty list: it returns the stored
    recommendations by descending impact without the last [-limit] of
    them, that is, all but the least important ones. *)
Theorem getRecommendations_negative_limit
    (this : ProtocolApiController.t) (rt : Runtime) (limit : Z)
    (Hnegative : limit < 0) :
  let ledger := RecommendationEngine.recommendations
                  (Protocol110System.recommendationEngine
                     (ProtocolApiController.protocol this)) in
  exists sorted returned dropped timestamp,
    outcome (ProtocolApiController.getRecommendations (Some limit) (rt, this))
    = Normal {| api_success := true; api_data := Some returned;
                api_error := None; api_timestamp := timestamp |}
    /\ sorted = returned ++ dropped
    /\ length dropped = Nat.min (Z.to_nat (- limit)) (length ledger)
    /\ Permutation sorted ledger
    /\ StronglySorted (fun a b => estimatedImpact b <= estimatedImpact a) sorted
    /\ stableFor estimatedImpact sorted ledger.
Proof.
  destruct this as [[c tr [ledger] lg st m]]. cbv zeta.
  cbn [ProtocolApiController.protocol Protocol110System.recommendationEngine
         RecommendationEngine.recommendations].
  set (sorted := Array.sort RecommendationEngine.byImpactDescending ledger).
  pose proof (sort_Permutation RecommendationEngine.byImpactDescending ledger) as Hperm.
  pose proof (sort_StronglySorted _ _ byImpactDescending_key ledger) as Hsorted.
  pose proof (sort_stable _ _ byImpactDescending_key ledger) as Hstable.
  fold sorted in Hperm, Hsorted, Hstable.
  pose proof (Permutation_length Hperm) as Hlength.
  set (kept := Z.to_nat (Z.max (Z.of_nat (length sorted) + limit) 0)).
  exists sorted, (take kept sorted), (drop kept sorted), (rt_now rt (rt_step rt)).
  split.
  { api_unfold. unfold ProtocolApiController.truthy.
    destruct (Z.eqb_spec limit 0) as [|_]; [lia|]. cbn [negb from_option id].
    unfold Array.slice0. fold sorted.
    destruct (Z.ltb_spec limit 0) as [_|]; [|lia]. reflexivity. }
  split; [by rewrite take_drop|].
  split; [rewrite length_drop; unfold kept; lia|].
  split; [exact Hperm|].
  split.
  { apply (StronglySorted_weaken _
             (fun a b => estimatedImpact b <= estimatedImpact a)) in Hsorted;
      [exact Hsorted | intros a b; cbn; lia]. }
  intros v. specialize (Hstable (- v)). cbn in Hstable.
  erewrite (List.filter_ext _ (fun a => - estimatedImpact a =? - v)), Hstable.
  - apply List.filter_ext. intros a.
    destruct (Z.eqb_spec (estimatedImpact a) v), (Z.eqb_spec (- estimatedImpact a) (- v));
      (reflexivity || lia).
  - intros a.
    destruct (Z.eqb_spec (estimatedImpact a) v), (Z.eqb_spec (- estimatedImpact a) (- v));
      (reflexivity || lia).
Qed.

Lemma getRecommendations_negative_limit_witness :
  exists returned (dropped : list Recommendation) timestamp,
    outcome (ProtocolApiController.getRecommendations (Some (-1))
               (sampleRuntime,
                ProtocolApiController.mk
                  (snd (executeAll [(fun _ => Normal (JStr "ok"), "fine")]
                          (Protocol110System.new emptyConfig sampleRuntime)))))
    = Normal {| api_success := true; api_data := Some returned;
                api_error := None; api_timestamp := timestamp |}
    /\ length dropped = 1%nat.
Proof.
  destruct (getRecommendations_negative_limit
              (ProtocolApiController.mk
                 (snd (executeAll [(fun _ => Normal (JStr "ok"), "fine")]
                         (Protocol110System.new emptyConfig sampleRuntime))))
              sampleRuntime (-1) ltac:(lia))
    as (sorted & returned & dropped & timestamp & Hout & _ & Hdropped & _).
  exists returned, dropped, timestamp. split; [exact Hout | exact Hdropped].
Defined.

(** X19.  The query endpoints ([healthCheck], [getMetrics],
    [getEnhancements], [getRecommendations] with any limit or none, and
    [getConfig]) never reject and never report a failure: each answers
    with a success envelope, without an error text, around exactly what
    the orchestrator's method of the same purpose returns on the same
    state, and leaves the orchestrator's records as that method does.
    For [getRecommendations] that method is [getTopRecommendations] when
    the limit is truthy and [getRecommendations] otherwise. *)
Theorem api_queries_always_succeed (this : ProtocolApiController.t) (rt : Runtime) :
  let protocol := ProtocolApiController.protocol this in
  (exists hc timestamp,
      outcome (ProtocolApiController.healthCheck (rt, this))
      = Normal {| api_success := true; api_data := Some hc;
                  api_error := None; api_timestamp := timestamp |}
      /\ outcome (Protocol110System.getHealthCheck (rt, protocol)) = Normal hc
      /\ sameRecords
           (ProtocolApiController.protocol
              (fields_after (ProtocolApiController.healthCheck (rt, this))))
           protocol)
  /\ (exists m timestamp,
        outcome (ProtocolApiController.getMetrics (rt, this))
        = Normal {| api_success := true; api_data := Some m;
                    api_error := None; api_timestamp := timestamp |}
        /\ outcome (Protocol110System.getMetrics (rt, protocol)) = Normal m
        /\ sameRecords
             (ProtocolApiController.protocol
                (fields_after (ProtocolApiController.getMetrics (rt, this))))
             protocol)
  /\ ProtocolApiController.getEnhancements (rt, this)
     = (Normal {| api_success := true;
                  api_data := Some (EnhancementTracker.enhancements
                                      (Protocol110System.enhancementTracker protocol));
                  api_error := None;
                  api_timestamp := rt_now rt (rt_step rt) |},
        (rt_tick rt, this))
  /\ (forall limit : option Z,
        exists returned,
          ProtocolApiController.getRecommendations limit (rt, this)
          = (Normal {| api_success := true;
                       api_data := Some returned;
                       api_error := None;
                       api_timestamp := rt_now rt (rt_step rt) |},
             (rt_tick rt, this))
          /\ (if ProtocolApiController.truthy limit
              then Protocol110System.getTopRecommendations limit (rt, protocol)
              else Protocol110System.getRecommendations (rt, protocol))
             = (Normal returned, (rt, protocol)))
  /\ ProtocolApiController.getConfig (rt, this)
     = (Normal {| api_success := true;
                  api_data := Some (Protocol110System.config protocol);
                  api_error := None;
                  api_timestamp := rt_now rt (rt_step rt) |},
        (rt_tick rt, this)).
Proof.
  destruct this as [[c [tracker] [ledger] lg st m]]. cbv zeta.
  split; [|split; [|split; [|split]]]; [| | |intros limit|].
  - eexists _, _. api_unfold. cbn.
    split; [reflexivity|]. split; [reflexivity|].
    unfold sameRecords. cbn. repeat split; reflexivity.
  - eexists _, _. api_unfold. cbn.
    split; [reflexivity|]. split; [reflexivity|].
    unfold sameRecords. cbn. repeat split; reflexivity.
  - reflexivity.
  - destruct (ProtocolApiController.truthy limit) eqn:Htruthy; eexists;
      unfold ProtocolApiController.getRecommendations; rewrite Htruthy;
      api_unfold; split; reflexivity.
  - reflexivity.
Qed.

(** X20.  [clear] forgets everything: after it the enhancement ledger is
    empty, its queries answer with empty lists and the average
    enhancement level is BASELINE again; the recommendation ledger is
    empty and has no top recommendations; and the learner creates the
    next pattern recorded under any name afresh, with frequency 1. *)
Theorem clear_forgets_everything :
  (forall (tracker : EnhancementTracker.t) (rt : Runtime),
      let w := snd (EnhancementTracker.clear (rt, tracker)) in
      outcome (EnhancementTracker.getEnhancements w) = Normal []
      /\ (forall p, outcome (EnhancementTracker.getEnhancementsByPriority p w) = Normal [])
      /\ (forall level,
            outcome (EnhancementTracker.getEnhancementsByImpact level w) = Normal [])
      /\ outcome (EnhancementTracker.getAverageEnhancementLevel w)
         = Normal (Number.ofZ (level_value BASELINE)))
  /\ (forall (engine : RecommendationEngine.t) (rt : Runtime),
        let w := snd (RecommendationEngine.clear (rt, engine)) in
        outcome (RecommendationEngine.getRecommendations w) = Normal []
        /\ (forall limit,
              outcome (RecommendationEngine.getTopRecommendations limit w) = Normal [])
        /\ outcome (RecommendationEngine.getActionableRecommendations w) = Normal [])
  /\ (forall (learner : SelfLearningSystem.t) (rt : Runtime) (name : string) (s : bool)
             (md : option (list (string * JsValue))),
        let w := snd (SelfLearningSystem.clear (rt, learner)) in
        exists p,
          outcome (SelfLearningSystem.recordPattern name s md w) = Normal p
          /\ frequency p = 1
          /\ lp_successRate p = Number.ofZ (if s then 1 else 0)
          /\ lp_metadata p = md).
Proof.
  split; [|split].
  - intros tracker rt. cbv zeta. repeat split; reflexivity.
  - intros engine rt. cbv zeta. split; [reflexivity|]. split; [|reflexivity].
    intros limit. unfold outcome, RecommendationEngine.getTopRecommendations, JS.gets.
    cbn. unfold Array.slice0. cbn [length]. 
    by destruct (default 10 limit <? 0); rewrite take_nil.
  - intros learner rt name s md. cbv zeta. eexists.
    split; [reflexivity|]. repeat split; reflexivity.
Qed.

(* ===================================================================== *)
(** ** integrations.ts: adapters and their manager *)
(* ===================================================================== *)

Ltac integ_unfold :=
  cbv [outcome fields_after runtime_after
       JS.bind JS.ret JS.throw JS.await JS.get JS.gets JS.modify fst snd
       BaseIntegrationAdapter.construct BaseIntegrationAdapter.isConnected
       BaseIntegrationAdapter.name
       HttpIntegrationAdapter.new HttpIntegrationAdapter.connect
       HttpIntegrationAdapter.disconnect HttpIntegrationAdapter.send
       HttpIntegrationAdapter.receive
       WebSocketIntegrationAdapter.new WebSocketIntegrationAdapter.connect
       WebSocketIntegrationAdapter.disconnect WebSocketIntegrationAdapter.send
       WebSocketIntegrationAdapter.receive
       IntegrationAdapter.connect IntegrationAdapter.disconnect
       IntegrationAdapter.send IntegrationAdapter.receive
       IntegrationManagerMethods.update
       IntegrationManagerMethods.registerAdapter
       IntegrationManagerMethods.getAdapter
       IntegrationManagerMethods.getAdapters
       IntegrationManagerMethods.getConnectedAdapters
       set_objects set_manager objects manager].

(** Calling [connect] or [disconnect] on each of [refs]. *)
Lemma connect_effect (a : AdapterRef) (rt : Runtime) (w : Integrations) :
  IntegrationAdapter.connect a (rt, w)
  = (Normal true, (rt, set_objects (alter (set_connected true) a (objects w)) w)).
Proof.
  unfold IntegrationAdapter.connect; cbn [snd].
  destruct (IntegrationAdapter.classOf a w) as [[?|?]|]; reflexivity.
Qed.

Lemma disconnect_effect (a : AdapterRef) (rt : Runtime) (w : Integrations) :
  IntegrationAdapter.disconnect a (rt, w)
  = (Normal true, (rt, set_objects (alter (set_connected false) a (objects w)) w)).
Proof.
  unfold IntegrationAdapter.disconnect; cbn [snd].
  destruct (IntegrationAdapter.classOf a w) as [[?|?]|]; reflexivity.
Qed.

Lemma send_effect (a : AdapterRef) (d : JsValue) (rt : Runtime) (w : Integrations) :
  IntegrationAdapter.send a d (rt, w)
  = (if from_option connected false (objects w !! a)
     then Normal true else Abrupt (Error "Not connected"), (rt, w)).
Proof.
  unfold IntegrationAdapter.send; cbn [snd].
  destruct (IntegrationAdapter.classOf a w) as [[?|?]|]; integ_unfold;
    destruct (from_option connected false _); reflexivity.
Qed.

Lemma receive_effect (a : AdapterRef) (rt : Runtime) (w : Integrations) :
  IntegrationAdapter.receive a (rt, w)
  = (if from_option connected false (objects w !! a)
     then Normal (JObj []) else Abrupt (Error "Not connected"), (rt, w)).
Proof.
  unfold IntegrationAdapter.receive; cbn [snd].
  destruct (IntegrationAdapter.classOf a w) as [[?|?]|]; integ_unfold;
    destruct (from_option connected false _); reflexivity.
Qed.

Lemma callEach_connect (b : bool) (refs : list AdapterRef) (rt : Runtime) (w : Integrations) :
  callEach (map (if b then IntegrationAdapter.connect else IntegrationAdapter.disconnect) refs)
           (rt, w)
  = (Normal (map (fun _ => Normal true) refs),
     (rt, set_objects (fold_left (fun o a => alter (set_connected b) a o) refs (objects w)) w)).
Proof.
  revert w; induction refs as [|a refs IH]; intros w.
  - destruct w; reflexivity.
  - cbn [map callEach].
    assert ((if b then IntegrationAdapter.connect else IntegrationAdapter.disconnect) a (rt, w)
            = (Normal true, (rt, set_objects (alter (set_connected b) a (objects w)) w))) as ->.
    { destruct b; [apply connect_effect | apply disconnect_effect]. }
    rewrite IH. destruct w; reflexivity.
Qed.

Lemma Promise_all_fulfilled {A B} (v : B) (l : list A) :
  Promise_all (map (fun _ => Normal v) l) = Normal (map (fun _ => v) l).
Proof. induction l as [|x l IH]; cbn; [|rewrite IH]; reflexivity. Qed.

Lemma forallb_all_true {A} (l : list A) :
  forallb (fun r : bool => r) (map (fun _ => true) l) = true.
Proof. induction l; cbn; auto. Qed.

Lemma connectAll_effect (rt : Runtime) (w : Integrations) :
  IntegrationManagerMethods.connectAll (rt, w)
  = (Normal true,
     (rt, set_objects (fold_left (fun o a => alter (set_connected true) a o)
                         (Map_values (IntegrationManager.adapters (manager w)))
                         (objects w)) w)).
Proof.
  unfold IntegrationManagerMethods.connectAll, JS.bind, JS.get, JS.await, JS.ret.
  cbn [snd]. rewrite (callEach_connect true).
  rewrite Promise_all_fulfilled, forallb_all_true. reflexivity.
Qed.

Lemma disconnectAll_effect (rt : Runtime) (w : Integrations) :
  IntegrationManagerMethods.disconnectAll (rt, w)
  = (Normal true,
     (rt, set_objects (fold_left (fun o a => alter (set_connected false) a o)
                         (Map_values (IntegrationManager.adapters (manager w)))
                         (objects w)) w)).
Proof.
  unfold IntegrationManagerMethods.disconnectAll, JS.bind, JS.get, JS.await, JS.ret.
  cbn [snd]. rewrite (callEach_connect false).
  rewrite Promise_all_fulfilled, forallb_all_true. reflexivity.
Qed.

Lemma lookup_set_each (b : bool) (refs : list AdapterRef) (o : list AdapterObject) (i : nat) :
  fold_left (fun o a => alter (set_connected b) a o) refs o !! i
  = if bool_decide (i ∈ refs) then set_connected b <$> o !! i else o !! i.
Proof.
  revert o; induction refs as [|a refs IH]; intros o; cbn [fold_left].
  - rewrite bool_decide_eq_false_2 by apply not_elem_of_nil. reflexivity.
  - rewrite IH. destruct (decide (i = a)) as [->|Hne].
    + rewrite list_lookup_alter_eq.
      rewrite (bool_decide_eq_true_2 (a ∈ a :: refs)) by (apply elem_of_cons; auto).
      case_bool_decide; [|reflexivity].
      destruct (o !! a) as [[n c s]|]; reflexivity.
    + rewrite list_lookup_alter_ne by congruence.
      repeat case_bool_decide; try reflexivity; exfalso;
        repeat match goal with
               | H : _ ∈ _ :: _ |- _ => apply elem_of_cons in H; destruct H
               | H : ¬ _ ∈ _ :: _ |- _ => apply H, elem_of_cons
               end; auto.
Qed.

Lemma length_set_each (b : bool) (refs : list AdapterRef) (o : list AdapterObject) :
  length (fold_left (fun o a => alter (set_connected b) a o) refs o) = length o.
Proof.
  revert o; induction refs as [|a refs IH]; intros o; cbn [fold_left]; [reflexivity|].
  rewrite IH. apply length_alter.
Qed.

Lemma set_connected_same (o : AdapterObject) : set_connected (connected o) o = o.
Proof. destruct o; reflexivity. Qed.

(** What one call does to an adapter that exists, and to the manager. *)
Lemma runIntegrationCall_objects (call : IntegrationCall) (rt : Runtime)
    (w : Integrations) (a : AdapterRef) (o : AdapterObject) :
  objects w !! a = Some o ->
  objects (snd (runIntegrationCall call (rt, w))) !! a
  = Some (set_connected (connectedAfter a call (rt, w) (connected o)) o).
Proof.
  intros Ha.
  destruct call as [n e|n u|b|b|b p|b|b| |]; cbn [runIntegrationCall connectedAfter].
  - integ_unfold. destruct w as [os m]; cbn in *. unfold Array.push.
    rewrite lookup_app_l by (eapply lookup_lt_Some; eauto).
    rewrite Ha, set_connected_same. reflexivity.
  - integ_unfold. destruct w as [os m]; cbn in *. unfold Array.push.
    rewrite lookup_app_l by (eapply lookup_lt_Some; eauto).
    rewrite Ha, set_connected_same. reflexivity.
  - rewrite connect_effect. cbn [snd set_objects objects].
    destruct (Nat.eqb_spec a b) as [->|Hne].
    + rewrite list_lookup_alter_eq, Ha. reflexivity.
    + rewrite list_lookup_alter_ne by congruence.
      rewrite Ha, set_connected_same. reflexivity.
  - rewrite disconnect_effect. cbn [snd set_objects objects].
    destruct (Nat.eqb_spec a b) as [->|Hne].
    + rewrite list_lookup_alter_eq, Ha. reflexivity.
    + rewrite list_lookup_alter_ne by congruence.
      rewrite Ha, set_connected_same. reflexivity.
  - rewrite send_effect. cbn [snd]. rewrite Ha, set_connected_same. reflexivity.
  - rewrite receive_effect. cbn [snd]. rewrite Ha, set_connected_same. reflexivity.
  - integ_unfold. destruct w as [os m]; cbn in *.
    rewrite Ha, set_connected_same. reflexivity.
  - rewrite connectAll_effect. cbn [snd set_objects objects].
    rewrite lookup_set_each, Ha.
    case_bool_decide; [reflexivity|]. rewrite set_connected_same. reflexivity.
  - rewrite disconnectAll_effect. cbn [snd set_objects objects].
    rewrite lookup_set_each, Ha.
    case_bool_decide; [reflexivity|]. rewrite set_connected_same. reflexivity.
Qed.

Lemma runIntegrationCall_manager (call : IntegrationCall) (rt : Runtime) (w : Integrations) :
  IntegrationManager.adapters (manager (snd (runIntegrationCall call (rt, w))))
  = match call with
    | RegisterAdapter a =>
        Map_set (from_option adapter_name "" (objects w !! a)) a
                (IntegrationManager.adapters (manager w))
    | _ => IntegrationManager.adapters (manager w)
    end.
Proof.
  destruct call as [n e|n u|b|b|b p|b|b| |]; cbn [runIntegrationCall];
    rewrite ?connect_effect, ?disconnect_effect, ?send_effect, ?receive_effect,
            ?connectAll_effect, ?disconnectAll_effect;
    destruct w as [os [m]]; reflexivity.
Qed.

Lemma runIntegrationCall_runtime (call : IntegrationCall) (rt : Runtime) (w : Integrations) :
  fst (runIntegrationCall call (rt, w)) = rt.
Proof.
  destruct call as [n e|n u|b|b|b p|b|b| |]; cbn [runIntegrationCall];
    rewrite ?connect_effect, ?disconnect_effect, ?send_effect, ?receive_effect,
            ?connectAll_effect, ?disconnectAll_effect;
    destruct w as [os [m]]; reflexivity.
Qed.

Lemma runIntegrations_snoc (calls : list IntegrationCall) (call : IntegrationCall)
    (w : Runtime * Integrations) :
  runIntegrations (calls ++ [call]) w
  = (if callInRange call (runIntegrations calls w)
     then runIntegrationCall call (runIntegrations calls w)
     else runIntegrations calls w).
Proof. unfold runIntegrations. rewrite fold_left_app. reflexivity. Qed.

(** Map facts. *)
Lemma Map_set_keys {V} (k : string) (v : V) (m : list (string * V)) :
  map fst (Map_set k v m) = if bool_decide (k ∈ map fst m) then map fst m else map fst m ++ [k].
Proof.
  induction m as [|[k' v'] m IH]; cbn [Map_set map fst].
  - rewrite bool_decide_eq_false_2 by apply not_elem_of_nil. reflexivity.
  - destruct (String.eqb_spec k k') as [->|Hne].
    + rewrite bool_decide_eq_true_2 by (apply elem_of_cons; auto). reflexivity.
    + cbn [map fst]. rewrite IH.
      repeat case_bool_decide; try reflexivity; exfalso;
        repeat match goal with
               | H : _ ∈ _ :: _ |- _ => apply elem_of_cons in H; destruct H
               | H : ¬ _ ∈ _ :: _ |- _ => apply H, elem_of_cons
               end; auto.
Qed.

Lemma Map_set_elem {V} (k : string) (v : V) (m : list (string * V)) (kv : string * V) :
  kv ∈ Map_set k v m -> kv = (k, v) \/ kv ∈ m.
Proof.
  induction m as [|[k0 v0] m IH]; cbn [Map_set].
  - intros H; apply list_elem_of_singleton in H. auto.
  - destruct (String.eqb_spec k k0) as [->|Hne]; intros H; apply elem_of_cons in H.
    + destruct H as [H|H]; [auto|]. right. apply elem_of_cons; auto.
    + destruct H as [H|H]; [right; apply elem_of_cons; auto|].
      destruct (IH H) as [?|?]; [auto|]. right. apply elem_of_cons; auto.
Qed.

Lemma Map_get_set_eq {V} (k : string) (v : V) (m : list (string * V)) :
  Map_get k (Map_set k v m) = Some v.
Proof.
  induction m as [|[k0 v0] m IH]; cbn [Map_set Map_get].
  - rewrite String.eqb_refl. reflexivity.
  - destruct (String.eqb_spec k k0) as [->|Hne]; cbn [Map_get].
    + rewrite String.eqb_refl. reflexivity.
    + destruct (String.eqb_spec k k0); [contradiction|]. exact IH.
Qed.

Lemma Map_get_set_ne {V} (k k' : string) (v : V) (m : list (string * V)) :
  k' <> k -> Map_get k' (Map_set k v m) = Map_get k' m.
Proof.
  intros Hne. induction m as [|[k0 v0] m IH]; cbn [Map_set Map_get].
  - destruct (String.eqb_spec k' k); [contradiction|]. reflexivity.
  - destruct (String.eqb_spec k k0) as [->|Hne0]; cbn [Map_get].
    + destruct (String.eqb_spec k' k0); [contradiction|]. reflexivity.
    + rewrite IH. reflexivity.
Qed.

Lemma Map_get_elem {V} (k : string) (v : V) (m : list (string * V)) :
  NoDup (map fst m) -> ((k, v) ∈ m <-> Map_get k m = Some v).
Proof.
  induction m as [|[k0 v0] m IH]; cbn [map fst Map_get]; intros Hnd.
  - split; [intros H; by apply not_elem_of_nil in H|discriminate].
  - apply NoDup_cons in Hnd as [Hk0 Hnd]. specialize (IH Hnd).
    destruct (String.eqb_spec k k0) as [->|Hne]; split.
    + intros H. apply elem_of_cons in H as [H|H]; [congruence|].
      exfalso. apply Hk0. apply list_elem_of_fmap. exists (k0, v). auto.
    + intros [= ->]. apply elem_of_cons; auto.
    + intros H. apply elem_of_cons in H as [H|H]; [congruence|]. by apply IH.
    + intros H. apply elem_of_cons; right. by apply IH.
Qed.

Lemma NoDup_Map_set {V} (k : string) (v : V) (m : list (string * V)) :
  NoDup (map fst m) -> NoDup (map fst (Map_set k v m)).
Proof.
  intros Hnd. rewrite Map_set_keys. case_bool_decide; [exact Hnd|].
  apply NoDup_app. split; [exact Hnd|]. split; [|apply NoDup_singleton].
  intros x Hx Hx'. apply list_elem_of_singleton in Hx'. congruence.
Qed.

(** Adapters that sit under their own names sit there once. *)
Lemma NoDup_values {V} (f : V -> string) (m : list (string * V)) :
  NoDup (map fst m) -> (forall k v, (k, v) ∈ m -> f v = k) -> NoDup (map snd m).
Proof.
  induction m as [|[k0 v0] m IH]; cbn [map fst snd]; intros Hnd Hf.
  - apply NoDup_nil_2.
  - apply NoDup_cons in Hnd as [Hk0 Hnd]. apply NoDup_cons. split.
    + intros Hv. apply list_elem_of_fmap in Hv as [[k v] [Heq Hin]]. cbn in Heq. subst v.
      apply Hk0. apply list_elem_of_fmap. exists (k, v0). split; [|exact Hin].
      cbn. rewrite <- (Hf k0 v0) by (apply elem_of_cons; auto).
      apply Hf. apply elem_of_cons; auto.
    + apply IH; [exact Hnd|]. intros k v Hin. apply Hf. apply elem_of_cons; auto.
Qed.

(** Every call of a program keeps the manager well formed. *)
Lemma runIntegrationCall_wellFormed (call : IntegrationCall) (rt : Runtime) (w : Integrations) :
  registryWellFormed w -> callInRange call (rt, w) = true ->
  registryWellFormed (snd (runIntegrationCall call (rt, w))).
Proof.
  intros [Hnd Hex] Hrange. unfold registryWellFormed.
  rewrite runIntegrationCall_manager.
  assert (forall n a, (n, a) ∈ IntegrationManager.adapters (manager w) ->
            exists o, objects (snd (runIntegrationCall call (rt, w))) !! a = Some o
                      /\ adapter_name o = n) as Hkeep.
  { intros n a Hin. destruct (Hex n a Hin) as [o [Ho Hn]].
    eexists. split; [apply runIntegrationCall_objects; exact Ho|]. exact Hn. }
  destruct call as [n e|n u|b|b|b p|b|b| |]; try (split; [exact Hnd|exact Hkeep]).
  cbn [callInRange snd] in Hrange. apply Nat.ltb_lt in Hrange.
  destruct (lookup_lt_is_Some_2 _ _ Hrange) as [ob Hob]. rewrite Hob. cbn [from_option].
  split; [apply NoDup_Map_set; exact Hnd|].
  intros n a Hin. apply Map_set_elem in Hin as [[= -> ->]|Hin]; [|apply Hkeep; exact Hin].
  eexists. split; [apply runIntegrationCall_objects; exact Hob|]. reflexivity.
Qed.

Lemma runIntegrations_wellFormed (calls : list IntegrationCall) (rt : Runtime) :
  fst (runIntegrations calls (rt, newIntegrations)) = rt /\
  registryWellFormed (snd (runIntegrations calls (rt, newIntegrations))).
Proof.
  induction calls as [|call calls IH] using rev_ind.
  - split; [reflexivity|]. split; [apply NoDup_nil_2|].
    intros n a H. by apply not_elem_of_nil in H.
  - rewrite runIntegrations_snoc.
    destruct (runIntegrations calls (rt, newIntegrations)) as [rt' w].
    cbn [fst snd] in IH. destruct IH as [-> IH].
    destruct (callInRange call (rt, w)) eqn:Hrange; [|split; [reflexivity|exact IH]].
    split; [apply runIntegrationCall_runtime|].
    apply runIntegrationCall_wellFormed; assumption.
Qed.

(** X21. An adapter keeps its name and class whatever is called, and its
    connection state is changed only by [connect] and [disconnect] on
    that very adapter, or by [connectAll] and [disconnectAll] while it is
    registered: one call leaves it as [connectedAfter] says, and after a
    whole program it is the same object up to its connection state. *)
Theorem adapter_changes_only_when_addressed
    (call : IntegrationCall) (calls : list IntegrationCall)
    (rt : Runtime) (w : Integrations) (a : AdapterRef) (o : AdapterObject)
    (Hexists : objects w !! a = Some o) :
  objects (snd (runIntegrationCall call (rt, w))) !! a
    = Some (set_connected (connectedAfter a call (rt, w) (connected o)) o) /\
  exists b, objects (snd (runIntegrations calls (rt, w))) !! a = Some (set_connected b o).
Proof.
  split; [apply runIntegrationCall_objects; exact Hexists|].
  induction calls as [|c calls IH] using rev_ind.
  - exists (connected o). rewrite set_connected_same. exact Hexists.
  - destruct IH as [b Hb]. rewrite runIntegrations_snoc.
    destruct (runIntegrations calls (rt, w)) as [rt' w'] eqn:Hrun. cbn [snd] in Hb.
    destruct (callInRange c (rt', w')); [|exists b; exact Hb].
    eexists. rewrite (runIntegrationCall_objects c rt' w' a _ Hb).
    destruct o; reflexivity.
Qed.

Lemma adapter_changes_only_when_addressed_witness :
  let w := mkIntegrations [mkAdapterObject "api" (HttpAdapterClass "http://localhost") false;
                           mkAdapterObject "ws" (WebSocketAdapterClass "ws://localhost") true]
                          (IntegrationManager.mk [("api", 0%nat)]) in
  objects (snd (runIntegrationCall ConnectAll (sampleRuntime, w))) !! 1%nat
    = Some (mkAdapterObject "ws" (WebSocketAdapterClass "ws://localhost") true) /\
  objects (snd (runIntegrationCall ConnectAll (sampleRuntime, w))) !! 0%nat
    = Some (mkAdapterObject "api" (HttpAdapterClass "http://localhost") true).
Proof.
  intros w. split.
  - exact (proj1 (adapter_changes_only_when_addressed ConnectAll [] sampleRuntime w 1%nat
                    (mkAdapterObject "ws" (WebSocketAdapterClass "ws://localhost") true)
                    eq_refl)).
  - exact (proj1 (adapter_changes_only_when_addressed ConnectAll [] sampleRuntime w 0%nat
                    (mkAdapterObject "api" (HttpAdapterClass "http://localhost") false)
                    eq_refl)).
Defined.

Ltac constructed :=
  cbv [HttpIntegrationAdapter.new WebSocketIntegrationAdapter.new
       BaseIntegrationAdapter.construct JS.bind JS.get JS.modify JS.ret fst snd].

(** X22. [send] and [receive] work exactly while the adapter is
    connected: on a connected adapter they return [true] and [{}], on any
    other they throw the error "Not connected", and in both cases nothing
    changes.  So they succeed right after [connect], throw right after
    [disconnect], and throw on an adapter that was just constructed. *)
Theorem send_needs_connection
    (rt : Runtime) (w : Integrations) (a : AdapterRef) (o : AdapterObject)
    (payload : JsValue) (name target : string)
    (Hexists : objects w !! a = Some o) :
  IntegrationAdapter.send a payload (rt, w)
    = (if connected o then Normal true else Abrupt (Error "Not connected"), (rt, w)) /\
  IntegrationAdapter.receive a (rt, w)
    = (if connected o then Normal (JObj []) else Abrupt (Error "Not connected"), (rt, w)) /\
  outcome (IntegrationAdapter.send a payload (snd (IntegrationAdapter.connect a (rt, w))))
    = Normal true /\
  outcome (IntegrationAdapter.send a payload (snd (IntegrationAdapter.disconnect a (rt, w))))
    = Abrupt (Error "Not connected") /\
  (forall fresh w',
     HttpIntegrationAdapter.new name target (rt, w) = (Normal fresh, w') \/
     WebSocketIntegrationAdapter.new name target (rt, w) = (Normal fresh, w') ->
     fresh = length (objects w) /\
     outcome (IntegrationAdapter.send fresh payload w') = Abrupt (Error "Not connected") /\
     outcome (IntegrationAdapter.receive fresh w') = Abrupt (Error "Not connected")).
Proof.
  repeat split.
  - rewrite send_effect, Hexists. reflexivity.
  - rewrite receive_effect, Hexists. reflexivity.
  - rewrite connect_effect. cbn [snd]. rewrite send_effect.
    cbn [set_objects objects]. rewrite list_lookup_alter_eq, Hexists. reflexivity.
  - rewrite disconnect_effect. cbn [snd]. rewrite send_effect.
    cbn [set_objects objects]. rewrite list_lookup_alter_eq, Hexists. reflexivity.
  - destruct H as [H|H]; revert H; constructed; intros [= <- <-]; reflexivity.
  - destruct H as [H|H]; revert H; constructed; intros [= <- <-];
      rewrite send_effect; cbn [objects set_objects]; unfold Array.push;
      rewrite lookup_app_r, Nat.sub_diag by lia; reflexivity.
  - destruct H as [H|H]; revert H; constructed; intros [= <- <-];
      rewrite receive_effect; cbn [objects set_objects]; unfold Array.push;
      rewrite lookup_app_r, Nat.sub_diag by lia; reflexivity.
Qed.

Lemma send_needs_connection_witness :
  let w := mkIntegrations [mkAdapterObject "api" (HttpAdapterClass "http://localhost") false]
                          (IntegrationManager.mk []) in
  outcome (IntegrationAdapter.send 0%nat JNull (sampleRuntime, w))
    = Abrupt (Error "Not connected") /\
  outcome (IntegrationAdapter.send 0%nat JNull
             (snd (IntegrationAdapter.connect 0%nat (sampleRuntime, w)))) = Normal true.
Proof.
  pose proof (send_needs_connection sampleRuntime
                (mkIntegrations [mkAdapterObject "api" (HttpAdapterClass "http://localhost") false]
                                (IntegrationManager.mk []))
                0%nat _ JNull "x" "y" eq_refl) as [Hsend [_ [Hconn _]]].
  split; [rewrite Hsend; reflexivity|exact Hconn].
Defined.

(** X23. In every state a program reaches from a new manager,
    [connectAll] returns [true] and leaves every registered adapter
    connected, so that [getConnectedAdapters] equals [getAdapters];
    [disconnectAll] returns [true] and leaves [getConnectedAdapters]
    empty.  Neither changes which adapters are registered. *)
Theorem connectAll_reaches_every_registered_adapter
    (calls : list IntegrationCall) (rt : Runtime) :
  let w := runIntegrations calls (rt, newIntegrations) in
  let wc := snd (IntegrationManagerMethods.connectAll w) in
  let wd := snd (IntegrationManagerMethods.disconnectAll w) in
  outcome (IntegrationManagerMethods.connectAll w) = Normal true /\
  outcome (IntegrationManagerMethods.disconnectAll w) = Normal true /\
  outcome (IntegrationManagerMethods.getAdapters wc)
    = outcome (IntegrationManagerMethods.getAdapters w) /\
  outcome (IntegrationManagerMethods.getAdapters wd)
    = outcome (IntegrationManagerMethods.getAdapters w) /\
  outcome (IntegrationManagerMethods.getConnectedAdapters wc)
    = outcome (IntegrationManagerMethods.getAdapters w) /\
  outcome (IntegrationManagerMethods.getConnectedAdapters wd) = Normal [].
Proof.
  cbv zeta.
  destruct (runIntegrations_wellFormed calls rt) as [Hrt [_ Hex]].
  destruct (runIntegrations calls (rt, newIntegrations)) as [rt' w].
  cbn [fst snd] in Hrt, Hex. subst rt'.
  rewrite connectAll_effect, disconnectAll_effect.
  destruct w as [os [ads]]. integ_unfold.
  cbn [objects manager IntegrationManager.adapters] in *.
  repeat split.
  - f_equal. apply filter_all. intros a Ha.
    rewrite lookup_set_each, bool_decide_eq_true_2 by exact Ha.
    apply list_elem_of_fmap in Ha as [[n a'] [-> Hin]].
    destruct (Hex n a' Hin) as [o [Ho _]]. cbn [snd]. rewrite Ho. reflexivity.
  - f_equal. apply filter_none. intros a Ha.
    rewrite lookup_set_each, bool_decide_eq_true_2 by exact Ha.
    destruct (os !! a); reflexivity.
Qed.

(** X24. In every state a program reaches from a new manager, the
    manager holds each name once and each adapter once, every registered
    adapter exists, and [getAdapter] answers for a name exactly the
    registered adapter that bears it. *)
Theorem registry_holds_each_name_once (calls : list IntegrationCall) (rt : Runtime) :
  let w := runIntegrations calls (rt, newIntegrations) in
  registryWellFormed (snd w) /\
  (forall refs, outcome (IntegrationManagerMethods.getAdapters w) = Normal refs ->
     NoDup refs /\ Forall (fun a => a < length (objects (snd w)))%nat refs) /\
  (forall n a,
     outcome (IntegrationManagerMethods.getAdapter n w) = Normal (Some a) <->
     a ∈ Map_values (IntegrationManager.adapters (manager (snd w))) /\
     adapter_name <$> objects (snd w) !! a = Some n).
Proof.
  cbv zeta.
  destruct (runIntegrations_wellFormed calls rt) as [_ Hwf].
  destruct (runIntegrations calls (rt, newIntegrations)) as [rt' w]. cbn [snd] in *.
  pose proof Hwf as [Hnd Hex].
  split; [exact Hwf|].
  destruct w as [os [ads]]. cbn [objects manager IntegrationManager.adapters] in Hnd, Hex.
  split.
  - integ_unfold. intros refs [= <-]. split.
    + apply (NoDup_values (fun a => from_option adapter_name "" (os !! a)));
        [exact Hnd|].
      intros k v Hin. destruct (Hex k v Hin) as [o [-> Hn]]. exact Hn.
    + apply Forall_forall. intros a Ha.
      apply list_elem_of_fmap in Ha as [[n a'] [-> Hin]].
      destruct (Hex n a' Hin) as [o [Ho _]]. eapply lookup_lt_Some; exact Ho.
  - intros n a. integ_unfold. split.
    + intros [= Hget]. apply Map_get_elem in Hget; [|exact Hnd].
      split; [apply list_elem_of_fmap; exists (n, a); auto|].
      destruct (Hex n a Hget) as [o [-> Hn]]. cbn. congruence.
    + intros [Hin Hname]. apply list_elem_of_fmap in Hin as [[n' a'] [Heq Hin]].
      cbn in Heq. subst a'. destruct (Hex n' a Hin) as [o [Ho Hn]].
      rewrite Ho in Hname. cbn in Hname. injection Hname as Hname.
      assert (n' = n) as -> by congruence.
      do 2 f_equal. apply Map_get_elem; assumption.
Qed.

(** X25. Registering an adapter under a name that is taken replaces the
    adapter held under that name, at its place, and otherwise adds the
    adapter at the end; afterwards [getAdapter] answers the new adapter
    for its name and what it answered before for every other name, and no
    other adapter of that name is managed any more. *)
Theorem registerAdapter_replaces_same_name
    (calls : list IntegrationCall) (rt : Runtime) (a : AdapterRef) (o : AdapterObject)
    (Hexists : objects (snd (runIntegrations calls (rt, newIntegrations))) !! a = Some o) :
  let w := runIntegrations calls (rt, newIntegrations) in
  let w' := snd (IntegrationManagerMethods.registerAdapter a w) in
  let names (w : Runtime * Integrations) :=
    map fst (IntegrationManager.adapters (manager (snd w))) in
  outcome (IntegrationManagerMethods.getAdapter (adapter_name o) w') = Normal (Some a) /\
  (forall n, n <> adapter_name o ->
     outcome (IntegrationManagerMethods.getAdapter n w')
     = outcome (IntegrationManagerMethods.getAdapter n w)) /\
  names w' = (if bool_decide (adapter_name o ∈ names w) then names w
              else names w ++ [adapter_name o]) /\
  (forall b ob, objects (snd w) !! b = Some ob -> adapter_name ob = adapter_name o ->
     b <> a -> b ∉ Map_values (IntegrationManager.adapters (manager (snd w')))) /\
  objects (snd w') = objects (snd w).
Proof.
  cbv zeta.
  pose proof (runIntegrations_wellFormed calls rt) as [_ Hwf].
  pose proof (runIntegrationCall_wellFormed (RegisterAdapter a)) as Hstep.
  destruct (runIntegrations calls (rt, newIntegrations)) as [rt' w]. cbn [snd] in *.
  specialize (Hstep rt' w Hwf).
  cbn [callInRange runIntegrationCall snd] in Hstep.
  assert ((a <? length (objects w))%nat = true) as Hlt
      by (apply Nat.ltb_lt; eapply lookup_lt_Some; exact Hexists).
  specialize (Hstep Hlt). destruct Hstep as [Hnd' Hex'].
  revert Hnd' Hex'. integ_unfold. destruct w as [os [ads]].
  cbn [objects manager IntegrationManager.adapters] in *. rewrite Hexists. cbn [from_option].
  intros Hnd' Hex'. repeat split.
  - rewrite Map_get_set_eq. reflexivity.
  - intros n Hn. rewrite Map_get_set_ne by exact Hn. reflexivity.
  - apply Map_set_keys.
  - intros b ob Hb Hname Hba Hin.
    apply list_elem_of_fmap in Hin as [[n b'] [Heq Hin]]. cbn in Heq. subst b'.
    destruct (Hex' n b Hin) as [ob' [Hob' Hn]].
    rewrite Hb in Hob'. injection Hob' as <-.
    apply Map_get_elem in Hin; [|exact Hnd'].
    rewrite <- Hn, Hname, Map_get_set_eq in Hin. congruence.
Qed.

Lemma registerAdapter_replaces_same_name_witness :
  let w := runIntegrations [NewHttp "api" "http://a"; NewWebSocket "api" "ws://b";
                            RegisterAdapter 0%nat] (sampleRuntime, newIntegrations) in
  outcome (IntegrationManagerMethods.getAdapter "api"
             (snd (IntegrationManagerMethods.registerAdapter 1%nat w))) = Normal (Some 1%nat).
Proof.
  exact (proj1 (registerAdapter_replaces_same_name
                  [NewHttp "api" "http://a"; NewWebSocket "api" "ws://b";
                   RegisterAdapter 0%nat] sampleRuntime 1%nat
                  (mkAdapterObject "api" (WebSocketAdapterClass "ws://b") false) eq_refl)).
Defined.
